(** * EveryDreamBatch: epoch scheduling and sample assembly

    A shallow embedding of [data/every_dream.py].  The class
    [EveryDreamBatch] is a [torch.utils.data.Dataset]: it holds the item
    ordering of the current epoch, replaces it in [shuffle], and assembles
    one sample per [__getitem__] call.

    The class talks to collaborators that are not part of the file: the
    bucketing data loader, the items' [hydrate] method, the caption object,
    the tokenizer, [random.random], the log and the schedule file.  A method
    is therefore embedded as a finite interaction tree over these calls,
    threaded through the object's own state; every call may answer with a
    value or with a Python exception.  Theorems quantify over every handler
    of the calls, that is over every behaviour of the collaborators.

    Python [float] is IEEE 754 binary64, taken from the kernel's reference
    specification [SpecFloat] at precision 53; the tensors of torchvision
    are binary32 (precision 24).  Python [int] is [Z]. *)

From Stdlib Require Import ZArith List String Ascii Bool Lia.
From Stdlib Require Import Floats.SpecFloat.
From Stdlib Require Import DecimalString DecimalZ.
From Stdlib Require Strings.Byte.
Import ListNotations.
Local Open Scope string_scope.
Local Open Scope list_scope.
Local Open Scope Z_scope.

Local Notation "a +++ b" := (String.append a b)
  (at level 60, right associativity).

(** ** Python exceptions and results *)

(** The exception classes the embedded code can meet.  All derive from
    [Exception] except [KeyboardInterrupt], which derives from
    [BaseException] only and so passes an [except Exception] clause. *)
Inductive exn : Type :=
| ZeroDivisionError
| OverflowError
| ValueError
| IndexError
| AttributeError
| OSError
| UnicodeEncodeError
| RuntimeError
| KeyboardInterrupt.

Definition is_Exception (e : exn) : bool :=
  match e with
  | KeyboardInterrupt => false
  | _ => true
  end.

Inductive result (A : Type) : Type :=
| Ok (a : A)
| Err (e : exn).
Arguments Ok {A} a.
Arguments Err {A} e.

Definition is_ok {A} (r : result A) : bool :=
  match r with Ok _ => true | Err _ => false end.

Definition result_bind {A B} (r : result A) (f : A -> result B) : result B :=
  match r with
  | Ok a => f a
  | Err e => Err e
  end.

(** ** Python floats: IEEE 754 binary64 *)

Definition float : Type := spec_float.

Module PyFloat.

Definition prec : Z := 53.
Definition emax : Z := 1024.

Definition add : float -> float -> float := SFadd prec emax.
Definition sub : float -> float -> float := SFsub prec emax.
Definition mul : float -> float -> float := SFmul prec emax.
Definition div : float -> float -> float := SFdiv prec emax.

(** [x > y] *)
Definition gtb (x y : float) : bool := SFltb y x.
(** [x <= y] *)
Definition leb (x y : float) : bool := SFleb x y.
(** [x < y] *)
Definition ltb (x y : float) : bool := SFltb x y.

(** The literals [0.0], [0.5] and [1.0]. *)
Definition zero : float := S754_zero false.
Definition half : float := S754_finite false 4503599627370496 (-53).
Definition one : float := S754_finite false 4503599627370496 (-52).

Definition is_zero (x : float) : bool :=
  match x with S754_zero _ => true | _ => false end.

Definition is_finite (x : float) : bool :=
  match x with
  | S754_zero _ | S754_finite _ _ _ => true
  | _ => false
  end.

(** [float(z)] for an [int]: the nearest double, ties to even;
    [OverflowError] when that is out of range. *)
Definition of_int (z : Z) : result float :=
  match binary_normalize prec emax z 0 false with
  | S754_infinity _ => Err OverflowError
  | x => Ok x
  end.

(** [a * x] for an int [a] and a float [x]. *)
Definition mul_int_float (a : Z) (x : float) : result float :=
  result_bind (of_int a) (fun fa => Ok (mul fa x)).

(** [a - x] for an int [a] and a float [x]. *)
Definition sub_int_float (a : Z) (x : float) : result float :=
  result_bind (of_int a) (fun fa => Ok (sub fa x)).

(** [x / b] for a float [x] and an int [b]: the divisor is converted
    first, and a zero divisor raises. *)
Definition truediv_float_int (x : float) (b : Z) : result float :=
  result_bind (of_int b) (fun fb =>
    if is_zero fb then Err ZeroDivisionError else Ok (div x fb)).

(** [a / b] for two ints: the correctly rounded quotient of the exact
    integers.  A zero dividend gives a signed zero; a quotient out of
    range raises [OverflowError]. *)
Definition truediv_int_int (a b : Z) : result float :=
  if b =? 0 then Err ZeroDivisionError
  else if a =? 0 then Ok (S754_zero (b <? 0))
  else
    match div (S754_finite (a <? 0) (Z.to_pos (Z.abs a)) 0)
              (S754_finite (b <? 0) (Z.to_pos (Z.abs b)) 0) with
    | S754_infinity _ => Err OverflowError
    | q => Ok q
    end.

(** [int(x)]: truncation toward zero. *)
Definition to_int (x : float) : result Z :=
  match x with
  | S754_nan => Err ValueError
  | S754_infinity _ => Err OverflowError
  | S754_zero _ => Ok 0
  | S754_finite s m e =>
      let magnitude :=
        if 0 <=? e then Z.shiftl (Zpos m) e else Z.shiftr (Zpos m) (- e) in
      Ok (if s then - magnitude else magnitude)
  end.

(** The integer nearest to a finite float, ties to even, as the
    format specification [.0f] rounds. *)
Definition round_half_even (m : positive) (e : Z) : Z :=
  if 0 <=? e then Z.shiftl (Zpos m) e
  else
    let d := Z.shiftl 1 (- e) in
    let q := Zpos m / d in
    let r := Zpos m mod d in
    match 2 * r ?= d with
    | Lt => q
    | Gt => q + 1
    | Eq => if Z.even q then q else q + 1
    end.

End PyFloat.

(** ** Rendering to text *)

(** [str(z)] for an int. *)
Definition str_int (z : Z) : string :=
  NilZero.string_of_int (Z.to_int z).

Fixpoint zeros (n : nat) : string :=
  match n with
  | O => ""
  | S n' => String "0" (zeros n')
  end.

(** [format(z, "05")]: sign first, then zeros up to a width of five. *)
Definition format_05 (z : Z) : string :=
  let sign := if z <? 0 then "-" else "" in
  let digits := str_int (Z.abs z) in
  sign +++ zeros (5 - String.length sign - String.length digits)%nat +++ digits.

(** [format(x, ".0f")] for a float. *)
Definition format_0f (x : float) : string :=
  match x with
  | S754_nan => "nan"
  | S754_infinity s => if s then "-inf" else "inf"
  | S754_zero s => if s then "-0" else "0"
  | S754_finite s m e =>
      (if s then "-" else "") +++ str_int (PyFloat.round_half_even m e)
  end.

(** The attribute values that are rendered with [str()]: ints and
    (nested) tuples or lists of them. *)
#[warnings="-register-all"]
Inductive pyval : Type :=
| PyInt (z : Z)
| PyTuple (items : list pyval)
| PyList (items : list pyval).

Fixpoint py_str (v : pyval) : string :=
  let fix join (l : list pyval) : string :=
    match l with
    | [] => ""
    | [x] => py_str x
    | x :: rest => py_str x +++ ", " +++ join rest
    end in
  match v with
  | PyInt z => str_int z
  | PyTuple [x] => "(" +++ py_str x +++ ",)"
  | PyTuple l => "(" +++ join l +++ ")"
  | PyList l => "[" +++ join l +++ "]"
  end.

(** [str(x)] for an optional string: [None] prints as its name. *)
Definition str_optional (s : option string) : string :=
  match s with
  | None => "None"
  | Some x => x
  end.

(** ** Tensors of torchvision: IEEE 754 binary32 *)

Module Float32.

Definition prec : Z := 24.
Definition emax : Z := 128.

Definition sub : spec_float -> spec_float -> spec_float := SFsub prec emax.
Definition div : spec_float -> spec_float -> spec_float := SFdiv prec emax.
Definition leb (x y : spec_float) : bool := SFleb x y.

(** An integer as a binary32 number. *)
Definition of_Z (z : Z) : spec_float := binary_normalize prec emax z 0 false.

(** A Python float (binary64) rounded to binary32, as
    [torch.as_tensor(x, dtype=torch.float32)] does. *)
Definition of_float (x : float) : spec_float :=
  match x with
  | S754_finite s m e => binary_round prec emax s m e
  | _ => x
  end.

Definition one : spec_float := of_Z 1.
Definition minus_one : spec_float := of_Z (-1).

End Float32.

(** A float tensor, as the sequence of its binary32 elements, and a
    PIL image, as the sequence of its 8-bit samples.  [ToTensor] also
    reorders the samples from height x width x channel to channel-first;
    the order of the elements plays no part below and is left out. *)
Definition FloatTensor : Type := list spec_float.
Definition PILImage : Type := list Byte.byte.

Module transforms.

(** One 8-bit sample scaled to [0, 1]: the sample, as a binary32
    number, divided by 255. *)
Definition scale_sample (b : Byte.byte) : spec_float :=
  Float32.div (Float32.of_Z (Z.of_N (Byte.to_N b))) (Float32.of_Z 255).

(** [transforms.ToTensor()] on an 8-bit image. *)
Definition ToTensor (img : PILImage) : FloatTensor := map scale_sample img.

(** The affine map [(x - mean) / std] of a normalization, on one
    element; the two statistics are first converted to binary32. *)
Definition affine (mean std : float) (x : spec_float) : spec_float :=
  Float32.div (Float32.sub x (Float32.of_float mean)) (Float32.of_float std).

(** [transforms.Normalize(mean, std)] with one mean and one standard
    deviation for all channels, the only form the class uses.
    Statistics per channel need the layout and are not modelled. *)
Definition Normalize (mean std : list float) (t : FloatTensor) : FloatTensor :=
  match mean, std with
  | [m], [s] => map (affine m s) t
  | _, _ => t
  end.

(** [transforms.Compose(fs)]: the transforms applied first to last. *)
Definition Compose {A} (first : PILImage -> A) (rest : list (A -> A))
  : PILImage -> A :=
  fun img => fold_left (fun acc f => f acc) rest (first img).

End transforms.

(** ** The collaborators *)

(** The caption object of an item: only its two views are used, and
    both are calls on the object. *)
Record ImageCaption : Type := { caption_ref : Z }.

(** An item of the bucketed pool.  [hydrate] returns the item with its
    image loaded. *)
Record ImageTrainItem : Type := {
  pathname : string;
  target_wh : pyval;
  runt_size : Z;
  caption : ImageCaption;
  image : PILImage
}.

Module DataLoaderMultiAspect.
Record t : Type := { batch_size : Z; loader_ref : Z }.
End DataLoaderMultiAspect.

Record CLIPTokenizer : Type := { model_max_length : Z; tokenizer_ref : Z }.

(** What a tokenizer call returns; only [input_ids] is read. *)
Record BatchEncoding : Type := { input_ids : list Z }.

(** An open text file. *)
Record TextIO : Type := { fileno : Z }.

(** The calls the class makes, indexed by the type of their answer. *)
Inductive call : Type -> Type :=
| get_shuffled_image_buckets
    (dl : DataLoaderMultiAspect.t) (dropout_fraction : float)
  : call (list ImageTrainItem)
| hydrate (item : ImageTrainItem) (crop save : bool) (crop_jitter : Z)
  : call ImageTrainItem
| get_shuffled_caption (c : ImageCaption) (seed : Z) : call string
| get_caption (c : ImageCaption) : call string
| tokenize (tok : CLIPTokenizer) (text : string) (truncation : bool)
    (padding : string) (max_length : Z)
  : call BatchEncoding
| random_random : call float
| open_file (file mode encoding : string) : call TextIO
| file_write (f : TextIO) (text : string) : call Z
| file_close (f : TextIO) : call unit
| logging_info (msg : string) : call unit
| logging_error (msg : string) : call unit.

(** ** Interaction trees and the method monad *)

(** A finite interaction tree: a result, or a call whose answer, a
    value or an exception, decides how the program goes on. *)
Inductive prog (A : Type) : Type :=
| Ret (a : A)
| Vis (X : Type) (c : call X) (k : result X -> prog A).
Arguments Ret {A} a.
Arguments Vis {A X} c k.

Fixpoint prog_bind {A B} (p : prog A) (f : A -> prog B) : prog B :=
  match p with
  | Ret a => f a
  | Vis c k => Vis c (fun r => prog_bind (k r) f)
  end.

(** A method body: it reads and writes the object [S], makes calls,
    and ends with a value or a raised exception.  The object's state
    survives a raise, as an attribute assigned before a raise does. *)
Definition M (S A : Type) : Type := S -> prog (result A * S).

Definition ret {S A} (a : A) : M S A := fun s => Ret (Ok a, s).

Definition raise {S A} (e : exn) : M S A := fun s => Ret (Err e, s).

Definition bind {S A B} (m : M S A) (f : A -> M S B) : M S B :=
  fun s =>
    prog_bind (m s) (fun rs =>
      match fst rs with
      | Ok a => f a (snd rs)
      | Err e => Ret (Err e, snd rs)
      end).

Definition get {S} : M S S := fun s => Ret (Ok s, s).

Definition put {S} (s' : S) : M S unit := fun _ => Ret (Ok tt, s').

(** The value or the exception of a pure Python expression. *)
Definition lift {S A} (r : result A) : M S A := fun s => Ret (r, s).

(** A call: an exception it answers with is raised. *)
Definition perform {S X} (c : call X) : M S X :=
  fun s => Vis c (fun r => Ret (r, s)).

(** [try: body / except Exception as e: handler]. *)
Definition try_except_Exception {S A}
  (body : M S A) (handler : exn -> M S A) : M S A :=
  fun s =>
    prog_bind (body s) (fun rs =>
      match fst rs with
      | Ok a => Ret (Ok a, snd rs)
      | Err e =>
          if is_Exception e then handler e (snd rs) else Ret (Err e, snd rs)
      end).

Declare Scope method_scope.
Delimit Scope method_scope with method.
Notation "x <- m ;; k" := (bind m (fun x => k))
  (at level 100, m at next level, right associativity) : method_scope.
Notation "m ;;; k" := (bind m (fun _ => k))
  (at level 100, right associativity) : method_scope.

(** [with open(file, mode, encoding=...) as f: body]: the file is
    closed when the body ends, also when it raises; an exception of
    the close itself is the one that goes on. *)
Definition with_open {S A} (file mode encoding : string)
  (body : TextIO -> M S A) : M S A :=
  bind (perform (open_file file mode encoding)) (fun f s =>
    prog_bind (body f s) (fun rs =>
      Vis (file_close f) (fun closed =>
        match closed with
        | Ok _ => Ret rs
        | Err e => Ret (Err e, snd rs)
        end))).

(** [for x in xs: body]. *)
Fixpoint for_each {S A} (xs : list A) (body : A -> M S unit) : M S unit :=
  match xs with
  | [] => ret tt
  | x :: rest => bind (body x) (fun _ => for_each rest body)
  end.

(** [range(n)]: the integers from [0] up to [n - 1]. *)
Fixpoint range_from (start : Z) (n : nat) : list Z :=
  match n with
  | O => []
  | S n' => start :: range_from (start + 1) n'
  end.

Definition range (n : nat) : list Z := range_from 0 n.

(** [l[i]] for a list: a negative index counts from the end. *)
Definition list_getitem {A} (l : list A) (i : Z) : result A :=
  let n := Z.of_nat (List.length l) in
  let j := if i <? 0 then i + n else i in
  if (0 <=? j) && (j <? n) then
    match nth_error l (Z.to_nat j) with
    | Some x => Ok x
    | None => Err IndexError
    end
  else Err IndexError.

(** ** Running a program against the collaborators *)

(** A behaviour of the collaborators: for each call an answer, with a
    state [W] of their own. *)
Definition handler (W : Type) : Type :=
  forall X : Type, call X -> W -> result X * W.

(** A call together with its answer. *)
Inductive event : Type :=
| Ev (X : Type) (c : call X) (answer : result X).
Arguments Ev {X} c answer.

Fixpoint exec {W A} (h : handler W) (p : prog A) (w : W)
  : A * W * list event :=
  match p with
  | Ret a => (a, w, [])
  | Vis c k =>
      let rw := h _ c w in
      let out := exec h (k (fst rw)) (snd rw) in
      (fst (fst out), snd (fst out), Ev c (fst rw) :: snd out)
  end.

(** One method call on the object [s] in the world [w]. *)
Record run_result (S A W : Type) : Type := {
  outcome : result A;
  self_after : S;
  world_after : W;
  trace : list event
}.
Arguments outcome {S A W} r.
Arguments self_after {S A W} r.
Arguments world_after {S A W} r.
Arguments trace {S A W} r.

Definition run {W S A} (h : handler W) (m : M S A) (s : S) (w : W)
  : run_result S A W :=
  let out := exec h (m s) w in
  {| outcome := fst (fst (fst out));
     self_after := snd (fst (fst out));
     world_after := snd (fst out);
     trace := snd out |}.

(** ** The class [EveryDreamBatch] *)

(** The line feed that ends a line of the schedule file. *)
Definition newline : string := String (ascii_of_nat 10) EmptyString.

(** The dictionary [__get_image_for_trainer] returns. *)
Record trainer_example : Type := {
  te_image : PILImage;
  te_caption : ImageCaption;
  te_runt_size : Z
}.

(** The dictionary [__getitem__] returns: the sample. *)
Record example : Type := {
  ex_caption : string;
  ex_image : FloatTensor;
  ex_tokens : list Z;
  ex_runt_size : Z
}.

(** An int that a 64-bit signed integer holds. *)
Definition fits_int64 (z : Z) : bool :=
  (- 2 ^ 63 <=? z) && (z <? 2 ^ 63).

(** [torch.tensor(ids)] of a list of ints: the same ints, as a tensor
    of 64-bit integers.  An int that does not fit raises [RuntimeError],
    an overflow when it is unpacked. *)
Definition torch_tensor (ids : list Z) : result (list Z) :=
  if forallb fits_int64 ids then Ok ids else Err RuntimeError.

Module EveryDreamBatch.

(** The attributes of an instance, in the order [__init__] assigns them. *)
Record t : Type := {
  data_loader : DataLoaderMultiAspect.t;
  batch_size : Z;
  debug_level : Z;
  conditional_dropout : float;
  crop_jitter : Z;
  unloaded_to_idx : Z;
  tokenizer : CLIPTokenizer;
  log_folder : option string;
  max_token_length : Z;
  retain_contrast : bool;
  write_schedule : bool;
  shuffle_tags : bool;
  seed : Z;
  rated_dataset : bool;
  rated_dataset_dropout_target : float;
  image_train_items : list ImageTrainItem
}.

(** [self.seed = v] *)
Definition set_seed (v : Z) (self : t) : t :=
  {| data_loader := data_loader self;
     batch_size := batch_size self;
     debug_level := debug_level self;
     conditional_dropout := conditional_dropout self;
     crop_jitter := crop_jitter self;
     unloaded_to_idx := unloaded_to_idx self;
     tokenizer := tokenizer self;
     log_folder := log_folder self;
     max_token_length := max_token_length self;
     retain_contrast := retain_contrast self;
     write_schedule := write_schedule self;
     shuffle_tags := shuffle_tags self;
     seed := v;
     rated_dataset := rated_dataset self;
     rated_dataset_dropout_target := rated_dataset_dropout_target self;
     image_train_items := image_train_items self |}.

(** [self.image_train_items = v] *)
Definition set_image_train_items (v : list ImageTrainItem) (self : t) : t :=
  {| data_loader := data_loader self;
     batch_size := batch_size self;
     debug_level := debug_level self;
     conditional_dropout := conditional_dropout self;
     crop_jitter := crop_jitter self;
     unloaded_to_idx := unloaded_to_idx self;
     tokenizer := tokenizer self;
     log_folder := log_folder self;
     max_token_length := max_token_length self;
     retain_contrast := retain_contrast self;
     write_schedule := write_schedule self;
     shuffle_tags := shuffle_tags self;
     seed := seed self;
     rated_dataset := rated_dataset self;
     rated_dataset_dropout_target := rated_dataset_dropout_target self;
     image_train_items := v |}.

(** The arguments of the constructor. *)
Record init_args : Type := {
  arg_data_loader : DataLoaderMultiAspect.t;
  arg_debug_level : Z;
  arg_conditional_dropout : float;
  arg_crop_jitter : Z;
  arg_seed : Z;
  arg_tokenizer : option CLIPTokenizer;
  arg_log_folder : option string;
  arg_retain_contrast : bool;
  arg_write_schedule : bool;
  arg_shuffle_tags : bool;
  arg_rated_dataset : bool;
  arg_rated_dataset_dropout_target : float
}.

(** The defaults of the signature; [0.02] is the double nearest to it. *)
Definition default_args (dl : DataLoaderMultiAspect.t) : init_args :=
  {| arg_data_loader := dl;
     arg_debug_level := 0;
     arg_conditional_dropout := S754_finite false 5764607523034235 (-58);
     arg_crop_jitter := 20;
     arg_seed := 555;
     arg_tokenizer := None;
     arg_log_folder := None;
     arg_retain_contrast := false;
     arg_write_schedule := false;
     arg_shuffle_tags := false;
     arg_rated_dataset := false;
     arg_rated_dataset_dropout_target := PyFloat.half |}.

(** The name of the schedule file of an epoch. *)
Definition schedule_path (self : t) (epoch_n : Z) : string :=
  str_optional (log_folder self) +++ "/ep" +++ str_int epoch_n
    +++ "_batch_schedule.txt".

(** [int(i / batch)]: the step of item [i]. *)
Definition schedule_step (batch i : Z) : result Z :=
  result_bind (PyFloat.truediv_int_int i batch) PyFloat.to_int.

(** The line of item [i]: the f-string of line 76, its fields
    evaluated left to right. *)
Definition line_text (batch : Z) (items : list ImageTrainItem) (i : Z)
  : result string :=
  result_bind (schedule_step batch i) (fun step =>
  result_bind (list_getitem items i) (fun item_wh =>
  result_bind (list_getitem items i) (fun item_r =>
  result_bind (list_getitem items i) (fun item_path =>
  Ok ("step:" +++ format_05 step
      +++ ", wh:" +++ py_str (target_wh item_wh)
      +++ ", r:" +++ str_int (runt_size item_r)
      +++ ", path:" +++ pathname item_path +++ newline))))).

Definition schedule_line (self : t) (i : Z) : result string :=
  line_text (batch_size self) (image_train_items self) i.

Definition schedule_error (path : string) : string :=
  " * Error writing to batch schedule for file path: " +++ path.

Local Open Scope method_scope.

(** One round of the loop of [__write_batch_schedule]. *)
Definition write_schedule_entry (f : TextIO) (i : Z) : M t unit :=
  try_except_Exception
    (self <- get ;;
     line <- lift (schedule_line self i) ;;
     _ <- perform (file_write f line) ;;
     ret tt)
    (fun _ =>
     self <- get ;;
     item <- lift (list_getitem (image_train_items self) i) ;;
     perform (logging_error (schedule_error (pathname item)))).

Definition __write_batch_schedule (epoch_n : Z) : M t unit :=
  self <- get ;;
  with_open (schedule_path self epoch_n) "w" "utf-8" (fun f =>
    self <- get ;;
    for_each (range (List.length (image_train_items self)))
             (write_schedule_entry f)).

(** The expression of line 84. *)
Definition rated_dropout_fraction (self : t) (epoch_n max_epochs : Z)
  : result float :=
  result_bind
    (PyFloat.mul_int_float epoch_n (rated_dataset_dropout_target self))
    (fun product =>
  result_bind (PyFloat.sub_int_float max_epochs product) (fun difference =>
  PyFloat.truediv_float_int difference max_epochs)).

(** Lines 83 to 86. *)
Definition dropout_fraction (self : t) (epoch_n max_epochs : Z)
  : result float :=
  if rated_dataset self
  then rated_dropout_fraction self epoch_n max_epochs
  else Ok PyFloat.one.

Definition shuffle (epoch_n max_epochs : Z) : M t unit :=
  self <- get ;;
  _ <- put (set_seed (seed self + 1) self) ;;
  self <- get ;;
  fraction <- lift (dropout_fraction self epoch_n max_epochs) ;;
  items <- perform (get_shuffled_image_buckets (data_loader self) fraction) ;;
  self <- get ;;
  _ <- put (set_image_train_items items self) ;;
  self <- get ;;
  if write_schedule self
  then __write_batch_schedule (epoch_n + 1)
  else ret tt.

Definition __len__ : M t Z :=
  self <- get ;;
  ret (Z.of_nat (List.length (image_train_items self))).

Definition __get_image_for_trainer
  (image_train_item : ImageTrainItem) (debug_level : Z)
  : M t trainer_example :=
  let save := 2 <? debug_level in
  self <- get ;;
  image_train_tmp <-
    perform (hydrate image_train_item false save (crop_jitter self)) ;;
  ret {| te_image := image image_train_tmp;
         te_caption := caption image_train_tmp;
         te_runt_size := runt_size image_train_tmp |}.

(** The pair [(mean, std_dev)] of lines 101 to 106. *)
Definition normalization (self : t) : float * float :=
  if retain_contrast self
  then (PyFloat.zero, PyFloat.one)
  else (PyFloat.half, PyFloat.half).

Definition __getitem__ (i : Z) : M t example :=
  self <- get ;;
  item <- lift (list_getitem (image_train_items self) i) ;;
  train_item <- __get_image_for_trainer item (debug_level self) ;;
  self <- get ;;
  let mean := fst (normalization self) in
  let std_dev := snd (normalization self) in
  let image_transforms :=
    transforms.Compose transforms.ToTensor
      [transforms.Normalize [mean] [std_dev]] in
  example_caption <-
    (if shuffle_tags self
     then perform (get_shuffled_caption (te_caption train_item) (seed self))
     else perform (get_caption (te_caption train_item))) ;;
  let example_image := image_transforms (te_image train_item) in
  draw <- perform random_random ;;
  self <- get ;;
  encoding <-
    (if PyFloat.gtb draw (conditional_dropout self)
     then perform (tokenize (tokenizer self) example_caption true
                     "max_length" (model_max_length (tokenizer self)))
     else perform (tokenize (tokenizer self) " " true
                     "max_length" (model_max_length (tokenizer self)))) ;;
  tokens <- lift (torch_tensor (input_ids encoding)) ;;
  ret {| ex_caption := example_caption;
         ex_image := example_image;
         ex_tokens := tokens;
         ex_runt_size := te_runt_size train_item |}.

(** The message of line 68. *)
Definition trainer_set_message (ratio : float) (num_images batch : Z)
  : string :=
  " ** Trainer Set: " +++ format_0f ratio
    +++ ", num_images: " +++ str_int num_images
    +++ ", batch_size: " +++ str_int batch.

(** Lines 66 to 70, on the object with all its attributes assigned. *)
Definition init_report : M t unit :=
  self <- get ;;
  let num_images := Z.of_nat (List.length (image_train_items self)) in
  ratio <- lift (PyFloat.truediv_int_int num_images (batch_size self)) ;;
  _ <- perform (logging_info
         (trainer_set_message ratio num_images (batch_size self))) ;;
  self <- get ;;
  if write_schedule self then __write_batch_schedule 0 else ret tt.

(** The object once lines 48 to 64 have assigned its attributes. *)
Definition new_instance (a : init_args) (tok : CLIPTokenizer)
  (items : list ImageTrainItem) : t :=
  {| data_loader := arg_data_loader a;
     batch_size := DataLoaderMultiAspect.batch_size (arg_data_loader a);
     debug_level := arg_debug_level a;
     conditional_dropout := arg_conditional_dropout a;
     crop_jitter := arg_crop_jitter a;
     unloaded_to_idx := 0;
     tokenizer := tok;
     log_folder := arg_log_folder a;
     max_token_length := model_max_length tok;
     retain_contrast := arg_retain_contrast a;
     write_schedule := arg_write_schedule a;
     shuffle_tags := arg_shuffle_tags a;
     seed := arg_seed a;
     rated_dataset := arg_rated_dataset a;
     rated_dataset_dropout_target := arg_rated_dataset_dropout_target a;
     image_train_items := items |}.

(** The constructor: the new object, or the exception that ended it.
    A missing tokenizer fails at [self.tokenizer.model_max_length]. *)
Definition __init__ (a : init_args) : prog (result t) :=
  match arg_tokenizer a with
  | None => Ret (Err AttributeError)
  | Some tok =>
      Vis (get_shuffled_image_buckets (arg_data_loader a) PyFloat.one)
        (fun answer =>
           match answer with
           | Err e => Ret (Err e)
           | Ok items =>
               prog_bind (init_report (new_instance a tok items)) (fun rs =>
                 match fst rs with
                 | Ok _ => Ret (Ok (snd rs))
                 | Err e => Ret (Err e)
                 end)
           end)
  end.

Local Close Scope method_scope.

End EveryDreamBatch.

(** ** A client of the object *)

(** The operations the class offers once constructed. *)
Inductive operation : Type :=
| op_shuffle (epoch_n max_epochs : Z)
| op_len
| op_getitem (i : Z).

Definition perform_operation (o : operation) : M EveryDreamBatch.t unit :=
  match o with
  | op_shuffle epoch_n max_epochs => EveryDreamBatch.shuffle epoch_n max_epochs
  | op_len => bind EveryDreamBatch.__len__ (fun _ => ret tt)
  | op_getitem i => bind (EveryDreamBatch.__getitem__ i) (fun _ => ret tt)
  end.

(** A client that performs the operations one after the other and goes
    on when one raises: the object it ends with. *)
Fixpoint session (ops : list operation) (self : EveryDreamBatch.t)
  : prog EveryDreamBatch.t :=
  match ops with
  | [] => Ret self
  | o :: rest =>
      prog_bind (perform_operation o self) (fun rs => session rest (snd rs))
  end.

(** How often the client called [shuffle]. *)
Fixpoint count_shuffles (ops : list operation) : Z :=
  match ops with
  | [] => 0
  | op_shuffle _ _ :: rest => 1 + count_shuffles rest
  | _ :: rest => count_shuffles rest
  end.

(** ** Reading a trace *)

(** The parts of a trace selected by [f], in order. *)
Fixpoint collect {A} (f : event -> option A) (t : list event) : list A :=
  match t with
  | [] => []
  | e :: rest =>
      match f e with
      | Some a => a :: collect f rest
      | None => collect f rest
      end
  end.

(** The dropout fraction of a request to the bucketing collaborator. *)
Definition bucket_request (e : event) : option float :=
  match e with
  | Ev c _ =>
      match c with
      | get_shuffled_image_buckets _ fraction => Some fraction
      | _ => None
      end
  end.

(** What the bucketing collaborator answered. *)
Definition bucket_answer (e : event)
  : option (result (list ImageTrainItem)) :=
  match e with
  | Ev c r =>
      match c in call X
            return result X -> option (result (list ImageTrainItem)) with
      | get_shuffled_image_buckets _ _ => fun r => Some r
      | _ => fun _ => None
      end r
  end.

(** The sequence the bucketing collaborator returned last, if any. *)
Fixpoint last_returned (t : list event) : option (list ImageTrainItem) :=
  match t with
  | [] => None
  | e :: rest =>
      match last_returned rest with
      | Some items => Some items
      | None =>
          match bucket_answer e with
          | Some (Ok items) => Some items
          | _ => None
          end
      end
  end.

(** A hydration request: the item and the three keyword arguments. *)
Record hydration : Type := {
  hy_item : ImageTrainItem;
  hy_crop : bool;
  hy_save : bool;
  hy_crop_jitter : Z
}.

Definition hydrate_request (e : event) : option hydration :=
  match e with
  | Ev c _ =>
      match c with
      | hydrate item crop save jitter =>
          Some {| hy_item := item; hy_crop := crop;
                  hy_save := save; hy_crop_jitter := jitter |}
      | _ => None
      end
  end.

Definition hydrate_answer (e : event) : option (result ImageTrainItem) :=
  match e with
  | Ev c r =>
      match c in call X return result X -> option (result ImageTrainItem) with
      | hydrate _ _ _ _ => fun r => Some r
      | _ => fun _ => None
      end r
  end.

(** The two views of a caption object. *)
Inductive caption_view : Type :=
| stable_view (c : ImageCaption)
| shuffled_view (c : ImageCaption) (seed : Z).

Definition caption_request (e : event) : option caption_view :=
  match e with
  | Ev c _ =>
      match c with
      | get_caption cap => Some (stable_view cap)
      | get_shuffled_caption cap seed => Some (shuffled_view cap seed)
      | _ => None
      end
  end.

Definition caption_answer (e : event) : option (result string) :=
  match e with
  | Ev c r =>
      match c in call X return result X -> option (result string) with
      | get_caption _ => fun r => Some r
      | get_shuffled_caption _ _ => fun r => Some r
      | _ => fun _ => None
      end r
  end.

(** The text of a tokenizer call. *)
Definition tokenize_text (e : event) : option string :=
  match e with
  | Ev c _ =>
      match c with
      | tokenize _ text _ _ _ => Some text
      | _ => None
      end
  end.

Definition tokenize_answer (e : event) : option (result BatchEncoding) :=
  match e with
  | Ev c r =>
      match c in call X return result X -> option (result BatchEncoding) with
      | tokenize _ _ _ _ _ => fun r => Some r
      | _ => fun _ => None
      end r
  end.

(** The value [random.random()] returned. *)
Definition draw_answer (e : event) : option (result float) :=
  match e with
  | Ev c r =>
      match c in call X return result X -> option (result float) with
      | random_random => fun r => Some r
      | _ => fun _ => None
      end r
  end.

(** A text handed to [f.write] and whether the write went through. *)
Definition write_attempt (e : event) : option (string * bool) :=
  match e with
  | Ev c r =>
      match c with
      | file_write _ text => Some (text, is_ok r)
      | _ => None
      end
  end.

Definition written_text (e : event) : option string :=
  match write_attempt e with
  | Some (text, true) => Some text
  | _ => None
  end.

Definition info_logged (e : event) : option string :=
  match e with
  | Ev c _ =>
      match c with
      | logging_info msg => Some msg
      | _ => None
      end
  end.

Definition error_logged (e : event) : option string :=
  match e with
  | Ev c _ =>
      match c with
      | logging_error msg => Some msg
      | _ => None
      end
  end.

Definition is_write (e : event) : bool :=
  match e with
  | Ev c _ =>
      match c with
      | file_write _ _ => true
      | _ => false
      end
  end.

Definition answered_ok (e : event) : bool :=
  match e with Ev _ r => is_ok r end.

(** The exception a call answered with is one [except Exception] takes. *)
Definition answered_catchable (e : event) : bool :=
  match e with
  | Ev _ (Ok _) => true
  | Ev _ (Err x) => is_Exception x
  end.

(** The calls of sample assembly: hydration, a caption view, the
    random draw and the tokenizer. *)
Definition is_sample_call (e : event) : bool :=
  match e with
  | Ev c _ =>
      match c with
      | hydrate _ _ _ _ | get_caption _ | get_shuffled_caption _ _
      | tokenize _ _ _ _ _ | random_random => true
      | _ => false
      end
  end.

(** Every failed write is followed at once by an error in the log. *)
Fixpoint failures_logged (t : list event) : bool :=
  match t with
  | [] => true
  | e :: rest =>
      match write_attempt e with
      | Some (_, false) =>
          match rest with
          | next :: _ =>
              match error_logged next with
              | Some _ => failures_logged rest
              | None => false
              end
          | [] => false
          end
      | _ => failures_logged rest
      end
  end.

(** The range of [random.random()]: [0.0 <= x < 1.0]. *)
Definition unit_interval (x : float) : bool :=
  PyFloat.leb PyFloat.zero x && PyFloat.ltb x PyFloat.one.

(** The result and the trace of a run. *)
Definition result_of {W A} (out : A * W * list event) : A := fst (fst out).
Definition trace_of {W A} (out : A * W * list event) : list event := snd out.

(** ** What holds on every run of a program *)

(** [always p Q]: whatever the calls of [p] answer, the trace and the
    result satisfy [Q]. *)
Fixpoint always {A} (p : prog A) (Q : list event -> A -> Prop) : Prop :=
  match p with
  | Ret a => Q [] a
  | Vis c k => forall r, always (k r) (fun t a => Q (Ev c r :: t) a)
  end.

(** ** A scripted world, for concrete runs *)

Record script : Type := {
  on_buckets : float -> result (list ImageTrainItem);
  on_hydrate : ImageTrainItem -> result ImageTrainItem;
  on_caption : ImageCaption -> result string;
  on_shuffled_caption : ImageCaption -> Z -> result string;
  on_tokenize : string -> result BatchEncoding;
  on_random : result float;
  on_open : string -> result TextIO;
  on_write : string -> result Z;
  on_close : result unit
}.

Definition scripted (s : script) : handler unit :=
  fun X c w =>
    (match c in call X return result X with
     | get_shuffled_image_buckets _ fraction => on_buckets s fraction
     | hydrate item _ _ _ => on_hydrate s item
     | get_shuffled_caption cap seed => on_shuffled_caption s cap seed
     | get_caption cap => on_caption s cap
     | tokenize _ text _ _ _ => on_tokenize s text
     | random_random => on_random s
     | open_file file _ _ => on_open s file
     | file_write _ text => on_write s text
     | file_close _ => on_close s
     | logging_info _ => Ok tt
     | logging_error _ => Ok tt
     end, w).

(** ** Specifications of the methods *)

Import EveryDreamBatch.

(** The caption view [__getitem__] asks for. *)
Definition caption_call (self : t) (c : ImageCaption) : call string :=
  if shuffle_tags self
  then get_shuffled_caption c (seed self)
  else get_caption c.

(** The tokenizer call of [__getitem__] for a caption and a draw. *)
Definition tokenize_call (self : t) (cap : string) (draw : float)
  : call BatchEncoding :=
  tokenize (tokenizer self)
    (if PyFloat.gtb draw (conditional_dropout self) then cap else " ")
    true "max_length" (model_max_length (tokenizer self)).

(** The sample built from a hydrated item, a caption and an encoding. *)
Definition sample_of (self : t) (hydrated : ImageTrainItem) (cap : string)
  (enc : BatchEncoding) : example :=
  {| ex_caption := cap;
     ex_image :=
       transforms.Normalize [fst (normalization self)]
         [snd (normalization self)] (transforms.ToTensor (image hydrated));
     ex_tokens := input_ids enc;
     ex_runt_size := runt_size hydrated |}.

(** The runs of [__getitem__]: the calls in their order, each with
    the arguments it gets, and what the method ends with. *)
Definition getitem_post (self : t) (i : Z) (tr : list event)
  (rs : result example * t) : Prop :=
  snd rs = self /\
  match list_getitem (image_train_items self) i with
  | Err x => tr = [] /\ fst rs = Err x
  | Ok item =>
    exists ha t1,
      tr = Ev (hydrate item false (2 <? debug_level self) (crop_jitter self)) ha
             :: t1 /\
      match ha with
      | Err x => t1 = [] /\ fst rs = Err x
      | Ok hydrated =>
        exists ca t2,
          t1 = Ev (caption_call self (caption hydrated)) ca :: t2 /\
          match ca with
          | Err x => t2 = [] /\ fst rs = Err x
          | Ok cap =>
            exists da t3, t2 = Ev random_random da :: t3 /\
            match da with
            | Err x => t3 = [] /\ fst rs = Err x
            | Ok draw =>
              exists ta, t3 = [Ev (tokenize_call self cap draw) ta] /\
              match ta with
              | Err x => fst rs = Err x
              | Ok enc =>
                  fst rs
                  = result_bind (torch_tensor (input_ids enc)) (fun _ =>
                      Ok (sample_of self hydrated cap enc))
              end
            end
          end
      end
  end.

(** The calls of the schedule writer. *)
Definition schedule_call (e : event) : bool :=
  match e with
  | Ev c _ =>
      match c with
      | open_file _ _ _ | file_write _ _ | file_close _
      | logging_error _ => true
      | _ => false
      end
  end.

(** An event that leaves the epoch transition alive: a write that
    went through or failed with an [Exception], and any other call
    that returned. *)
Definition benign (e : event) : bool :=
  if is_write e then answered_catchable e else answered_ok e.

(** A text handed to [f.write] is the line of an item of [self]. *)
Definition line_of (self : t) (e : event) : Prop :=
  forall text ok, write_attempt e = Some (text, ok) ->
  exists i, 0 <= i < Z.of_nat (List.length (image_train_items self)) /\
            schedule_line self i = Ok text.

(** A text handed to [f.write] is a line computed with [batch]. *)
Definition batch_line (batch : Z) (e : event) : Prop :=
  forall text ok, write_attempt e = Some (text, ok) ->
  exists items i, line_text batch items i = Ok text.

Definition schedule_trace (self : t) (tr : list event) : Prop :=
  Forall (fun e => schedule_call e = true) tr /\
  Forall (line_of self) tr /\
  (forallb benign tr = true -> failures_logged tr = true).

(** The runs of [shuffle]. *)
Definition shuffle_post (self : t) (epoch_n max_epochs : Z)
  (tr : list event) (rs : result unit * t) : Prop :=
  let self1 := set_seed (seed self + 1) self in
  match dropout_fraction self epoch_n max_epochs with
  | Err x => tr = [] /\ rs = (Err x, self1)
  | Ok fraction =>
      exists answer rest,
        tr = Ev (get_shuffled_image_buckets (data_loader self) fraction) answer
               :: rest /\
        match answer with
        | Err x => rest = [] /\ rs = (Err x, self1)
        | Ok items =>
            let self2 := set_image_train_items items self1 in
            snd rs = self2 /\
            if write_schedule self
            then schedule_trace self2 rest /\
                 (forallb benign rest = true -> fst rs = Ok tt)
            else rest = [] /\ fst rs = Ok tt
        end
  end.

(** The runs of the constructor. *)
Definition init_post (a : init_args) (tr : list event) (r : result t)
  : Prop :=
  match arg_tokenizer a with
  | None => tr = [] /\ r = Err AttributeError
  | Some tok =>
      exists answer rest,
        tr = Ev (get_shuffled_image_buckets (arg_data_loader a) PyFloat.one)
               answer :: rest /\
        match answer with
        | Err x => rest = [] /\ r = Err x
        | Ok items =>
            let self := new_instance a tok items in
            let n := Z.of_nat (List.length items) in
            match PyFloat.truediv_int_int n (batch_size self) with
            | Err x => rest = [] /\ r = Err x
            | Ok ratio =>
                exists logged rest',
                  rest = Ev (logging_info
                               (trainer_set_message ratio n (batch_size self)))
                            logged :: rest' /\
                  match logged with
                  | Err x => rest' = [] /\ r = Err x
                  | Ok _ =>
                      if write_schedule self
                      then schedule_trace self rest' /\
                           (r = Ok self \/ exists x, r = Err x) /\
                           (forallb benign rest' = true -> r = Ok self)
                      else rest' = [] /\ r = Ok self
                  end
            end
        end
  end.

(** The ordering in force after a trace: the last sequence the
    bucketing collaborator returned, or else the one before. *)
Definition latest (tr : list event) (before : list ImageTrainItem)
  : list ImageTrainItem :=
  match last_returned tr with
  | Some items => items
  | None => before
  end.

Definition shuffles_of (o : operation) : Z :=
  match o with
  | op_shuffle _ _ => 1
  | _ => 0
  end.

(** What one operation of a client does to the object. *)
Definition operation_post (self : t) (o : operation) (tr : list event)
  (rs : result unit * t) : Prop :=
  snd rs = set_image_train_items (latest tr (image_train_items self))
             (set_seed (seed self + shuffles_of o) self) /\
  Forall (batch_line (batch_size self)) tr /\
  (shuffles_of o = 0 -> Forall (fun e => is_sample_call e = true) tr).

(** ** Arithmetic of rounding *)

(** The integer part of [m * 2^e] for a mantissa [m >= 0]. *)
Definition scaled_floor (m e : Z) : Z :=
  if 0 <=? e then m * 2 ^ e else m / 2 ^ (- e).

(** When rounding to nearest even, after [k] bits were shifted out of
    [mx], can go up. *)
Definition rounds_up (k mx : Z) (lx : location) : Prop :=
  (k = 0 /\ (lx = loc_Inexact Eq \/ lx = loc_Inexact Gt)) \/
  (k = 1 /\ Z.odd mx = true).

(** [int(s)] for a string of decimal digits. *)
Definition int_of_str (s : string) : option Z :=
  option_map Z.of_int (NilZero.int_of_string s).

(** [str(k)] has at most five characters for the [n] integers from
    [start]. *)
Fixpoint short_from (start : Z) (n : nat) : bool :=
  match n with
  | O => true
  | S n' =>
      (String.length (str_int start) <=? 5)%nat && short_from (start + 1) n'
  end.

(** The same for [blocks] runs of a thousand integers each. *)
Fixpoint short_blocks (start : Z) (blocks : nat) : bool :=
  match blocks with
  | O => true
  | S blocks' =>
      short_from start 1000 && short_blocks (start + 1000) blocks'
  end.

(** The line of [item] at [step]. *)
Definition entry_line (step : Z) (item : ImageTrainItem) : string :=
  "step:" +++ format_05 step
    +++ ", wh:" +++ py_str (target_wh item)
    +++ ", r:" +++ str_int (runt_size item)
    +++ ", path:" +++ pathname item +++ newline.

(** A text handed to [f.write] is the line of an item of [items], its
    step the floor quotient of its index by [batch]. *)
Definition floor_step_line (batch : Z) (items : list ImageTrainItem)
  (e : event) : Prop :=
  forall text ok, write_attempt e = Some (text, ok) ->
  exists i item,
    0 <= i < Z.of_nat (List.length items) /\
    list_getitem items i = Ok item /\
    text = entry_line (i / batch) item.

(** The ordering a call to the bucketing collaborator returned. *)
Definition returned_ordering (e : event) : option (list ImageTrainItem) :=
  match bucket_answer e with
  | Some (Ok items) => Some items
  | _ => None
  end.

(** Along a trace that starts with the ordering [current] in force,
    every text handed to [f.write] is the line of an item of the ordering
    in force at that moment, its step the floor quotient of its index by
    [batch]. *)
Fixpoint steps_use (batch : Z) (current : list ImageTrainItem)
  (tr : list event) : Prop :=
  match tr with
  | [] => True
  | e :: rest =>
      floor_step_line batch current e /\
      steps_use batch
        (match returned_ordering e with
         | Some items => items
         | None => current
         end) rest
  end.

(** A sample of a normalized image lies in [-1, 1]. *)
Definition in_unit_range (x : spec_float) : Prop :=
  Float32.leb Float32.minus_one x = true /\ Float32.leb x Float32.one = true.

(** ** A small data set, for concrete runs *)

Definition cat : ImageTrainItem :=
  {| pathname := "/data/cat.jpg";
     target_wh := PyList [PyInt 512; PyInt 512];
     runt_size := 0;
     caption := {| caption_ref := 1 |};
     image := [] |}.

Definition dog : ImageTrainItem :=
  {| pathname := "/data/dog.jpg";
     target_wh := PyList [PyInt 576; PyInt 448];
     runt_size := 1;
     caption := {| caption_ref := 2 |};
     image := [] |}.

(** An item once hydrated: three samples stand for its pixels. *)
Definition loaded (item : ImageTrainItem) : ImageTrainItem :=
  {| pathname := pathname item;
     target_wh := target_wh item;
     runt_size := runt_size item;
     caption := caption item;
     image := [Byte.x00; Byte.x80; Byte.xff] |}.

Definition pairs_loader : DataLoaderMultiAspect.t :=
  {| DataLoaderMultiAspect.batch_size := 2;
     DataLoaderMultiAspect.loader_ref := 0 |}.

Definition clip : CLIPTokenizer :=
  {| model_max_length := 77; tokenizer_ref := 0 |}.

(** The arguments of a provider over [pairs_loader] that writes its
    schedule, shuffles tags and trains on a rated data set. *)
Definition rated_args : init_args :=
  {| arg_data_loader := pairs_loader;
     arg_debug_level := 3;
     arg_conditional_dropout := PyFloat.zero;
     arg_crop_jitter := 20;
     arg_seed := 555;
     arg_tokenizer := Some clip;
     arg_log_folder := Some "logs";
     arg_retain_contrast := false;
     arg_write_schedule := true;
     arg_shuffle_tags := true;
     arg_rated_dataset := true;
     arg_rated_dataset_dropout_target := PyFloat.half |}.

(** The same with the image kept as it is. *)
Definition contrast_args : init_args :=
  {| arg_data_loader := pairs_loader;
     arg_debug_level := 3;
     arg_conditional_dropout := PyFloat.zero;
     arg_crop_jitter := 20;
     arg_seed := 555;
     arg_tokenizer := Some clip;
     arg_log_folder := Some "logs";
     arg_retain_contrast := true;
     arg_write_schedule := true;
     arg_shuffle_tags := true;
     arg_rated_dataset := true;
     arg_rated_dataset_dropout_target := PyFloat.half |}.

Definition rated_provider : t := new_instance rated_args clip [cat; dog; cat].

Definition contrast_provider : t :=
  new_instance contrast_args clip [cat; dog; cat].

(** Collaborators that all answer; every draw is [0.5]. *)
Definition calm : script :=
  {| on_buckets := fun _ => Ok [cat; dog; cat];
     on_hydrate := fun item => Ok (loaded item);
     on_caption := fun _ => Ok "a cat, asleep";
     on_shuffled_caption := fun _ _ => Ok "asleep, a cat";
     on_tokenize := fun text =>
       Ok {| input_ids := [49406; Z.of_nat (String.length text); 49407] |};
     on_random := Ok PyFloat.half;
     on_open := fun _ => Ok {| fileno := 3 |};
     on_write := fun text => Ok (Z.of_nat (String.length text));
     on_close := Ok tt |}.

(** The same with every draw [0.0]. *)
Definition zero_draw : script :=
  {| on_buckets := on_buckets calm;
     on_hydrate := on_hydrate calm;
     on_caption := on_caption calm;
     on_shuffled_caption := on_shuffled_caption calm;
     on_tokenize := on_tokenize calm;
     on_random := Ok PyFloat.zero;
     on_open := on_open calm;
     on_write := on_write calm;
     on_close := on_close calm |}.

(** The same with a disk that refuses every write. *)
Definition full_disk : script :=
  {| on_buckets := on_buckets calm;
     on_hydrate := on_hydrate calm;
     on_caption := on_caption calm;
     on_shuffled_caption := on_shuffled_caption calm;
     on_tokenize := on_tokenize calm;
     on_random := on_random calm;
     on_open := on_open calm;
     on_write := fun _ => Err OSError;
     on_close := on_close calm |}.

(** ** Further readings of a trace *)

(** The kind of a call. *)
Inductive call_kind : Type :=
| k_buckets
| k_hydrate
| k_caption
| k_tokenize
| k_random
| k_open
| k_write
| k_close
| k_info
| k_error.

Definition kind_of (e : event) : call_kind :=
  match e with
  | Ev c _ =>
      match c with
      | get_shuffled_image_buckets _ _ => k_buckets
      | hydrate _ _ _ _ => k_hydrate
      | get_shuffled_caption _ _ | get_caption _ => k_caption
      | tokenize _ _ _ _ _ => k_tokenize
      | random_random => k_random
      | open_file _ _ _ => k_open
      | file_write _ _ => k_write
      | file_close _ => k_close
      | logging_info _ => k_info
      | logging_error _ => k_error
      end
  end.

(** The exception a call answered with, if it did. *)
Definition failure (e : event) : option exn :=
  match e with
  | Ev _ (Ok _) => None
  | Ev _ (Err x) => Some x
  end.

(** A tokenizer request: the tokenizer, the text and the three keyword
    arguments. *)
Record tokenization : Type := {
  tk_tokenizer : CLIPTokenizer;
  tk_text : string;
  tk_truncation : bool;
  tk_padding : string;
  tk_max_length : Z
}.

Definition tokenize_request (e : event) : option tokenization :=
  match e with
  | Ev c _ =>
      match c with
      | tokenize tok text truncation padding max_length =>
          Some {| tk_tokenizer := tok; tk_text := text;
                  tk_truncation := truncation; tk_padding := padding;
                  tk_max_length := max_length |}
      | _ => None
      end
  end.

(** A request to open a file: name, mode and encoding. *)
Record opening : Type := {
  open_name : string;
  open_mode : string;
  open_encoding : string
}.

Definition open_request (e : event) : option opening :=
  match e with
  | Ev c _ =>
      match c with
      | open_file file mode encoding =>
          Some {| open_name := file; open_mode := mode;
                  open_encoding := encoding |}
      | _ => None
      end
  end.

(** The file a write goes to. *)
Definition write_target (e : event) : option TextIO :=
  match e with
  | Ev c _ =>
      match c with
      | file_write f _ => Some f
      | _ => None
      end
  end.

(** The file a close is for. *)
Definition close_target (e : event) : option TextIO :=
  match e with
  | Ev c _ =>
      match c with
      | file_close f => Some f
      | _ => None
      end
  end.

(** The lines of the items at [indices], those that can be computed,
    in the order of the indices. *)
Definition schedule_lines (batch : Z) (items : list ImageTrainItem)
  (indices : list Z) : list string :=
  flat_map (fun i =>
              match line_text batch items i with
              | Ok line => [line]
              | Err _ => []
              end) indices.

(** The error messages for the items at [indices] that have no line. *)
Definition schedule_errors (batch : Z) (items : list ImageTrainItem)
  (indices : list Z) : list string :=
  flat_map (fun i =>
              match line_text batch items i, list_getitem items i with
              | Err _, Ok item => [schedule_error (pathname item)]
              | _, _ => []
              end) indices.

(** The exception of a write that failed with one [except Exception]
    does not take. *)
Definition interrupt (e : event) : option exn :=
  if is_write e then
    match failure e with
    | Some x => if is_Exception x then None else Some x
    | None => None
    end
  else None.

(** The first such write of a trace, if there is one: its exception
    and the calls that follow it. *)
Fixpoint after_interrupt (tr : list event) : option (exn * list event) :=
  match tr with
  | [] => None
  | e :: rest =>
      match interrupt e with
      | Some x => Some (x, rest)
      | None => after_interrupt rest
      end
  end.

(** ** The runs of the epoch transition, one by one *)

(** The runs of a loop [for x in xs: body] whose rounds run as [E]:
    round after round until one raises. *)
Inductive loop_runs {A : Type}
  (E : A -> list event -> result unit -> Prop)
  : list A -> list event -> result unit -> Prop :=
| loop_done : loop_runs E [] [] (Ok tt)
| loop_next (x : A) (xs : list A) (t1 t2 : list event) (r : result unit) :
    E x t1 (Ok tt) -> loop_runs E xs t2 r ->
    loop_runs E (x :: xs) (t1 ++ t2) r
| loop_raise (x : A) (xs : list A) (t1 : list event) (e : exn) :
    E x t1 (Err e) -> loop_runs E (x :: xs) t1 (Err e).

(** The runs of one round of the schedule loop, for the item at [i]:
    the line is written; or the write fails with an [Exception] and the
    error is logged; or the write fails with another exception, which
    goes on; or the line cannot be computed and the error is logged. *)
Inductive entry_run (f : TextIO) (self : t) (i : Z)
  : list event -> result unit -> Prop :=
| entry_written (line : string) (n : Z) :
    schedule_line self i = Ok line ->
    entry_run f self i [Ev (file_write f line) (Ok n)] (Ok tt)
| entry_write_failed (line : string) (x : exn) (item : ImageTrainItem)
    (logged : result unit) :
    schedule_line self i = Ok line ->
    is_Exception x = true ->
    list_getitem (image_train_items self) i = Ok item ->
    entry_run f self i
      [Ev (file_write f line) (Err x);
       Ev (logging_error (schedule_error (pathname item))) logged]
      logged
| entry_interrupted (line : string) (x : exn) :
    schedule_line self i = Ok line ->
    is_Exception x = false ->
    entry_run f self i [Ev (file_write f line) (Err x)] (Err x)
| entry_no_line (x : exn) (item : ImageTrainItem) (logged : result unit) :
    schedule_line self i = Err x ->
    list_getitem (image_train_items self) i = Ok item ->
    entry_run f self i
      [Ev (logging_error (schedule_error (pathname item))) logged]
      logged.

(** The runs of [__write_batch_schedule epoch_n]. *)
Inductive schedule_run (self : t) (epoch_n : Z)
  : list event -> result unit -> Prop :=
| schedule_not_opened (x : exn) :
    schedule_run self epoch_n
      [Ev (open_file (schedule_path self epoch_n) "w" "utf-8") (Err x)]
      (Err x)
| schedule_closed (f : TextIO) (middle : list event) (r closed : result unit) :
    loop_runs (entry_run f self)
              (range (List.length (image_train_items self))) middle r ->
    schedule_run self epoch_n
      (Ev (open_file (schedule_path self epoch_n) "w" "utf-8") (Ok f)
         :: middle ++ [Ev (file_close f) closed])
      (match closed with
       | Ok _ => r
       | Err x => Err x
       end).

(** The runs of [shuffle epoch_n max_epochs]: the trace, the outcome
    and the object it leaves. *)
Inductive shuffle_run (self : t) (epoch_n max_epochs : Z)
  : list event -> result unit -> t -> Prop :=
| shuffle_no_fraction (x : exn) :
    dropout_fraction self epoch_n max_epochs = Err x ->
    shuffle_run self epoch_n max_epochs [] (Err x)
      (set_seed (seed self + 1) self)
| shuffle_no_ordering (fraction : float) (x : exn) :
    dropout_fraction self epoch_n max_epochs = Ok fraction ->
    shuffle_run self epoch_n max_epochs
      [Ev (get_shuffled_image_buckets (data_loader self) fraction) (Err x)]
      (Err x)
      (set_seed (seed self + 1) self)
| shuffle_plain (fraction : float) (items : list ImageTrainItem) :
    dropout_fraction self epoch_n max_epochs = Ok fraction ->
    write_schedule self = false ->
    shuffle_run self epoch_n max_epochs
      [Ev (get_shuffled_image_buckets (data_loader self) fraction) (Ok items)]
      (Ok tt)
      (set_image_train_items items (set_seed (seed self + 1) self))
| shuffle_scheduled (fraction : float) (items : list ImageTrainItem)
    (rest : list event) (r : result unit) :
    dropout_fraction self epoch_n max_epochs = Ok fraction ->
    write_schedule self = true ->
    schedule_run (set_image_train_items items (set_seed (seed self + 1) self))
                 (epoch_n + 1) rest r ->
    shuffle_run self epoch_n max_epochs
      (Ev (get_shuffled_image_buckets (data_loader self) fraction) (Ok items)
         :: rest)
      r
      (set_image_train_items items (set_seed (seed self + 1) self)).

(** ** More collaborators, for concrete runs *)

(** A disk whose writes are interrupted from the keyboard. *)
Definition interrupted : script :=
  {| on_buckets := on_buckets calm;
     on_hydrate := on_hydrate calm;
     on_caption := on_caption calm;
     on_shuffled_caption := on_shuffled_caption calm;
     on_tokenize := on_tokenize calm;
     on_random := on_random calm;
     on_open := on_open calm;
     on_write := fun _ => Err KeyboardInterrupt;
     on_close := on_close calm |}.

(** A bucketing collaborator that fails. *)
Definition no_buckets : script :=
  {| on_buckets := fun _ => Err RuntimeError;
     on_hydrate := on_hydrate calm;
     on_caption := on_caption calm;
     on_shuffled_caption := on_shuffled_caption calm;
     on_tokenize := on_tokenize calm;
     on_random := on_random calm;
     on_open := on_open calm;
     on_write := on_write calm;
     on_close := on_close calm |}.

(** A tokenizer that fails. *)
Definition no_tokens : script :=
  {| on_buckets := on_buckets calm;
     on_hydrate := on_hydrate calm;
     on_caption := on_caption calm;
     on_shuffled_caption := on_shuffled_caption calm;
     on_tokenize := fun _ => Err RuntimeError;
     on_random := on_random calm;
     on_open := on_open calm;
     on_write := on_write calm;
     on_close := on_close calm |}.


(** A data loader whose batch size is zero, and arguments over it. *)
Definition empty_batches : DataLoaderMultiAspect.t :=
  {| DataLoaderMultiAspect.batch_size := 0;
     DataLoaderMultiAspect.loader_ref := 1 |}.

Definition zero_batch_args : init_args :=
  {| arg_data_loader := empty_batches;
     arg_debug_level := 0;
     arg_conditional_dropout := PyFloat.zero;
     arg_crop_jitter := 20;
     arg_seed := 555;
     arg_tokenizer := Some clip;
     arg_log_folder := Some "logs";
     arg_retain_contrast := false;
     arg_write_schedule := true;
     arg_shuffle_tags := false;
     arg_rated_dataset := false;
     arg_rated_dataset_dropout_target := PyFloat.half |}.

(** ** Proof automation *)

(** The transforms stay folded while a run is stepped through. *)
#[local] Arguments transforms.ToTensor : simpl never.
#[local] Arguments transforms.Normalize : simpl never.

(** One step of a run: the next answer, or the next test. *)
Ltac answer_step :=
  unfold bind, ret, raise, get, put, lift, perform; cbn;
  match goal with
  | |- forall r : result _, _ => intros [?|?]
  | |- always ?p _ =>
      match p with
      | context [if ?b then _ else _] => destruct b eqn:?
      | context [match ?r with Ok _ => _ | Err _ => _ end] => destruct r eqn:?
      end
  end.

Ltac rewrite_tests :=
  repeat match goal with H : ?b = _ |- context [?b] => rewrite H end.

(** The end of a run: the postcondition on a concrete trace. *)
Ltac leaf :=
  cbn;
  repeat first
    [ reflexivity
    | split; [ solve [ rewrite_tests; reflexivity ] | ]
    | eexists ].

(** The end of one round of the schedule loop. *)
Ltac entry_leaf Hx :=
  split; [ reflexivity | ];
  split;
  [ unfold schedule_trace; split; [ repeat constructor | ];
    split;
    [ repeat constructor; intros text ok; cbn; try discriminate;
      intros [= <- <-]; eauto
    | cbn; rewrite ?Hx; cbn; first [ reflexivity | discriminate ] ]
  | cbn; rewrite ?Hx; cbn; first [ reflexivity | discriminate ] ].

(** Takes a postcondition apart. *)
Ltac open_post :=
  repeat match goal with
  | H : exists _, _ |- _ => destruct H
  | H : _ /\ _ |- _ => destruct H
  | H : match ?x with Ok _ => _ | Err _ => _ end |- _ => destruct x eqn:?
  | H : match ?x with Some _ => _ | None => _ end |- _ => destruct x eqn:?
  | H : if ?b then _ else _ |- _ => destruct b eqn:?
  end.

(** * Proofs *)

(** ** Runs and what always holds *)

Lemma exec_always {W A} (h : handler W) (p : prog A) Q w :
  always p Q -> Q (snd (exec h p w)) (fst (fst (exec h p w))).
Proof.
  revert Q w; induction p as [a | X c k IH]; simpl; intros Q w HQ.
  - exact HQ.
  - apply (IH _ (fun tr a => Q (Ev c (fst (h X c w)) :: tr) a)). apply HQ.
Qed.

Lemma run_always {W S A} (h : handler W) (m : M S A) (s : S) (w : W) Q :
  always (m s) Q ->
  Q (trace (run h m s w)) (outcome (run h m s w), self_after (run h m s w)).
Proof.
  intros HQ. unfold run; cbn [trace outcome self_after].
  rewrite <- surjective_pairing. apply exec_always. exact HQ.
Qed.

Lemma always_weaken {A} (p : prog A) (Q Q' : list event -> A -> Prop) :
  (forall tr a, Q tr a -> Q' tr a) -> always p Q -> always p Q'.
Proof.
  revert Q Q'; induction p as [a | X c k IH]; simpl; intros Q Q' HQ Hp.
  - auto.
  - intros r. eapply IH; [ | apply Hp ]. simpl. intros; auto.
Qed.

Lemma always_bind {A B} (p : prog A) (f : A -> prog B) P Q :
  always p P ->
  (forall tr a, P tr a -> always (f a) (fun tr' b => Q (tr ++ tr') b)) ->
  always (prog_bind p f) Q.
Proof.
  revert P Q; induction p as [a | X c k IH]; simpl; intros P Q Hp Hf.
  - apply (Hf [] a Hp).
  - intros r. eapply IH; [ apply Hp | ]. simpl.
    intros tr a Ht. apply (Hf _ _ Ht).
Qed.

(** Every answer in a run is one the handler gave. *)
Lemma exec_answers {W A} (h : handler W) (P : event -> Prop) (p : prog A) :
  (forall X (c : call X) w, P (Ev c (fst (h X c w)))) ->
  forall w, Forall P (snd (exec h p w)).
Proof.
  intros Hh. induction p as [a | X c k IH]; intros w; cbn.
  - constructor.
  - constructor; [ apply Hh | apply IH ].
Qed.

Lemma collect_app {A} (f : event -> option A) t1 t2 :
  collect f (t1 ++ t2) = collect f t1 ++ collect f t2.
Proof.
  induction t1 as [|e t1 IH]; cbn; [ reflexivity | ].
  destruct (f e); cbn; rewrite IH; reflexivity.
Qed.

Lemma collect_none {A} (f : event -> option A) (P : event -> Prop) tr :
  (forall e, P e -> f e = None) -> Forall P tr -> collect f tr = [].
Proof.
  intros Hf Htr. induction Htr as [|e tr He _ IH]; cbn; [ reflexivity | ].
  rewrite (Hf e He). exact IH.
Qed.

Lemma in_collect {A} (f : event -> option A) tr a :
  In a (collect f tr) -> exists e, In e tr /\ f e = Some a.
Proof.
  induction tr as [|e tr IH]; cbn; [ intros [] | ].
  destruct (f e) as [b|] eqn:Hb.
  - intros [<- | Hin]; [ eauto | ].
    destruct (IH Hin) as (e' & He' & Hf). eauto.
  - intros Hin. destruct (IH Hin) as (e' & He' & Hf). eauto.
Qed.

(** ** Floating-point facts *)

Lemma div_self s m e :
  PyFloat.div (S754_finite s m e) (S754_finite s m e) = PyFloat.one.
Proof.
  unfold PyFloat.div, SFdiv, SFdiv_core_binary.
  replace (Z.min _ _) with (-53).
  2:{ replace (Zdigits2 (Z.pos m) + e - (Zdigits2 (Z.pos m) + e)) with 0 by lia.
      replace (e - e) with 0 by lia. reflexivity. }
  replace (e - e - -53) with 53 by lia.
  assert (Hd : Z.div_eucl (Z.shiftl (Z.pos m) 53) (Z.pos m) = (9007199254740992, 0)).
  { rewrite Z.shiftl_mul_pow2 by lia.
    generalize (Z.div_eucl_eq (Z.pos m * 2 ^ 53) (Z.pos m)).
    generalize (Z.mod_pos_bound (Z.pos m * 2 ^ 53) (Z.pos m)).
    unfold Z.modulo, Z.div. 
    pose proof (Z_div_mult_full (2^53) (Z.pos m)) as Hq.
    pose proof (Z_mod_mult (2^53) (Z.pos m)) as Hr.
    unfold Z.modulo, Z.div in Hq, Hr.
    rewrite (Z.mul_comm (Z.pos m)).
    destruct (Z.div_eucl (2 ^ 53 * Z.pos m) (Z.pos m)) as [q r].
    intros _ _. rewrite Hq, Hr by lia. reflexivity. }
  rewrite Hd.
  unfold new_location. destruct (Z.even (Z.pos m)); cbn -[binary_round_aux];
  rewrite xorb_nilpotent; reflexivity.
Qed.

Lemma digits2_pos_bounds p :
  2 ^ (Z.pos (digits2_pos p) - 1) <= Z.pos p < 2 ^ Z.pos (digits2_pos p).
Proof.
  induction p as [p IH | p IH | ]; cbn [digits2_pos].
  - rewrite Pos2Z.inj_succ. replace (Z.succ (Z.pos (digits2_pos p)) - 1)
      with (Z.succ (Z.pos (digits2_pos p) - 1)) by lia.
    rewrite !Z.pow_succ_r by lia. lia.
  - rewrite Pos2Z.inj_succ. replace (Z.succ (Z.pos (digits2_pos p)) - 1)
      with (Z.succ (Z.pos (digits2_pos p) - 1)) by lia.
    rewrite !Z.pow_succ_r by lia. lia.
  - cbn. lia.
Qed.

Lemma shr_1_m mrs : 0 <= shr_m mrs -> shr_m (shr_1 mrs) = shr_m mrs / 2.
Proof.
  destruct mrs as [m r s]; cbn. intros Hm.
  destruct m as [|[p|p|]|p]; cbn [shr_m shr_1]; try lia.
  - reflexivity.
  - rewrite Pos2Z.inj_xI. apply Z.div_unique with 1; lia.
  - rewrite Pos2Z.inj_xO. apply Z.div_unique with 0; lia.
  - reflexivity.
Qed.

Lemma shr_1_nonneg mrs : 0 <= shr_m mrs -> 0 <= shr_m (shr_1 mrs).
Proof. intros H. rewrite shr_1_m by assumption. apply Z.div_pos; lia. Qed.

Lemma pow2_xI n : 2 ^ Z.pos n~1 = 2 * (2 ^ Z.pos n * 2 ^ Z.pos n).
Proof.
  replace (Z.pos n~1) with (1 + Z.pos n + Z.pos n) by lia.
  rewrite !Z.pow_add_r by lia. rewrite Z.pow_1_r. lia.
Qed.

Lemma pow2_xO n : 2 ^ Z.pos n~0 = 2 ^ Z.pos n * 2 ^ Z.pos n.
Proof.
  replace (Z.pos n~0) with (Z.pos n + Z.pos n) by lia.
  rewrite !Z.pow_add_r by lia. reflexivity.
Qed.

Lemma iter_pos_shr_1_m n : forall mrs,
  0 <= shr_m mrs ->
  shr_m (iter_pos shr_1 n mrs) = shr_m mrs / 2 ^ Z.pos n.
Proof.
  induction n as [n IH | n IH | ]; intros mrs Hm; cbn [iter_pos].
  - assert (H1 : 0 <= shr_m (shr_1 mrs)) by (apply shr_1_nonneg; assumption).
    assert (H2 : 0 <= shr_m (iter_pos shr_1 n (shr_1 mrs))).
    { rewrite IH by assumption. apply Z.div_pos; lia. }
    rewrite IH, IH, shr_1_m by assumption.
    rewrite !Z.div_div by lia. rewrite pow2_xI.
    f_equal; lia.
  - assert (H2 : 0 <= shr_m (iter_pos shr_1 n mrs)).
    { rewrite IH by assumption. apply Z.div_pos; lia. }
    rewrite IH, IH by assumption.
    rewrite !Z.div_div by lia. rewrite pow2_xO. reflexivity.
  - rewrite shr_1_m by assumption. reflexivity.
Qed.

(** The mantissa after [shr]: the quotient by the power of two. *)
Lemma shr_m_spec mrs e n :
  0 <= shr_m mrs ->
  shr_m (fst (shr mrs e n)) = shr_m mrs / 2 ^ Z.max 0 n /\
  snd (shr mrs e n) = e + Z.max 0 n.
Proof.
  intros Hm. destruct n as [|n|n]; cbn [shr fst snd].
  - cbn. rewrite Z.div_1_r. lia.
  - rewrite iter_pos_shr_1_m by assumption.
    replace (Z.max 0 (Z.pos n)) with (Z.pos n) by lia. split; reflexivity.
  - cbn. rewrite Z.div_1_r. lia.
Qed.

Lemma shr_record_of_loc_m m l : shr_m (shr_record_of_loc m l) = m.
Proof. destruct l as [|[]]; reflexivity. Qed.

Lemma round_nearest_even_bounds m l :
  m <= round_nearest_even m l <= m + 1.
Proof.
  unfold round_nearest_even. destruct l as [|[]]; try lia.
  destruct (Z.even m); lia.
Qed.

Lemma Zdigits2_bounds m :
  0 < m -> 2 ^ (Zdigits2 m - 1) <= m < 2 ^ Zdigits2 m.
Proof.
  destruct m as [|p|p]; try lia. intros _. apply digits2_pos_bounds.
Qed.

Lemma Zdigits2_pos m : 0 < m -> 0 < Zdigits2 m.
Proof. destruct m; cbn; lia. Qed.

Lemma Zdigits2_lower m k : 0 <= k -> 2 ^ k <= m -> k < Zdigits2 m.
Proof.
  intros Hk Hm. assert (0 < m) by (pose proof (Z.pow_pos_nonneg 2 k); lia).
  destruct (Zdigits2_bounds m H) as [_ Hu].
  destruct (Z.lt_ge_cases k (Zdigits2 m)); [ assumption | ].
  assert (2 ^ Zdigits2 m <= 2 ^ k) by (apply Z.pow_le_mono_r; lia). lia.
Qed.

Lemma shift_keeps_positive m n :
  0 < m -> n < Zdigits2 m -> 0 < m / 2 ^ Z.max 0 n.
Proof.
  intros Hm Hn. destruct (Zdigits2_bounds m Hm) as [Hl _].
  apply Z.div_str_pos. split; [ apply Z.pow_pos_nonneg; lia | ].
  transitivity (2 ^ (Zdigits2 m - 1)); [ | assumption ].
  apply Z.pow_le_mono_r; [ lia | ]. pose proof (Zdigits2_pos m Hm). lia.
Qed.

Lemma binary_round_aux_positive sx mx ex lx :
  0 < mx -> -1021 <= Zdigits2 mx + ex ->
  exists m e,
    binary_round_aux 53 1024 sx mx ex lx = S754_finite sx m e \/
    binary_round_aux 53 1024 sx mx ex lx = S754_infinity sx.
Proof.
  intros Hm He. unfold binary_round_aux, shr_fexp.
  set (n1 := fexp 53 1024 (Zdigits2 mx + ex) - ex).
  assert (Hn1 : n1 = Zdigits2 mx - 53) by (unfold n1, fexp, emin; lia).
  destruct (shr_m_spec (shr_record_of_loc mx lx) ex n1) as [Hm1 He1];
    [ rewrite shr_record_of_loc_m; lia | ].
  destruct (shr (shr_record_of_loc mx lx) ex n1) as [mrs1 e1].
  cbn [fst snd] in Hm1, He1. rewrite shr_record_of_loc_m in Hm1.
  set (m1 := round_nearest_even (shr_m mrs1) (loc_of_shr_record mrs1)).
  assert (Hpos1 : 0 < shr_m mrs1).
  { rewrite Hm1. apply shift_keeps_positive; lia. }
  assert (Hm1' : 0 < m1).
  { pose proof (round_nearest_even_bounds (shr_m mrs1) (loc_of_shr_record mrs1)).
    unfold m1. lia. }
  assert (Hd1 : Zdigits2 mx + ex <= Zdigits2 m1 + e1).
  { destruct (Z.le_gt_cases n1 0) as [Hle|Hgt].
    - replace (Z.max 0 n1) with 0 in * by lia.
      rewrite Z.pow_0_r, Z.div_1_r in Hm1.
      assert (Zdigits2 mx - 1 < Zdigits2 m1); [ | lia ].
      apply Zdigits2_lower; [ pose proof (Zdigits2_pos mx Hm); lia | ].
      destruct (Zdigits2_bounds mx Hm) as [Hl _].
      pose proof (round_nearest_even_bounds (shr_m mrs1) (loc_of_shr_record mrs1)).
      unfold m1. lia.
    - replace (Z.max 0 n1) with n1 in * by lia.
      assert (52 < Zdigits2 m1); [ | lia ].
      apply Zdigits2_lower; [ lia | ].
      pose proof (round_nearest_even_bounds (shr_m mrs1) (loc_of_shr_record mrs1)).
      assert (2 ^ 52 <= shr_m mrs1); [ | unfold m1; lia ].
      rewrite Hm1. apply Z.div_le_lower_bound; [ apply Z.pow_pos_nonneg; lia | ].
      rewrite <- Z.pow_add_r by lia.
      destruct (Zdigits2_bounds mx Hm) as [Hl _].
      replace (n1 + 52) with (Zdigits2 mx - 1) by lia. assumption. }
  set (n2 := fexp 53 1024 (Zdigits2 m1 + e1) - e1).
  assert (Hn2 : n2 = Zdigits2 m1 - 53) by (unfold n2, fexp, emin; lia).
  destruct (shr_m_spec (shr_record_of_loc m1 loc_Exact) e1 n2) as [Hm2 He2];
    [ rewrite shr_record_of_loc_m; lia | ].
  destruct (shr (shr_record_of_loc m1 loc_Exact) e1 n2) as [mrs2 e2].
  cbn [fst snd] in Hm2, He2. rewrite shr_record_of_loc_m in Hm2.
  assert (Hpos2 : 0 < shr_m mrs2).
  { rewrite Hm2. apply shift_keeps_positive; lia. }
  destruct (shr_m mrs2) as [|m2|m2]; try lia.
  exists m2, e2. destruct (e2 <=? 1024 - 53); auto.
Qed.

Lemma of_int_zero : PyFloat.of_int 0 = Ok PyFloat.zero.
Proof. reflexivity. Qed.

Lemma binary_round_positive sx p :
  exists m e,
    binary_round 53 1024 sx p 0 = S754_finite sx m e \/
    binary_round 53 1024 sx p 0 = S754_infinity sx.
Proof.
  unfold binary_round, shl_align.
  set (e0 := fexp 53 1024 (Z.pos (digits2_pos p) + 0)).
  assert (He0 : -52 <= e0).
  { unfold e0, fexp, emin. pose proof (Pos2Z.is_pos (digits2_pos p)). lia. }
  destruct (e0 - 0) as [|d|d] eqn:Hd.
  - apply binary_round_aux_positive; [ lia | ]. cbn [Zdigits2].
    pose proof (Pos2Z.is_pos (digits2_pos p)). lia.
  - apply binary_round_aux_positive; [ lia | ]. cbn [Zdigits2].
    pose proof (Pos2Z.is_pos (digits2_pos p)). lia.
  - apply binary_round_aux_positive; [ lia | ]. cbn [Zdigits2].
    pose proof (Pos2Z.is_pos (digits2_pos (Pos.iter xO p d))). lia.
Qed.

Lemma of_int_nonzero z x :
  z <> 0 -> PyFloat.of_int z = Ok x -> exists s m e, x = S754_finite s m e.
Proof.
  intros Hz. unfold PyFloat.of_int, binary_normalize.
  destruct z as [|p|p]; [ congruence | | ].
  - destruct (binary_round_positive false p) as (m & e & [H|H]);
      unfold PyFloat.prec, PyFloat.emax; rewrite H; [ | discriminate ].
    intros [= <-]. eauto.
  - destruct (binary_round_positive true p) as (m & e & [H|H]);
      unfold PyFloat.prec, PyFloat.emax; rewrite H; [ | discriminate ].
    intros [= <-]. eauto.
Qed.

(** The fraction of the first epoch. *)
Lemma first_epoch_fraction (target : float) max_epochs fm :
  max_epochs <> 0 -> PyFloat.is_finite target = true ->
  PyFloat.of_int max_epochs = Ok fm ->
  result_bind (PyFloat.mul_int_float 0 target) (fun product =>
  result_bind (PyFloat.sub_int_float max_epochs product) (fun difference =>
  PyFloat.truediv_float_int difference max_epochs)) = Ok PyFloat.one.
Proof.
  intros Hm Ht Hfm.
  destruct (of_int_nonzero _ _ Hm Hfm) as (s & m & e & ->).
  unfold PyFloat.mul_int_float, PyFloat.sub_int_float, PyFloat.truediv_float_int.
  rewrite of_int_zero. cbn [result_bind]. rewrite Hfm. cbn [result_bind PyFloat.is_zero].
  assert (Hsub : PyFloat.sub (S754_finite s m e) (PyFloat.mul PyFloat.zero target)
                 = S754_finite s m e).
  { destruct target; try discriminate; reflexivity. }
  rewrite Hsub. rewrite div_self. reflexivity.
Qed.

Lemma to_int_finite m e :
  PyFloat.to_int (S754_finite false m e) = Ok (scaled_floor (Z.pos m) e).
Proof.
  unfold PyFloat.to_int, scaled_floor. destruct (0 <=? e) eqn:He.
  - rewrite Z.shiftl_mul_pow2 by (apply Z.leb_le; assumption). reflexivity.
  - rewrite Z.shiftr_div_pow2 by (apply Z.leb_gt in He; lia). reflexivity.
Qed.

Lemma Zdigits2_upper m k : 0 < m -> m < 2 ^ k -> Zdigits2 m <= k.
Proof.
  intros Hm Hk. destruct (Zdigits2_bounds m Hm) as [Hl _].
  destruct (Z.le_gt_cases (Zdigits2 m) k); [ assumption | ].
  assert (2 ^ k <= 2 ^ (Zdigits2 m - 1)); [ | lia ].
  apply Z.pow_le_mono_r; lia.
Qed.

Lemma scaled_floor_carry e : scaled_floor (2 ^ 52) (e + 1) = scaled_floor (2 ^ 53) e.
Proof.
  unfold scaled_floor.
  destruct (Z.leb_spec 0 (e + 1)), (Z.leb_spec 0 e); try lia.
  - rewrite Z.pow_add_r by lia. change (2 ^ 53) with (2 ^ 52 * 2 ^ 1). lia.
  - replace e with (-1) by lia. reflexivity.
  - replace (- e) with (1 + - (e + 1)) by lia. rewrite Z.pow_add_r by lia.
    change (2 ^ 53) with (2 ^ 1 * 2 ^ 52).
    rewrite Z.div_mul_cancel_l; [ reflexivity | | lia ].
    apply Z.pow_nonzero; lia.
Qed.

Lemma finish_round m1 e1 :
  2 ^ 52 <= m1 <= 2 ^ 53 -> -1000 <= e1 <= 900 ->
  PyFloat.to_int
    (let '(mrs2, e2) := shr_fexp 53 1024 m1 e1 loc_Exact in
     match shr_m mrs2 with
     | 0 => S754_zero false
     | Z.pos m => if e2 <=? 1024 - 53 then S754_finite false m e2
                  else S754_infinity false
     | Z.neg _ => S754_nan
     end) = Ok (scaled_floor m1 e1).
Proof.
  intros Hm He. unfold shr_fexp.
  assert (Hpos : 0 < m1) by lia.
  assert (Hd : 53 <= Zdigits2 m1 <= 54).
  { split.
    - assert (52 < Zdigits2 m1); [ apply Zdigits2_lower; lia | lia ].
    - apply Zdigits2_upper; lia. }
  set (n2 := fexp 53 1024 (Zdigits2 m1 + e1) - e1).
  assert (Hn2 : n2 = Zdigits2 m1 - 53) by (unfold n2, fexp, emin; lia).
  destruct (shr_m_spec (shr_record_of_loc m1 loc_Exact) e1 n2) as [Hm2 He2];
    [ cbn; lia | ].
  destruct (shr (shr_record_of_loc m1 loc_Exact) e1 n2) as [mrs2 e2].
  cbn [fst snd] in Hm2, He2. cbn [shr_record_of_loc shr_m] in Hm2.
  destruct (Z.eq_dec (Zdigits2 m1) 53) as [H53|H54].
  - replace (Z.max 0 n2) with 0 in * by lia.
    rewrite Z.pow_0_r, Z.div_1_r in Hm2. rewrite Z.add_0_r in He2.
    rewrite Hm2, He2. destruct m1 as [|p|p]; try lia.
    replace (e1 <=? 1024 - 53) with true by (symmetry; apply Z.leb_le; lia).
    apply to_int_finite.
  - replace (Z.max 0 n2) with 1 in * by lia.
    assert (m1 = 2 ^ 53).
    { destruct (Zdigits2_bounds m1 Hpos) as [Hl _].
      replace (Zdigits2 m1 - 1) with 53 in Hl by lia. lia. }
    subst m1. rewrite Hm2, He2. change (2 ^ 53 / 2 ^ 1) with (Z.pos 4503599627370496).
    cbv iota.
    replace (e1 + 1 <=? 1024 - 53) with true by (symmetry; apply Z.leb_le; lia).
    rewrite to_int_finite. f_equal. apply scaled_floor_carry.
Qed.

Lemma loc_of_shr_record_of_loc m l :
  loc_of_shr_record (shr_record_of_loc m l) = l.
Proof. destruct l as [|[]]; reflexivity. Qed.

Lemma round_up_loc m l :
  round_nearest_even m l <> m -> l = loc_Inexact Eq \/ l = loc_Inexact Gt.
Proof. destruct l as [|[]]; cbn; auto; congruence. Qed.

Lemma round_up_shr_1 mrs :
  0 <= shr_m mrs ->
  round_nearest_even (shr_m (shr_1 mrs)) (loc_of_shr_record (shr_1 mrs))
    <> shr_m (shr_1 mrs) ->
  Z.odd (shr_m mrs) = true.
Proof.
  destruct mrs as [m r s]. cbn [shr_m]. intros Hm.
  destruct m as [|[p|p|]|p]; try lia; cbn; try congruence; auto.
  all: destruct (r || s); cbn; congruence.
Qed.

Lemma round_to_int mx ex lx :
  0 < mx -> 53 <= Zdigits2 mx <= 54 -> -1000 <= ex <= 800 ->
  let k := Zdigits2 mx - 53 in
  exists m1,
    PyFloat.to_int (binary_round_aux 53 1024 false mx ex lx)
      = Ok (scaled_floor m1 (ex + k)) /\
    (m1 = mx / 2 ^ k \/ (m1 = mx / 2 ^ k + 1 /\ rounds_up k mx lx)).
Proof.
  intros Hpos Hd He k. unfold binary_round_aux.
  assert (Hn1 : fexp 53 1024 (Zdigits2 mx + ex) - ex = k)
    by (unfold k, fexp, emin; lia).
  unfold shr_fexp at 1. rewrite Hn1.
  destruct (Zdigits2_bounds mx Hpos) as [Hl Hu].
  destruct (Z.eq_dec (Zdigits2 mx) 53) as [H53|H54].
  - replace k with 0 in * by (unfold k; lia). cbn [shr].
    rewrite loc_of_shr_record_of_loc, shr_record_of_loc_m.
    rewrite H53 in Hl, Hu. change (53 - 1) with 52 in Hl.
    pose proof (round_nearest_even_bounds mx lx) as Hr.
    exists (round_nearest_even mx lx). split.
    + rewrite Z.add_0_r. apply finish_round; lia.
    + rewrite Z.pow_0_r, Z.div_1_r.
      destruct (Z.eq_dec (round_nearest_even mx lx) mx) as [Heq|Hne]; [ auto | ].
      right. split; [ lia | ]. left. split; [ reflexivity | ].
      apply (round_up_loc mx); assumption.
  - replace k with 1 in * by (unfold k; lia). cbn [shr iter_pos].
    replace (Zdigits2 mx) with 54 in Hl, Hu by lia. change (54 - 1) with 53 in Hl.
    set (mrs := shr_1 (shr_record_of_loc mx lx)).
    assert (Hm : shr_m mrs = mx / 2).
    { unfold mrs. rewrite shr_1_m; rewrite shr_record_of_loc_m; [ reflexivity | lia ]. }
    pose proof (round_nearest_even_bounds (shr_m mrs) (loc_of_shr_record mrs)) as Hr.
    assert (Hq : 2 ^ 52 <= mx / 2 < 2 ^ 53).
    { split.
      - apply Z.div_le_lower_bound; [ lia | ]. change (2 * 2 ^ 52) with (2 ^ 53). lia.
      - apply Z.div_lt_upper_bound; [ lia | ]. change (2 * 2 ^ 53) with (2 ^ 54). lia. }
    exists (round_nearest_even (shr_m mrs) (loc_of_shr_record mrs)). split.
    + apply finish_round; lia.
    + rewrite Z.pow_1_r. rewrite <- Hm.
      destruct (Z.eq_dec (round_nearest_even (shr_m mrs) (loc_of_shr_record mrs))
                         (shr_m mrs)) as [Heq|Hne]; [ auto | ].
      right. split; [ lia | ]. right. split; [ reflexivity | ].
      pose proof (round_up_shr_1 (shr_record_of_loc mx lx)) as Hodd.
      rewrite shr_record_of_loc_m in Hodd. apply Hodd; [ lia | exact Hne ].
Qed.

Lemma new_location_round_up b r :
  new_location b r = loc_Inexact Eq \/ new_location b r = loc_Inexact Gt ->
  b <= 2 * r.
Proof.
  unfold new_location, new_location_even, new_location_odd.
  destruct (Z.even b); destruct (r =? 0).
  - intros [H|H]; discriminate.
  - destruct (Z.compare_spec (2 * r) b); intros [Hl|Hl]; try discriminate; lia.
  - intros [H|H]; discriminate.
  - destruct (Z.compare_spec (2 * r + 1) b); intros [Hl|Hl]; try discriminate; lia.
Qed.

Lemma floor_of_scaled_quotient i b P :
  0 <= i -> 0 < b -> 0 < P -> i * P / b / P = i / b.
Proof.
  intros Hi Hb HP. rewrite Z.div_div by lia.
  apply Z.div_mul_cancel_r; lia.
Qed.

Lemma floor_after_round_up i b P q r :
  0 <= i -> 0 < b -> b < P ->
  i * P = b * q + r -> 0 <= r < b -> b <= 2 * r ->
  (q + 1) / P = i / b.
Proof.
  intros Hi Hb HP Hq Hr Hup.
  pose proof (Z.div_mod i b ltac:(lia)) as Hdm.
  pose proof (Z.mod_pos_bound i b Hb) as Hm.
  set (n := i / b) in *. set (r0 := i mod b) in *.
  symmetry. apply Z.div_unique with (q + 1 - n * P).
  2: lia.
  left. split.
  - assert (n * P <= q); [ | lia ].
    assert (b * (n * P) <= b * q + r) by nia.
    assert (b * (n * P) < b * (q + 1)) by nia.
    apply Z.mul_lt_mono_pos_l in H0; lia.
  - assert (q + 1 < (n + 1) * P); [ | lia ].
    assert (Hi' : i + 1 <= b * (n + 1)) by lia.
    assert (i * P + P <= b * (n + 1) * P) by nia.
    assert (2 * (b * q) + 3 * b < 2 * (b * ((n + 1) * P))) by nia.
    assert (b * (2 * q + 3) < b * (2 * ((n + 1) * P))) by lia.
    apply Z.mul_lt_mono_pos_l in H1; lia.
Qed.

Lemma floor_after_half_round_up i b P h r :
  0 <= i -> 0 < b -> b < 2 * P -> 0 < P ->
  i * (2 * P) = b * (2 * h + 1) + r -> 0 <= r < b ->
  (h + 1) / P = i / b.
Proof.
  intros Hi Hb HP HP0 Hq Hr.
  pose proof (Z.div_mod i b ltac:(lia)) as Hdm.
  pose proof (Z.mod_pos_bound i b Hb) as Hm.
  set (n := i / b) in *. set (r0 := i mod b) in *.
  symmetry. apply Z.div_unique with (h + 1 - n * P).
  2: lia.
  left. split.
  - assert (n * P <= h); [ | lia ].
    assert (b * (2 * (n * P)) <= b * (2 * h + 1) + r) by nia.
    assert (b * (2 * (n * P)) < b * (2 * h + 2)) by nia.
    apply Z.mul_lt_mono_pos_l in H0; lia.
  - assert (h + 1 < (n + 1) * P); [ | lia ].
    assert (Hi' : i + 1 <= b * (n + 1)) by lia.
    assert (i * (2 * P) + 2 * P <= b * (n + 1) * (2 * P)) by nia.
    assert (b * (2 * h + 1) + b < b * (2 * ((n + 1) * P))) by nia.
    assert (b * (2 * h + 2) < b * (2 * ((n + 1) * P))) by lia.
    apply Z.mul_lt_mono_pos_l in H1; lia.
Qed.

Lemma pow2_split a b : 0 <= a -> 0 <= b -> 2 ^ (a + b) = 2 ^ a * 2 ^ b.
Proof. intros. apply Z.pow_add_r; assumption. Qed.

Lemma div_round_floor (pi pb : positive) :
  Z.pos pi < 2 ^ 53 -> Z.pos pb < 2 ^ 53 ->
  PyFloat.to_int (PyFloat.div (S754_finite false pi 0) (S754_finite false pb 0))
    = Ok (Z.pos pi / Z.pos pb).
Proof.
  intros Hi Hb. set (i := Z.pos pi) in *. set (b := Z.pos pb) in *.
  assert (Hi0 : 0 < i) by (unfold i; lia).
  assert (Hb0 : 0 < b) by (unfold b; lia).
  unfold PyFloat.div, SFdiv, SFdiv_core_binary. fold i b.
  pose proof (Zdigits2_bounds i Hi0) as [Hil Hiu].
  pose proof (Zdigits2_bounds b Hb0) as [Hbl Hbu].
  pose proof (Zdigits2_upper i 53 Hi0 Hi) as Hd1.
  pose proof (Zdigits2_upper b 53 Hb0 Hb) as Hd2.
  pose proof (Zdigits2_pos i Hi0) as Hd1'.
  pose proof (Zdigits2_pos b Hb0) as Hd2'.
  set (d1 := Zdigits2 i) in *. set (d2 := Zdigits2 b) in *.
  set (s := 53 + d2 - d1).
  replace (Z.min (fexp PyFloat.prec PyFloat.emax (d1 + 0 - (d2 + 0))) (0 - 0))
    with (- s) by (unfold fexp, emin, PyFloat.prec, PyFloat.emax, s; lia).
  replace (0 - 0 - - s) with s by lia.
  assert (Hs : 1 <= s) by (unfold s; lia).
  destruct s as [|ps|ps] eqn:Hps; try lia. rewrite <- Hps in *. clear Hps ps.
  rewrite Z.shiftl_mul_pow2 by lia.
  set (P := 2 ^ s).
  assert (HP : 0 < P) by (apply Z.pow_pos_nonneg; lia).
  (* the powers of two that bound the operands *)
  set (A := 2 ^ (d1 - 1)) in *. set (B := 2 ^ (d2 - 1)) in *.
  assert (HA : 0 < A) by (apply Z.pow_pos_nonneg; lia).
  assert (HB : 0 < B) by (apply Z.pow_pos_nonneg; lia).
  assert (HiA : i < 2 * A).
  { unfold A. replace d1 with (1 + (d1 - 1)) in Hiu by lia.
    rewrite pow2_split in Hiu by lia. exact Hiu. }
  assert (HbB : b < 2 * B).
  { unfold B. replace d2 with (1 + (d2 - 1)) in Hbu by lia.
    rewrite pow2_split in Hbu by lia. exact Hbu. }
  assert (HAP : A * P = 2 ^ 53 * B).
  { unfold A, P, B. rewrite <- !pow2_split by lia. f_equal. unfold s. lia. }
  assert (HA52 : A <= 2 ^ 52).
  { unfold A. apply Z.pow_le_mono_r; lia. }
  assert (HbP : b < P) by nia.
  pose proof (Z_div_mod (i * P) b ltac:(lia)) as Hdiv.
  destruct (Z.div_eucl (i * P) b) as [q r]. destruct Hdiv as [Hqr Hr].
  assert (Hq : 2 ^ 52 <= q < 2 ^ 54) by nia.
  assert (Hq0 : 0 < q) by lia.
  assert (Hdq : 53 <= Zdigits2 q <= 54).
  { split.
    - assert (52 < Zdigits2 q); [ apply Zdigits2_lower; lia | lia ].
    - apply Zdigits2_upper; lia. }
  cbn [xorb].
  destruct (round_to_int q (- s) (new_location b r) Hq0 Hdq ltac:(unfold s; lia))
    as (m1 & Hto & Hm1).
  unfold PyFloat.prec, PyFloat.emax. rewrite Hto. f_equal.
  destruct (Z.eq_dec (Zdigits2 q) 53) as [H53|H54].
  - (* the quotient has 53 bits: no shift before rounding *)
    rewrite H53 in *. change (53 - 53) with 0 in *.
    rewrite Z.pow_0_r, Z.div_1_r in Hm1. rewrite Z.add_0_r.
    unfold scaled_floor.
    replace (0 <=? - s) with false by (symmetry; apply Z.leb_gt; lia).
    rewrite Z.opp_involutive. fold P.
    assert (Hfloor : q / P = i / b).
    { replace q with (i * P / b); [ apply floor_of_scaled_quotient; lia | ].
      symmetry. apply Z.div_unique with r; [ lia | lia ]. }
    destruct Hm1 as [-> | [-> [(_ & Hloc) | (Hk & _)]]]; [ exact Hfloor | | lia ].
    apply new_location_round_up in Hloc.
    apply floor_after_round_up with r; lia.
  - (* the quotient has 54 bits: one bit is shifted out before rounding *)
    assert (Hd54 : Zdigits2 q = 54) by lia.
    assert (Hq53 : 2 ^ 53 <= q).
    { pose proof (Zdigits2_bounds q Hq0) as [Hl _].
      rewrite Hd54 in Hl. exact Hl. }
    rewrite Hd54 in Hm1 |- *. change (54 - 53) with 1 in *.
    rewrite Z.pow_1_r in Hm1.
    pose proof (Z.div_mod q 2 ltac:(lia)) as Hq2.
    pose proof (Z.mod_pos_bound q 2 ltac:(lia)) as Hq2r.
    destruct (Z.eq_dec s 1) as [Hs1|Hs1].
    + (* the divisor is 1 *)
      assert (HP2 : P = 2) by (unfold P; rewrite Hs1; reflexivity).
      assert (Hb1 : b = 1) by nia.
      assert (Hq2i : q = 2 * i) by nia.
      replace (- s + 1) with 0 by lia. unfold scaled_floor. cbn [Z.leb Z.compare].
      rewrite Z.pow_0_r, Z.mul_1_r. rewrite Hb1, Z.div_1_r.
      destruct Hm1 as [-> | [-> [(Hk & _) | (_ & Hodd)]]]; try lia.
      rewrite Hq2i, Z.odd_mul in Hodd. discriminate.
    + unfold scaled_floor.
      replace (0 <=? - s + 1) with false by (symmetry; apply Z.leb_gt; lia).
      replace (- (- s + 1)) with (s - 1) by lia.
      set (P' := 2 ^ (s - 1)).
      assert (HP' : P = 2 * P').
      { unfold P, P'. replace s with (1 + (s - 1)) at 1 by lia.
        rewrite pow2_split by lia. reflexivity. }
      assert (HP'0 : 0 < P') by (apply Z.pow_pos_nonneg; lia).
      destruct Hm1 as [-> | [-> [(Hk & _) | (_ & Hodd)]]]; try lia.
      * rewrite Z.div_div by lia. rewrite <- HP'.
        replace q with (i * P / b); [ apply floor_of_scaled_quotient; lia | ].
        symmetry. apply Z.div_unique with r; [ lia | lia ].
      * assert (Hmod : q mod 2 = 1).
        { rewrite Zmod_odd, Hodd. reflexivity. }
        apply floor_after_half_round_up with r; lia.
Qed.


(** [int(i / batch)] is the floor quotient for a positive batch size
    and operands below [2^53]. *)
Lemma schedule_step_floor batch i :
  0 <= i < 2 ^ 53 -> 0 < batch < 2 ^ 53 ->
  schedule_step batch i = Ok (i / batch).
Proof.
  intros Hi Hb. unfold schedule_step, PyFloat.truediv_int_int.
  replace (batch =? 0) with false by (symmetry; apply Z.eqb_neq; lia).
  destruct (Z.eqb_spec i 0) as [-> | Hi0].
  - cbn. reflexivity.
  - replace (i <? 0) with false by (symmetry; apply Z.ltb_ge; lia).
    replace (batch <? 0) with false by (symmetry; apply Z.ltb_ge; lia).
    destruct i as [|pi|pi]; try lia. destruct batch as [|pb|pb]; try lia.
    cbn [Z.abs Z.to_pos].
    pose proof (div_round_floor pi pb ltac:(lia) ltac:(lia)) as Hto.
    destruct (PyFloat.div _ _) eqn:Hdiv; cbn [result_bind];
      try exact Hto; discriminate.
Qed.

(** [x < y] excludes [y < x]. *)
Lemma ltb_asymmetric x y : SFltb x y = true -> SFltb y x = false.
Proof.
  unfold SFltb, SFcompare.
  destruct x as [sx|sx| |sx mx ex], y as [sy|sy| |sy my ey];
    try discriminate; try reflexivity;
    try (destruct sx; discriminate || reflexivity);
    try (destruct sy; discriminate || reflexivity);
    try (destruct sx, sy; discriminate || reflexivity).
  change (Pos.compare_cont Eq mx my) with (Pos.compare mx my).
  change (Pos.compare_cont Eq my mx) with (Pos.compare my mx).
  rewrite (Z.compare_antisym ex ey), (Pos.compare_antisym mx my).
  destruct sx, sy; try discriminate; try reflexivity;
    destruct (ex ?= ey); cbn; try discriminate; try reflexivity;
    destruct (mx ?= my)%positive; cbn; try discriminate; reflexivity.
Qed.

(** A draw of the unit interval that is not above zero is a zero. *)
Lemma unit_interval_not_above_zero x :
  unit_interval x = true ->
  PyFloat.gtb x PyFloat.zero = negb (PyFloat.is_zero x).
Proof.
  unfold unit_interval. intros H. apply andb_prop in H as [Hle _].
  unfold PyFloat.gtb, PyFloat.leb, PyFloat.zero in *.
  destruct x as [s|s| |s m e]; try destruct s;
    try reflexivity; discriminate Hle.
Qed.

(** ** Rendering facts *)

Lemma length_append (a b : string) :
  String.length (a +++ b) = (String.length a + String.length b)%nat.
Proof. induction a as [|c a IH]; cbn; [ reflexivity | rewrite IH; reflexivity ]. Qed.

Lemma length_zeros n : String.length (zeros n) = n.
Proof. induction n as [|n IH]; cbn; [ reflexivity | rewrite IH; reflexivity ]. Qed.

Lemma format_05_nonneg n :
  0 <= n ->
  format_05 n = zeros (5 - String.length (str_int n)) +++ str_int n.
Proof.
  intros Hn. unfold format_05.
  replace (n <? 0) with false by (symmetry; apply Z.ltb_ge; lia).
  rewrite Z.abs_eq by lia. cbn [String.append String.length].
  rewrite Nat.sub_0_r. reflexivity.
Qed.

Lemma format_05_length n :
  0 <= n ->
  String.length (format_05 n) = Nat.max 5 (String.length (str_int n)).
Proof.
  intros Hn. rewrite format_05_nonneg by assumption.
  rewrite length_append, length_zeros. lia.
Qed.

Lemma uint_of_zeros k s :
  NilEmpty.uint_of_string (zeros k +++ s)
  = option_map (Nat.iter k Decimal.D0) (NilEmpty.uint_of_string s).
Proof.
  induction k as [|k IH]; cbn.
  - destruct (NilEmpty.uint_of_string s); reflexivity.
  - rewrite IH. destruct (NilEmpty.uint_of_string s); reflexivity.
Qed.

Lemma of_uint_zeros k d :
  Z.of_uint (Nat.iter k Decimal.D0 d) = Z.of_uint d.
Proof.
  induction k as [|k IH]; cbn; [ reflexivity | ].
  rewrite <- IH. reflexivity.
Qed.

Lemma int_of_digits s u :
  NilEmpty.uint_of_string s = Some u -> s <> "" ->
  NilZero.int_of_string s = Some (Decimal.Pos u).
Proof.
  destruct s as [|c rest]; [ congruence | ]. intros Hu _.
  unfold NilZero.int_of_string.
  destruct (Ascii.eqb_spec c "-") as [-> | Hc].
  - cbn in Hu. destruct (NilEmpty.uint_of_string rest); discriminate.
  - unfold NilZero.uint_of_string. rewrite Hu. reflexivity.
Qed.

Lemma to_int_nonneg n :
  0 <= n ->
  exists d, Z.to_int n = Decimal.Pos d /\ d <> Decimal.Nil /\ Z.of_uint d = n.
Proof.
  intros Hn. destruct n as [|p|p]; try lia.
  - exists (Decimal.D0 Decimal.Nil). repeat split. discriminate.
  - exists (Pos.to_uint p). repeat split.
    + apply DecimalPos.Unsigned.to_uint_nonnil.
    + exact (DecimalZ.of_to (Z.pos p)).
Qed.

(** Reading the formatted step back gives the step. *)
Lemma int_of_format_05 n : 0 <= n -> int_of_str (format_05 n) = Some n.
Proof.
  intros Hn.
  assert (Hlen : (5 <= String.length (format_05 n))%nat)
    by (rewrite format_05_length by assumption; lia).
  rewrite format_05_nonneg in * by assumption.
  unfold int_of_str, str_int in *.
  destruct (to_int_nonneg n Hn) as (d & Hd & Hnil & Hval). rewrite Hd in *.
  cbn [NilZero.string_of_int] in *. unfold NilZero.string_of_uint in *.
  assert (Hs : match d with Decimal.Nil => "0" | _ => NilEmpty.string_of_uint d end
               = NilEmpty.string_of_uint d) by (destruct d; congruence).
  rewrite Hs in *. clear Hs.
  rewrite (int_of_digits _ (Nat.iter (5 - String.length (NilEmpty.string_of_uint d))
                                     Decimal.D0 d)).
  - cbn [option_map Z.of_int]. rewrite of_uint_zeros. f_equal. exact Hval.
  - rewrite uint_of_zeros, NilEmpty.usu. reflexivity.
  - intros Hempty. rewrite Hempty in Hlen. cbn in Hlen. lia.
Qed.

Lemma short_from_spec n : forall start k,
  short_from start n = true -> start <= k < start + Z.of_nat n ->
  (String.length (str_int k) <= 5)%nat.
Proof.
  induction n as [|n IH]; intros start k Hs Hk; [ lia | ].
  cbn [short_from] in Hs. apply andb_prop in Hs as [H0 Hrest].
  destruct (Z.eq_dec k start) as [-> | Hne].
  - apply Nat.leb_le. exact H0.
  - apply (IH (start + 1)); [ exact Hrest | lia ].
Qed.

Lemma short_blocks_spec blocks : forall start k,
  short_blocks start blocks = true ->
  start <= k < start + 1000 * Z.of_nat blocks ->
  (String.length (str_int k) <= 5)%nat.
Proof.
  induction blocks as [|blocks IH]; intros start k Hs Hk; [ lia | ].
  cbn [short_blocks] in Hs. apply andb_prop in Hs as [H0 Hrest].
  destruct (Z.lt_ge_cases k (start + 1000)) as [Hlt|Hge].
  - apply (short_from_spec 1000 start k H0). lia.
  - apply (IH (start + 1000)); [ exact Hrest | lia ].
Qed.

Lemma short_below_100000 : short_blocks 0 100 = true.
Proof. vm_compute. reflexivity. Qed.

(** A step below 100000 is rendered with exactly five characters. *)
Lemma format_05_five n :
  0 <= n < 100000 -> String.length (format_05 n) = 5%nat.
Proof.
  intros Hn. rewrite format_05_length by lia.
  pose proof (short_blocks_spec 100 0 n short_below_100000 ltac:(lia)) as Hs.
  lia.
Qed.

(** ** The samples of an 8-bit image *)

(** With mean 0 and deviation 1 the normalization returns the scaled
    sample itself. *)
Lemma affine_identity b :
  transforms.affine PyFloat.zero PyFloat.one (transforms.scale_sample b)
  = transforms.scale_sample b.
Proof. destruct b; vm_compute; reflexivity. Qed.

(** With mean 0.5 and deviation 0.5 a sample lands in [-1, 1]. *)
Lemma affine_half_range b :
  Float32.leb Float32.minus_one
    (transforms.affine PyFloat.half PyFloat.half (transforms.scale_sample b))
  = true /\
  Float32.leb
    (transforms.affine PyFloat.half PyFloat.half (transforms.scale_sample b))
    Float32.one
  = true.
Proof. destruct b; vm_compute; split; reflexivity. Qed.

(** ** Indexing and the pure parts of the schedule *)

Lemma list_getitem_range {A} (l : list A) (i : Z) :
  0 <= i < Z.of_nat (List.length l) ->
  exists x, list_getitem l i = Ok x /\ nth_error l (Z.to_nat i) = Some x.
Proof.
  intros Hi. unfold list_getitem.
  replace (i <? 0) with false by (symmetry; apply Z.ltb_ge; lia).
  replace (0 <=? i) with true by (symmetry; apply Z.leb_le; lia).
  replace (i <? Z.of_nat (List.length l)) with true
    by (symmetry; apply Z.ltb_lt; lia).
  cbn. destruct (nth_error l (Z.to_nat i)) as [x|] eqn:Hn.
  - exists x; auto.
  - apply nth_error_None in Hn. lia.
Qed.

Lemma list_getitem_error {A} (l : list A) (i : Z) x :
  list_getitem l i = Err x -> x = IndexError.
Proof.
  unfold list_getitem.
  destruct (_ && _); [ destruct (nth_error _ _) | ]; congruence.
Qed.

Lemma truediv_int_int_error a b x :
  PyFloat.truediv_int_int a b = Err x -> is_Exception x = true.
Proof.
  unfold PyFloat.truediv_int_int.
  destruct (b =? 0); [ intros [= <-]; reflexivity | ].
  destruct (a =? 0); [ discriminate | ].
  destruct (PyFloat.div _ _); intros [= <-]; reflexivity.
Qed.

Lemma to_int_error q x : PyFloat.to_int q = Err x -> is_Exception x = true.
Proof. destruct q; cbn; intros [= <-]; reflexivity. Qed.

Lemma schedule_line_error self i x :
  schedule_line self i = Err x -> is_Exception x = true.
Proof.
  unfold schedule_line, line_text, schedule_step.
  destruct (PyFloat.truediv_int_int _ _) as [q|y] eqn:Hq; cbn [result_bind];
    [ | intros [= <-]; eauto using truediv_int_int_error ].
  destruct (PyFloat.to_int q) as [step|y] eqn:Hs; cbn [result_bind];
    [ | intros [= <-]; eauto using to_int_error ].
  destruct (list_getitem _ _) as [item|y] eqn:Hi; cbn [result_bind];
    [ discriminate
    | intros [= <-]; apply list_getitem_error in Hi; subst; reflexivity ].
Qed.

(** The line of an item in range, for a positive batch size. *)
Lemma line_text_in_range batch items i :
  0 < batch < 2 ^ 53 ->
  0 <= i < Z.of_nat (List.length items) ->
  Z.of_nat (List.length items) <= 2 ^ 53 ->
  exists item,
    list_getitem items i = Ok item /\
    line_text batch items i
    = Ok ("step:" +++ format_05 (i / batch)
          +++ ", wh:" +++ py_str (target_wh item)
          +++ ", r:" +++ str_int (runt_size item)
          +++ ", path:" +++ pathname item +++ newline).
Proof.
  intros Hb Hi Hn. destruct (list_getitem_range items i Hi) as (item & Hitem & _).
  exists item. split; [ exact Hitem | ].
  unfold line_text. rewrite schedule_step_floor by lia.
  rewrite Hitem. reflexivity.
Qed.

(** ** Traces of the schedule writer *)

Lemma failures_logged_app t1 t2 :
  failures_logged t1 = true -> failures_logged (t1 ++ t2) = failures_logged t2.
Proof.
  induction t1 as [|e t1 IH]; cbn; [ reflexivity | ].
  destruct (write_attempt e) as [[text [|]]|]; auto.
  destruct t1 as [|next t1]; [ discriminate | ].
  cbn [app]. destruct (error_logged next); [ exact IH | discriminate ].
Qed.

Lemma schedule_trace_nil self : schedule_trace self [].
Proof. repeat split; constructor. Qed.

Lemma schedule_trace_app self t1 t2 :
  schedule_trace self t1 -> schedule_trace self t2 ->
  schedule_trace self (t1 ++ t2).
Proof.
  intros (C1 & L1 & F1) (C2 & L2 & F2). repeat split.
  - apply Forall_app; auto.
  - apply Forall_app; auto.
  - rewrite forallb_app. intros [B1 B2]%andb_prop.
    rewrite failures_logged_app; auto.
Qed.

Lemma schedule_trace_cons self e tr :
  schedule_call e = true -> is_write e = false ->
  schedule_trace self tr -> schedule_trace self (e :: tr).
Proof.
  intros Hc Hw Ht. apply (schedule_trace_app self [e] tr); [ | assumption ].
  repeat split; repeat constructor; auto.
  - intros text ok. destruct e as [X c r]; destruct c; cbn in *; discriminate.
  - intros _. destruct e as [X c r]; destruct c; cbn in *;
      try discriminate; reflexivity.
Qed.

Lemma in_range_from n : forall start i,
  In i (range_from start n) -> start <= i < start + Z.of_nat n.
Proof.
  induction n as [|n IH]; intros start i; cbn [range_from].
  - intros [].
  - intros [<- | Hin]; [ lia | ]. apply IH in Hin. lia.
Qed.

Lemma in_range n i : In i (range n) -> 0 <= i < Z.of_nat n.
Proof. intros Hin. apply in_range_from in Hin. lia. Qed.

(** ** The methods, on every run *)

Lemma entry_always f i self :
  0 <= i < Z.of_nat (List.length (image_train_items self)) ->
  always (write_schedule_entry f i self) (fun tr rs =>
    snd rs = self /\ schedule_trace self tr /\
    (forallb benign tr = true -> fst rs = Ok tt)).
Proof.
  intros Hi. destruct (list_getitem_range _ _ Hi) as (item & Hitem & _).
  unfold write_schedule_entry, try_except_Exception.
  unfold bind, ret, raise, get, put, lift, perform; cbn.
  destruct (schedule_line self i) as [line|x] eqn:Hline; cbn.
  - intros [n|x]; cbn.
    + entry_leaf Hline.
    + destruct (is_Exception x) eqn:Hx; cbn.
      * rewrite Hitem; cbn. intros [[]|y]; cbn; entry_leaf Hx.
      * entry_leaf Hx.
  - rewrite (schedule_line_error _ _ _ Hline). cbn. rewrite Hitem; cbn.
    intros [[]|y]; cbn; entry_leaf Hline.
Qed.

Lemma for_each_entries f self (xs : list Z) :
  (forall i, In i xs ->
             0 <= i < Z.of_nat (List.length (image_train_items self))) ->
  always (for_each xs (write_schedule_entry f) self) (fun tr rs =>
    snd rs = self /\ schedule_trace self tr /\
    (forallb benign tr = true -> fst rs = Ok tt)).
Proof.
  induction xs as [|i xs IH]; intros Hxs.
  - cbn. repeat split; constructor.
  - cbn [for_each]. unfold bind at 1.
    eapply always_bind; [ apply entry_always; apply Hxs; left; reflexivity | ].
    cbn beta. intros t1 [r1 s1] (Hs & Ht & Hok). cbn in Hs, Hok |- *. subst s1.
    destruct r1 as [[]|x].
    + eapply always_weaken; [ | apply IH; intros; apply Hxs; right; assumption ].
      cbn beta. intros t2 rs (Hs2 & Ht2 & Hok2).
      split; [ assumption | ]. split; [ apply schedule_trace_app; assumption | ].
      rewrite forallb_app. intros [B1 B2]%andb_prop. auto.
    + cbn. rewrite app_nil_r. split; [ reflexivity | ]. split; [ assumption | ].
      assumption.
Qed.

Lemma write_batch_schedule_always epoch_n self :
  always (__write_batch_schedule epoch_n self) (fun tr rs =>
    snd rs = self /\ schedule_trace self tr /\
    (forallb benign tr = true -> fst rs = Ok tt)).
Proof.
  unfold __write_batch_schedule, with_open.
  unfold bind at 1 2. unfold get at 1, perform. cbn.
  intros [f|x]; cbn.
  - eapply always_bind; [ apply for_each_entries; intros i; apply in_range | ].
    cbn beta. intros t1 [r1 s1] (Hs & Ht & Hok). cbn in Hs, Hok |- *. subst s1.
    intros closed.
    assert (Htr : schedule_trace self
              (Ev (open_file (schedule_path self epoch_n) "w" "utf-8") (Ok f)
                 :: t1 ++ [Ev (file_close f) closed])).
    { apply schedule_trace_cons; try reflexivity.
      apply schedule_trace_app; [ assumption | ].
      apply schedule_trace_cons; try reflexivity. apply schedule_trace_nil. }
    destruct closed as [[]|x]; cbn.
    + split; [ reflexivity | ]. split; [ exact Htr | ].
      rewrite forallb_app. intros [B1 B2]%andb_prop. auto.
    + split; [ reflexivity | ]. split; [ exact Htr | ].
      rewrite forallb_app. cbn. rewrite andb_false_r. discriminate.
  - split; [ reflexivity | ]. split; [ | discriminate ].
    apply schedule_trace_cons; try reflexivity. apply schedule_trace_nil.
Qed.

Lemma shuffle_always self epoch_n max_epochs :
  always (shuffle epoch_n max_epochs self)
         (shuffle_post self epoch_n max_epochs).
Proof.
  unfold shuffle, shuffle_post.
  unfold bind, ret, raise, get, put, lift, perform; cbn.
  change (dropout_fraction (set_seed (seed self + 1) self) epoch_n max_epochs)
    with (dropout_fraction self epoch_n max_epochs).
  destruct (dropout_fraction self epoch_n max_epochs) as [fraction|x]; cbn;
    [ | split; reflexivity ].
  intros [items|x]; cbn.
  - destruct (write_schedule self).
    + eapply always_weaken; [ | apply write_batch_schedule_always ].
      cbn beta. intros tr rs (Hs & Ht & Hok).
      eexists _, _. split; [ reflexivity | ]. cbn. auto.
    + cbn. eexists _, _. split; [ reflexivity | ]. cbn. auto.
  - eexists _, _. split; [ reflexivity | ]. cbn. auto.
Qed.

Lemma torch_tensor_ok ids tokens :
  torch_tensor ids = Ok tokens -> tokens = ids.
Proof. unfold torch_tensor. destruct (forallb _ _); congruence. Qed.

Lemma getitem_always self i :
  always (__getitem__ i self) (getitem_post self i).
Proof.
  unfold getitem_post, __getitem__, __get_image_for_trainer, caption_call,
    tokenize_call.
  cbn.
  destruct (list_getitem (image_train_items self) i) as [item|x]; [ | leaf ].
  repeat answer_step;
    try match goal with
        | H : torch_tensor _ = Ok _ |- _ =>
            pose proof (torch_tensor_ok _ _ H); subst
        end;
    leaf;
    match goal with
    | H : torch_tensor _ = _ |- _ => cbn beta iota; rewrite H; reflexivity
    end.
Qed.

Lemma init_report_always self :
  always (init_report self) (fun tr rs =>
    snd rs = self /\
    let n := Z.of_nat (List.length (image_train_items self)) in
    match PyFloat.truediv_int_int n (batch_size self) with
    | Err x => tr = [] /\ fst rs = Err x
    | Ok ratio =>
        exists logged rest,
          tr = Ev (logging_info (trainer_set_message ratio n (batch_size self)))
                  logged :: rest /\
          match logged with
          | Err x => rest = [] /\ fst rs = Err x
          | Ok _ =>
              if write_schedule self
              then schedule_trace self rest /\
                   (forallb benign rest = true -> fst rs = Ok tt)
              else rest = [] /\ fst rs = Ok tt
          end
    end).
Proof.
  unfold init_report.
  unfold bind, ret, raise, get, put, lift, perform; cbn.
  destruct (PyFloat.truediv_int_int _ _) as [ratio|x]; cbn; [ | auto ].
  intros [[]|x]; cbn.
  - destruct (write_schedule self).
    + eapply always_weaken; [ | apply write_batch_schedule_always ].
      cbn beta. intros tr rs (Hs & Ht & Hok).
      split; [ assumption | ]. eexists _, _. split; [ reflexivity | ].
      cbn. auto.
    + cbn. split; [ reflexivity | ]. eexists _, _. split; [ reflexivity | ].
      cbn. auto.
  - split; [ reflexivity | ]. eexists _, _. split; [ reflexivity | ]. cbn. auto.
Qed.

Lemma init_always a : always (__init__ a) (init_post a).
Proof.
  unfold __init__, init_post.
  destruct (arg_tokenizer a) as [tok|]; cbn [always]; [ | auto ].
  intros [items|x]; cbn [always].
  - eapply always_bind; [ apply init_report_always | ].
    cbn beta. intros tr [r s] [Hs Hpost]. cbn [fst snd] in *. subst s.
    cbn zeta in Hpost.
    change (image_train_items (new_instance a tok items)) with items in Hpost.
    change (write_schedule (new_instance a tok items))
      with (arg_write_schedule a) in Hpost.
    destruct r as [[]|y]; cbn [always]; rewrite app_nil_r;
      (eexists _, _; split; [ reflexivity | ]); cbn beta iota zeta;
      change (write_schedule (new_instance a tok items))
        with (arg_write_schedule a);
      (destruct (PyFloat.truediv_int_int _ _) as [ratio|x];
       [ destruct Hpost as (logged & rest & -> & Hpost);
         eexists _, _; (split; [ reflexivity | ]);
         destruct logged as [[]|x]; cbn beta iota;
         [ destruct (arg_write_schedule a);
           [ destruct Hpost as (Ht & Hok); split; [ exact Ht | ]; split;
             [ eauto | intros Hb; specialize (Hok Hb); congruence ]
           | destruct Hpost as (-> & Hr); split; congruence ]
         | destruct Hpost as (-> & Hr); split; congruence ]
       | destruct Hpost as (-> & Hr); split; congruence ]).
  - eexists _, _. split; [ reflexivity | ]. cbn. auto.
Qed.

(** ** The ordering in force *)

Lemma last_returned_app t1 t2 :
  last_returned (t1 ++ t2)
  = match last_returned t2 with
    | Some items => Some items
    | None => last_returned t1
    end.
Proof.
  induction t1 as [|e t1 IH]; cbn [app last_returned].
  - destruct (last_returned t2); reflexivity.
  - rewrite IH. destruct (last_returned t2); reflexivity.
Qed.

Lemma last_returned_none tr :
  Forall (fun e => bucket_answer e = None) tr -> last_returned tr = None.
Proof.
  induction 1 as [|e tr He _ IH]; cbn [last_returned]; [ reflexivity | ].
  rewrite IH, He. reflexivity.
Qed.

Lemma latest_app t1 t2 before :
  latest (t1 ++ t2) before = latest t2 (latest t1 before).
Proof.
  unfold latest. rewrite last_returned_app.
  destruct (last_returned t2); reflexivity.
Qed.

Lemma schedule_call_no_answer e :
  schedule_call e = true -> bucket_answer e = None.
Proof. destruct e as [X c r]; destruct c; cbn; congruence. Qed.

Lemma sample_call_no_answer e :
  is_sample_call e = true -> bucket_answer e = None.
Proof. destruct e as [X c r]; destruct c; cbn; congruence. Qed.

Lemma sample_call_no_write e :
  is_sample_call e = true -> write_attempt e = None.
Proof. destruct e as [X c r]; destruct c; cbn; congruence. Qed.

Lemma schedule_trace_no_answer self tr :
  schedule_trace self tr -> last_returned tr = None.
Proof.
  intros (Hc & _ & _). apply last_returned_none.
  eapply Forall_impl; [ | exact Hc ]. apply schedule_call_no_answer.
Qed.

Lemma sample_trace_no_answer tr :
  Forall (fun e => is_sample_call e = true) tr -> last_returned tr = None.
Proof.
  intros Hc. apply last_returned_none.
  eapply Forall_impl; [ | exact Hc ]. apply sample_call_no_answer.
Qed.

Lemma schedule_trace_batch_lines self tr :
  schedule_trace self tr -> Forall (batch_line (batch_size self)) tr.
Proof.
  intros (_ & Hl & _). eapply Forall_impl; [ | exact Hl ].
  intros e He text ok Hw. destruct (He text ok Hw) as (i & _ & Hline).
  exists (image_train_items self), i. exact Hline.
Qed.

Lemma sample_trace_batch_lines batch tr :
  Forall (fun e => is_sample_call e = true) tr -> Forall (batch_line batch) tr.
Proof.
  intros Hc. eapply Forall_impl; [ | exact Hc ].
  intros e He text ok Hw. rewrite (sample_call_no_write e He) in Hw.
  discriminate.
Qed.

(** ** Assignments to the object *)

Lemma set_items_same self :
  set_image_train_items (image_train_items self) self = self.
Proof. destruct self; reflexivity. Qed.

Lemma set_seed_same self : set_seed (seed self) self = self.
Proof. destruct self; reflexivity. Qed.

Lemma set_items_set_seed items v self :
  set_image_train_items items (set_seed v self)
  = set_seed v (set_image_train_items items self).
Proof. reflexivity. Qed.

(** ** Samples *)

Lemma getitem_sample_calls self i tr rs :
  getitem_post self i tr rs -> Forall (fun e => is_sample_call e = true) tr.
Proof.
  unfold getitem_post, caption_call, tokenize_call. intros (_ & H).
  destruct (shuffle_tags self); open_post; subst; repeat constructor.
Qed.

(** ** One operation and a session *)

Lemma always_and {A} (p : prog A) (Q1 Q2 : list event -> A -> Prop) :
  always p Q1 -> always p Q2 -> always p (fun tr a => Q1 tr a /\ Q2 tr a).
Proof.
  revert Q1 Q2; induction p as [a | X c k IH]; simpl; intros Q1 Q2 H1 H2.
  - split; assumption.
  - intros r. apply (IH r _ _ (H1 r) (H2 r)).
Qed.


Lemma operation_always self o :
  always (perform_operation o self) (operation_post self o).
Proof.
  destruct o as [epoch_n max_epochs| |i]; cbn [perform_operation].
  - eapply always_weaken; [ | apply shuffle_always ].
    intros tr rs. unfold shuffle_post, operation_post. cbn [shuffles_of].
    intros H. split; [ | split; [ | discriminate ] ].
    + destruct (dropout_fraction self epoch_n max_epochs) as [fraction|x].
      * destruct H as (answer & rest & -> & H).
        destruct answer as [items|x].
        -- destruct H as (Hs & H). rewrite Hs.
           destruct (write_schedule self).
           ++ destruct H as (Ht & _). unfold latest. cbn [last_returned].
              rewrite (schedule_trace_no_answer _ _ Ht). reflexivity.
           ++ destruct H as (-> & _). reflexivity.
        -- destruct H as (-> & ->). destruct self; reflexivity.
      * destruct H as (-> & ->). destruct self; reflexivity.
    + destruct (dropout_fraction self epoch_n max_epochs) as [fraction|x].
      * destruct H as (answer & rest & -> & H).
        constructor; [ intros text ok; cbn; discriminate | ].
        destruct answer as [items|x].
        -- destruct H as (_ & H). destruct (write_schedule self).
           ++ destruct H as (Ht & _).
              apply (schedule_trace_batch_lines _ _ Ht).
           ++ destruct H as (-> & _). constructor.
        -- destruct H as (-> & _). constructor.
      * destruct H as (-> & _). constructor.
  - cbn. unfold operation_post. cbn [snd shuffles_of latest last_returned].
    rewrite Z.add_0_r, set_seed_same, set_items_same.
    repeat split; constructor.
  - unfold bind. eapply always_bind; [ apply getitem_always | ].
    cbn beta. intros tr [r s] Hpost.
    pose proof (getitem_sample_calls _ _ _ _ Hpost) as Hc.
    destruct Hpost as (Hs & _). cbn [fst snd] in *. subst s.
    assert (Hgoal : operation_post self (op_getitem i) tr (Ok tt, self)
                    /\ operation_post self (op_getitem i) tr
                         (match r with Ok _ => Ok tt | Err e => Err e end, self)).
    { unfold operation_post, latest. cbn [snd shuffles_of].
      rewrite (sample_trace_no_answer _ Hc).
      rewrite Z.add_0_r, set_seed_same, set_items_same.
      repeat split; auto using sample_trace_batch_lines. }
    destruct r as [ex|x]; cbn; rewrite app_nil_r; apply Hgoal.
Qed.

Lemma count_shuffles_cons o ops :
  count_shuffles (o :: ops) = shuffles_of o + count_shuffles ops.
Proof. destruct o; reflexivity. Qed.

Lemma count_shuffles_nonneg ops : 0 <= count_shuffles ops.
Proof.
  induction ops as [|o ops IH]; [ reflexivity | ].
  rewrite count_shuffles_cons. destruct o; cbn [shuffles_of]; lia.
Qed.

(** After a session the object differs from the one before in the seed,
    advanced once per [shuffle], and in the ordering, the last one the
    bucketing collaborator returned. *)
Lemma session_always ops : forall self,
  always (session ops self) (fun tr self' =>
    self' = set_image_train_items (latest tr (image_train_items self))
              (set_seed (seed self + count_shuffles ops) self) /\
    Forall (batch_line (batch_size self)) tr /\
    (count_shuffles ops = 0 ->
     Forall (fun e => is_sample_call e = true) tr)).
Proof.
  induction ops as [|o ops IH]; intros self.
  - cbn [session always count_shuffles latest last_returned].
    rewrite Z.add_0_r, set_seed_same, set_items_same.
    repeat split; constructor.
  - cbn [session]. eapply always_bind; [ apply operation_always | ].
    cbn beta. intros t1 [r1 s1] (Hs & Hb & Hc). cbn [snd] in *.
    eapply always_weaken; [ | apply IH ]. cbn beta.
    intros t2 self' (Hs2 & Hb2 & Hc2).
    rewrite count_shuffles_cons.
    pose proof (count_shuffles_nonneg ops) as Hn.
    assert (Hbs : batch_size s1 = batch_size self) by (subst s1; reflexivity).
    rewrite Hbs in Hb2.
    split; [ | split ].
    + rewrite Hs2, Hs, latest_app. cbn.
      rewrite Z.add_assoc. reflexivity.
    + apply Forall_app; auto.
    + intros Hz. apply Forall_app. split.
      * apply Hc. destruct o; cbn [shuffles_of] in *; lia.
      * apply Hc2. destruct o; cbn [shuffles_of] in *; lia.
Qed.

(** ** What a run requests *)

Lemma schedule_call_no_request e :
  schedule_call e = true -> bucket_request e = None.
Proof. destruct e as [X c r]; destruct c; cbn; congruence. Qed.

Lemma schedule_call_no_info e :
  schedule_call e = true -> info_logged e = None.
Proof. destruct e as [X c r]; destruct c; cbn; congruence. Qed.

Lemma schedule_trace_no_request self tr :
  schedule_trace self tr -> collect bucket_request tr = [].
Proof.
  intros (Hc & _ & _).
  apply (collect_none _ _ _ schedule_call_no_request Hc).
Qed.

Lemma schedule_trace_no_info self tr :
  schedule_trace self tr -> collect info_logged tr = [].
Proof.
  intros (Hc & _ & _).
  apply (collect_none _ _ _ schedule_call_no_info Hc).
Qed.

(** [shuffle] asks the bucketing collaborator once, for the fraction
    it computed. *)
Lemma shuffle_requests self epoch_n max_epochs tr rs fraction :
  shuffle_post self epoch_n max_epochs tr rs ->
  dropout_fraction self epoch_n max_epochs = Ok fraction ->
  collect bucket_request tr = [fraction].
Proof.
  unfold shuffle_post. intros H Hf. rewrite Hf in H.
  destruct H as (answer & rest & -> & H). cbn [collect bucket_request].
  f_equal. destruct answer as [items|x].
  - destruct H as (_ & H). destruct (write_schedule self).
    + destruct H as (Ht & _). apply (schedule_trace_no_request _ _ Ht).
    + destruct H as (-> & _). reflexivity.
  - destruct H as (-> & _). reflexivity.
Qed.

(** The fraction of a rated data set, when the two ints convert. *)
Lemma rated_fraction self epoch_n max_epochs fm fe :
  PyFloat.of_int max_epochs = Ok fm ->
  PyFloat.of_int epoch_n = Ok fe ->
  max_epochs <> 0 ->
  rated_dropout_fraction self epoch_n max_epochs
  = Ok (PyFloat.div
          (PyFloat.sub fm
             (PyFloat.mul fe (rated_dataset_dropout_target self)))
          fm).
Proof.
  intros Hfm Hfe Hm.
  destruct (of_int_nonzero _ _ Hm Hfm) as (s & m & e & ->).
  unfold rated_dropout_fraction, PyFloat.mul_int_float, PyFloat.sub_int_float,
    PyFloat.truediv_float_int.
  rewrite Hfe. cbn [result_bind]. rewrite Hfm. reflexivity.
Qed.

(** What a successful construction leaves. *)
Lemma init_ok a tr self :
  init_post a tr (Ok self) ->
  exists tok items ratio,
    arg_tokenizer a = Some tok /\
    self = new_instance a tok items /\
    last_returned tr = Some items /\
    collect bucket_request tr = [PyFloat.one] /\
    PyFloat.truediv_int_int (Z.of_nat (List.length items))
      (DataLoaderMultiAspect.batch_size (arg_data_loader a)) = Ok ratio /\
    collect info_logged tr
    = [trainer_set_message ratio (Z.of_nat (List.length items))
         (DataLoaderMultiAspect.batch_size (arg_data_loader a))] /\
    Forall (batch_line (DataLoaderMultiAspect.batch_size (arg_data_loader a)))
           tr.
Proof.
  unfold init_post. destruct (arg_tokenizer a) as [tok|];
    [ | intros (_ & [=]) ].
  intros (answer & rest & -> & H).
  destruct answer as [items|x]; [ | destruct H as (_ & [=]) ].
  cbn zeta in H.
  change (batch_size (new_instance a tok items))
    with (DataLoaderMultiAspect.batch_size (arg_data_loader a)) in H.
  change (write_schedule (new_instance a tok items))
    with (arg_write_schedule a) in H.
  destruct (PyFloat.truediv_int_int _ _) as [ratio|x] eqn:Hratio;
    [ | destruct H as (_ & [=]) ].
  destruct H as (logged & rest' & -> & H).
  destruct logged as [[]|x]; [ | destruct H as (_ & [=]) ].
  exists tok, items, ratio.
  assert (Hrest : schedule_trace (new_instance a tok items) rest'
                  /\ self = new_instance a tok items).
  { destruct (arg_write_schedule a).
    - destruct H as (Ht & [Hr | (x & [=])] & _). split; congruence.
    - destruct H as (-> & Hr). split; [ apply schedule_trace_nil | congruence ]. }
  destruct Hrest as (Ht & ->).
  split; [ reflexivity | ]. split; [ reflexivity | ].
  split.
  { cbn [last_returned]. rewrite (schedule_trace_no_answer _ _ Ht).
    reflexivity. }
  split.
  { cbn [collect bucket_request info_logged].
    rewrite (schedule_trace_no_request _ _ Ht). reflexivity. }
  split; [ exact Hratio | ].
  split.
  { cbn [collect bucket_request info_logged].
    rewrite (schedule_trace_no_info _ _ Ht). reflexivity. }
  constructor; [ intros text ok; cbn; discriminate | ].
  constructor; [ intros text ok; cbn; discriminate | ].
  apply (schedule_trace_batch_lines _ _ Ht).
Qed.

(** A constructor given a tokenizer asks for the whole data set. *)
Lemma init_requests a tr r tok :
  init_post a tr r -> arg_tokenizer a = Some tok ->
  collect bucket_request tr = [PyFloat.one].
Proof.
  unfold init_post. intros H Htok. rewrite Htok in H.
  destruct H as (answer & rest & -> & H). cbn [collect bucket_request].
  f_equal. destruct answer as [items|x]; [ | destruct H as (-> & _); reflexivity ].
  cbn zeta in H. destruct (PyFloat.truediv_int_int _ _) as [ratio|x];
    [ | destruct H as (-> & _); reflexivity ].
  destruct H as (logged & rest' & -> & H). cbn [collect bucket_request].
  destruct logged as [[]|x]; [ | destruct H as (-> & _); reflexivity ].
  destruct (write_schedule _).
  - destruct H as (Ht & _). apply (schedule_trace_no_request _ _ Ht).
  - destruct H as (-> & _). reflexivity.
Qed.

(** ** What a sample is made of *)

Lemma getitem_state self i tr rs : getitem_post self i tr rs -> snd rs = self.
Proof. intros (Hs & _). exact Hs. Qed.

Lemma getitem_hydration self i tr rs :
  getitem_post self i tr rs ->
  Forall (fun q =>
            list_getitem (image_train_items self) i = Ok (hy_item q) /\
            hy_crop q = false /\
            hy_save q = (2 <? debug_level self) /\
            hy_crop_jitter q = crop_jitter self)
         (collect hydrate_request tr).
Proof.
  unfold getitem_post, caption_call, tokenize_call. intros (_ & H).
  destruct (shuffle_tags self); open_post; subst; cbn;
    repeat constructor; assumption.
Qed.

Lemma getitem_sample self i tr r :
  getitem_post self i tr (Ok r, self) ->
  exists hydrated enc draw,
    collect hydrate_answer tr = [Ok hydrated] /\
    collect caption_answer tr = [Ok (ex_caption r)] /\
    collect draw_answer tr = [Ok draw] /\
    collect tokenize_answer tr = [Ok enc] /\
    r = sample_of self hydrated (ex_caption r) enc.
Proof.
  unfold getitem_post, caption_call, tokenize_call. intros (_ & H).
  cbn [fst] in H.
  destruct (shuffle_tags self); open_post; subst; try discriminate;
    match goal with
    | H : _ = result_bind (torch_tensor ?ids) _ |- _ =>
        destruct (torch_tensor ids); cbn [result_bind] in H
    end;
    try discriminate;
    match goal with H : Ok _ = Ok _ |- _ => injection H as -> end;
    cbn; eexists _, _, _; repeat split.
Qed.

Lemma getitem_caption_request self i tr rs hydrated :
  getitem_post self i tr rs ->
  collect hydrate_answer tr = [Ok hydrated] ->
  collect caption_request tr
  = [if shuffle_tags self
     then shuffled_view (caption hydrated) (seed self)
     else stable_view (caption hydrated)].
Proof.
  unfold getitem_post, caption_call, tokenize_call. intros (_ & H).
  destruct (shuffle_tags self); open_post; subst; cbn;
    intros [=]; subst; reflexivity.
Qed.

Lemma getitem_tokenize_text self i tr rs cap draw :
  getitem_post self i tr rs ->
  collect caption_answer tr = [Ok cap] ->
  collect draw_answer tr = [Ok draw] ->
  collect tokenize_text tr
  = [if PyFloat.gtb draw (conditional_dropout self) then cap else " "].
Proof.
  unfold getitem_post, caption_call, tokenize_call. intros (_ & H).
  destruct (shuffle_tags self); open_post; subst; cbn;
    intros [=] [=]; subst; reflexivity.
Qed.

Lemma normalize_one mean std (x : FloatTensor) :
  transforms.Normalize [mean] [std] x = map (transforms.affine mean std) x.
Proof. reflexivity. Qed.

(** ** The schedule of an epoch *)

Lemma line_of_floor_step self e :
  0 < batch_size self < 2 ^ 53 ->
  Z.of_nat (List.length (image_train_items self)) <= 2 ^ 53 ->
  line_of self e ->
  floor_step_line (batch_size self) (image_train_items self) e.
Proof.
  intros Hb Hn Hl text ok Hw. destruct (Hl text ok Hw) as (i & Hi & Hline).
  destruct (line_text_in_range (batch_size self) (image_train_items self) i
              Hb Hi Hn) as (item & Hitem & Htext).
  exists i, item. repeat split; try lia; [ exact Hitem | ].
  unfold schedule_line in Hline. rewrite Htext in Hline.
  injection Hline as <-. reflexivity.
Qed.

(** A [shuffle] whose request was answered, with the schedule on. *)
Lemma shuffle_schedule self epoch_n max_epochs tr rs items :
  shuffle_post self epoch_n max_epochs tr rs ->
  write_schedule self = true ->
  last_returned tr = Some items ->
  exists fraction rest,
    tr = Ev (get_shuffled_image_buckets (data_loader self) fraction) (Ok items)
           :: rest /\
    snd rs = set_image_train_items items (set_seed (seed self + 1) self) /\
    schedule_trace (set_image_train_items items (set_seed (seed self + 1) self))
                   rest /\
    (forallb benign rest = true -> fst rs = Ok tt).
Proof.
  unfold shuffle_post. intros H Hw Hl. rewrite Hw in H.
  destruct (dropout_fraction self epoch_n max_epochs) as [fraction|x].
  - destruct H as (answer & rest & -> & H). destruct answer as [items'|x].
    + destruct H as (Hs & Ht & Hok). cbn [last_returned] in Hl.
      rewrite (schedule_trace_no_answer _ _ Ht) in Hl. cbn in Hl.
      injection Hl as ->. eauto 6.
    + destruct H as (-> & _). discriminate.
  - destruct H as (-> & _). discriminate.
Qed.

(** ** The claims *)

(** C1.  Every [shuffle(epoch_n, max_epochs)] passes one dropout fraction
    to the bucketing collaborator.  Without a rated data set it is [1.0],
    whatever the dropout target.  With a rated data set it is
    [(max_epochs - epoch_n * target) / max_epochs], in the float arithmetic
    of the expression, whenever the two ints convert to floats and
    [max_epochs] is not zero; at [epoch_n = 0], for a finite target, that
    is [1.0] exactly. *)
Theorem shuffle_dropout_fraction {W} (h : handler W) (w : W) (self : t)
  (epoch_n max_epochs : Z) :
  (rated_dataset self = false ->
   collect bucket_request (trace (run h (shuffle epoch_n max_epochs) self w))
   = [PyFloat.one]) /\
  (rated_dataset self = true ->
   forall fm fe : float,
   PyFloat.of_int max_epochs = Ok fm ->
   PyFloat.of_int epoch_n = Ok fe ->
   max_epochs <> 0 ->
   collect bucket_request (trace (run h (shuffle epoch_n max_epochs) self w))
   = [PyFloat.div
        (PyFloat.sub fm (PyFloat.mul fe (rated_dataset_dropout_target self)))
        fm] /\
   (epoch_n = 0 ->
    PyFloat.is_finite (rated_dataset_dropout_target self) = true ->
    collect bucket_request (trace (run h (shuffle epoch_n max_epochs) self w))
    = [PyFloat.one])).
Proof.
  pose proof (run_always h _ self w _ (shuffle_always self epoch_n max_epochs))
    as H.
  split.
  - intros Hr. apply (shuffle_requests _ _ _ _ _ _ H).
    unfold dropout_fraction. rewrite Hr. reflexivity.
  - intros Hr fm fe Hfm Hfe Hm. split.
    + apply (shuffle_requests _ _ _ _ _ _ H).
      unfold dropout_fraction. rewrite Hr. apply rated_fraction; assumption.
    + intros He Hfin. apply (shuffle_requests _ _ _ _ _ _ H).
      unfold dropout_fraction. rewrite Hr, He. unfold rated_dropout_fraction.
      apply (first_epoch_fraction _ _ fm); assumption.
Qed.

Lemma shuffle_dropout_fraction_witness :
  collect bucket_request
    (trace (run (scripted calm) (shuffle 0 10) rated_provider tt))
  = [PyFloat.one].
Proof.
  destruct (shuffle_dropout_fraction (scripted calm) tt rated_provider 0 10)
    as [_ H].
  destruct (H eq_refl (S754_finite false 5629499534213120 (-49)) PyFloat.zero)
    as [_ H0]; [ reflexivity | reflexivity | discriminate | ].
  apply H0; reflexivity.
Defined.

(** C2, as the code has it.  The text handed to the tokenizer is the
    caption when the draw is strictly greater than [conditional_dropout]
    and a single blank otherwise, and the tokens of the sample are the
    tokenizer's answer.  With [conditional_dropout = 1.0] every draw of
    the unit interval gives the blank.  With [conditional_dropout = 0.0]
    a draw of the unit interval gives the blank when it is [0.0], and
    only then. *)
Theorem caption_dropout_rule {W} (h : handler W) (w : W) (self : t) (i : Z)
  (cap : string) (draw : float) :
  collect caption_answer (trace (run h (__getitem__ i) self w)) = [Ok cap] ->
  collect draw_answer (trace (run h (__getitem__ i) self w)) = [Ok draw] ->
  collect tokenize_text (trace (run h (__getitem__ i) self w))
  = [if PyFloat.gtb draw (conditional_dropout self) then cap else " "] /\
  (forall s, outcome (run h (__getitem__ i) self w) = Ok s ->
   exists enc,
     collect tokenize_answer (trace (run h (__getitem__ i) self w)) = [Ok enc]
     /\ ex_tokens s = input_ids enc) /\
  (unit_interval draw = true ->
   conditional_dropout self = PyFloat.one ->
   PyFloat.gtb draw (conditional_dropout self) = false) /\
  (unit_interval draw = true ->
   conditional_dropout self = PyFloat.zero ->
   PyFloat.gtb draw (conditional_dropout self) = negb (PyFloat.is_zero draw)).
Proof.
  intros Hcap Hdraw.
  pose proof (run_always h _ self w _ (getitem_always self i)) as H.
  split; [ apply (getitem_tokenize_text _ _ _ _ _ _ H Hcap Hdraw) | ].
  split.
  - intros s Hs. rewrite Hs in H.
    replace (self_after (run h (__getitem__ i) self w)) with self in H
      by (symmetry; apply (getitem_state _ _ _ _ H)).
    destruct (getitem_sample _ _ _ _ H) as (hydrated & enc & d & _ & _ & _ & He & Hs').
    exists enc. split; [ exact He | ]. rewrite Hs'. reflexivity.
  - split.
    + intros Hu ->. unfold unit_interval in Hu.
      apply andb_prop in Hu as [_ Hlt]. apply ltb_asymmetric. exact Hlt.
    + intros Hu ->. apply unit_interval_not_above_zero. exact Hu.
Qed.

Lemma caption_dropout_rule_witness :
  collect tokenize_text
    (trace (run (scripted calm) (__getitem__ 0) rated_provider tt))
  = ["asleep, a cat"].
Proof.
  destruct (caption_dropout_rule (scripted calm) tt rated_provider 0
              "asleep, a cat" PyFloat.half) as [H _];
    [ reflexivity | reflexivity | exact H ].
Defined.

(** With [conditional_dropout = 0.0] a sample is blanked: the draw [0.0],
    which lies in the unit interval, is not greater than [0.0]. *)
Lemma zero_draw_is_blanked :
  conditional_dropout rated_provider = PyFloat.zero /\
  unit_interval PyFloat.zero = true /\
  collect draw_answer
    (trace (run (scripted zero_draw) (__getitem__ 0) rated_provider tt))
  = [Ok PyFloat.zero] /\
  collect caption_answer
    (trace (run (scripted zero_draw) (__getitem__ 0) rated_provider tt))
  = [Ok "asleep, a cat"] /\
  collect tokenize_text
    (trace (run (scripted zero_draw) (__getitem__ 0) rated_provider tt))
  = [" "].
Proof. repeat split. Qed.

(** C3.  Every [shuffle] adds exactly one to the seed, also when it
    raises, and no other operation changes it: on an object constructed
    with seed [s], after any sequence of operations that holds [k] calls
    of [shuffle], the seed is [s + k]. *)
Theorem seed_counts_shuffles {W} (h : handler W) (w w' : W) (a : init_args)
  (self : t) (ops : list operation) :
  result_of (exec h (__init__ a) w) = Ok self ->
  seed self = arg_seed a /\
  (forall (s : t) (epoch_n max_epochs : Z) (w1 : W),
     seed (self_after (run h (shuffle epoch_n max_epochs) s w1)) = seed s + 1)
  /\
  seed (result_of (exec h (session ops self) w'))
  = arg_seed a + count_shuffles ops.
Proof.
  intros Hinit.
  pose proof (exec_always h _ _ w (init_always a)) as Hi.
  unfold result_of in *. rewrite Hinit in Hi.
  destruct (init_ok _ _ _ Hi) as (tok & items & ratio & _ & Hself & _).
  assert (Hseed : seed self = arg_seed a) by (rewrite Hself; reflexivity).
  split; [ exact Hseed | ]. split.
  - intros s epoch_n max_epochs w1.
    pose proof (run_always h _ s w1 _
                  (operation_always s (op_shuffle epoch_n max_epochs))) as Ho.
    destruct Ho as (Hs & _). cbn [snd perform_operation] in Hs.
    rewrite Hs. reflexivity.
  - pose proof (exec_always h _ _ w' (session_always ops self)) as Hs.
    destruct Hs as (Hs & _). rewrite Hs, <- Hseed. reflexivity.
Qed.

Lemma seed_counts_shuffles_witness :
  seed (result_of
          (exec (scripted full_disk)
             (session [op_shuffle 0 10; op_getitem 1; op_len; op_shuffle 1 10]
                rated_provider) tt))
  = 555 + 2.
Proof.
  apply (seed_counts_shuffles (scripted full_disk) tt tt rated_args
           rated_provider
           [op_shuffle 0 10; op_getitem 1; op_len; op_shuffle 1 10]).
  reflexivity.
Defined.

(** C4.  The image of a sample is the hydrated image scaled to [0, 1]
    and passed through one affine normalization [(x - mean) / std].
    With [retain_contrast] the pair is [(0.0, 1.0)] and the values are
    the scaled samples themselves; without it the pair is [(0.5, 0.5)]
    and every value of an 8-bit image lies in [-1, 1]. *)
Theorem image_normalization {W} (h : handler W) (w : W) (self : t) (i : Z)
  (s : example) (hydrated : ImageTrainItem) :
  outcome (run h (__getitem__ i) self w) = Ok s ->
  collect hydrate_answer (trace (run h (__getitem__ i) self w))
  = [Ok hydrated] ->
  ex_image s
  = map (transforms.affine (fst (normalization self))
                           (snd (normalization self)))
        (map transforms.scale_sample (image hydrated)) /\
  (retain_contrast self = true ->
   normalization self = (PyFloat.zero, PyFloat.one) /\
   ex_image s = map transforms.scale_sample (image hydrated)) /\
  (retain_contrast self = false ->
   normalization self = (PyFloat.half, PyFloat.half) /\
   Forall in_unit_range (ex_image s)).
Proof.
  intros Hs Hh.
  pose proof (run_always h _ self w _ (getitem_always self i)) as H.
  rewrite Hs in H.
  replace (self_after (run h (__getitem__ i) self w)) with self in H
    by (symmetry; apply (getitem_state _ _ _ _ H)).
  destruct (getitem_sample _ _ _ _ H)
    as (hydrated' & enc & d & Hh' & _ & _ & _ & Hs').
  rewrite Hh in Hh'. injection Hh' as <-.
  assert (Himg : ex_image s
                 = map (transforms.affine (fst (normalization self))
                                          (snd (normalization self)))
                       (map transforms.scale_sample (image hydrated))).
  { rewrite Hs'. reflexivity. }
  split; [ exact Himg | ]. unfold normalization in *. split.
  - intros Hr. rewrite Hr in *. split; [ reflexivity | ].
    rewrite Himg. cbn [fst snd]. rewrite map_map.
    apply map_ext. intros b. apply affine_identity.
  - intros Hr. rewrite Hr in *. split; [ reflexivity | ].
    rewrite Himg. cbn [fst snd]. rewrite map_map.
    apply Forall_map. apply Forall_forall. intros b _.
    apply affine_half_range.
Qed.

Lemma image_normalization_witness :
  exists s,
    outcome (run (scripted calm) (__getitem__ 1) rated_provider tt) = Ok s /\
    Forall in_unit_range (ex_image s).
Proof.
  eexists. split; [ vm_compute; reflexivity | ].
  refine (proj2 (proj2 (proj2
            (image_normalization (scripted calm) tt rated_provider 1 _
               (loaded dog) _ _)) eq_refl)); vm_compute; reflexivity.
Defined.

(** C5.  A constructor that returns has asked the bucketing
    collaborator for its ordering once, with fraction [1.0]; and after
    any sequence of operations on the object, [__len__] is the number of
    items of the sequence the collaborator returned last. *)
Theorem len_is_latest_ordering {W} (h : handler W) (w w' w'' : W)
  (a : init_args) (self : t) (ops : list operation) :
  result_of (exec h (__init__ a) w) = Ok self ->
  collect bucket_request (trace_of (exec h (__init__ a) w)) = [PyFloat.one] /\
  exists items,
    last_returned (trace_of (exec h (__init__ a) w)
                   ++ trace_of (exec h (session ops self) w'))
    = Some items /\
    outcome (run h __len__ (result_of (exec h (session ops self) w')) w'')
    = Ok (Z.of_nat (List.length items)).
Proof.
  intros Hinit.
  pose proof (exec_always h _ _ w (init_always a)) as Hi.
  unfold result_of, trace_of in *. rewrite Hinit in Hi.
  destruct (init_ok _ _ _ Hi)
    as (tok & items & ratio & _ & Hself & Hlast & Hreq & _).
  split; [ exact Hreq | ].
  pose proof (exec_always h _ _ w' (session_always ops self)) as Hs.
  destruct Hs as (Hs & _).
  exists (latest (snd (exec h (session ops self) w')) items). split.
  - rewrite last_returned_app, Hlast. unfold latest.
    destruct (last_returned (snd (exec h (session ops self) w')));
      reflexivity.
  - rewrite Hs, Hself. reflexivity.
Qed.

Lemma len_is_latest_ordering_witness :
  collect bucket_request
    (trace_of (exec (scripted calm) (__init__ rated_args) tt))
  = [PyFloat.one] /\
  exists items,
    last_returned
      (trace_of (exec (scripted calm) (__init__ rated_args) tt)
       ++ trace_of (exec (scripted calm)
                      (session [op_getitem 0; op_shuffle 1 4] rated_provider)
                      tt))
    = Some items /\
    outcome (run (scripted calm) __len__
               (result_of
                  (exec (scripted calm)
                     (session [op_getitem 0; op_shuffle 1 4] rated_provider)
                     tt))
               tt)
    = Ok (Z.of_nat (List.length items)).
Proof.
  apply (len_is_latest_ordering (scripted calm) tt tt tt rated_args
           rated_provider [op_getitem 0; op_shuffle 1 4]).
  reflexivity.
Defined.

(** C6.  A [__getitem__] whose item hydrated asks the caption object of
    the hydrated item for one view: the shuffled one, with the seed the
    object has at the call, when [shuffle_tags] is set, and the stable one
    otherwise.  The caption of the sample is the answer. *)
Theorem caption_view_by_shuffle_tags {W} (h : handler W) (w : W) (self : t)
  (i : Z) (hydrated : ImageTrainItem) :
  collect hydrate_answer (trace (run h (__getitem__ i) self w))
  = [Ok hydrated] ->
  collect caption_request (trace (run h (__getitem__ i) self w))
  = [if shuffle_tags self
     then shuffled_view (caption hydrated) (seed self)
     else stable_view (caption hydrated)] /\
  (forall s, outcome (run h (__getitem__ i) self w) = Ok s ->
   collect caption_answer (trace (run h (__getitem__ i) self w))
   = [Ok (ex_caption s)]).
Proof.
  intros Hh.
  pose proof (run_always h _ self w _ (getitem_always self i)) as H.
  split; [ apply (getitem_caption_request _ _ _ _ _ H Hh) | ].
  intros s Hs. rewrite Hs in H.
  replace (self_after (run h (__getitem__ i) self w)) with self in H
    by (symmetry; apply (getitem_state _ _ _ _ H)).
  destruct (getitem_sample _ _ _ _ H) as (? & ? & ? & _ & Hc & _).
  exact Hc.
Qed.

Lemma caption_view_by_shuffle_tags_witness :
  collect caption_request
    (trace (run (scripted calm) (__getitem__ 1)
              (set_seed 557 rated_provider) tt))
  = [shuffled_view (caption dog) 557].
Proof.
  apply (caption_view_by_shuffle_tags (scripted calm) tt
           (set_seed 557 rated_provider) 1 (loaded dog)).
  reflexivity.
Defined.

(** C7.  Every hydration request of [__getitem__] is for the item at
    the index, with [crop] false, [save] true exactly when the debug
    level is greater than 2, and the crop jitter of the object; the
    [runt_size] of the sample is that of the hydrated item. *)
Theorem hydration_request {W} (h : handler W) (w : W) (self : t) (i : Z) :
  Forall (fun q =>
            list_getitem (image_train_items self) i = Ok (hy_item q) /\
            hy_crop q = false /\
            hy_save q = (2 <? debug_level self) /\
            hy_crop_jitter q = crop_jitter self)
         (collect hydrate_request (trace (run h (__getitem__ i) self w))) /\
  (forall s, outcome (run h (__getitem__ i) self w) = Ok s ->
   exists hydrated,
     collect hydrate_answer (trace (run h (__getitem__ i) self w))
     = [Ok hydrated] /\
     ex_runt_size s = runt_size hydrated).
Proof.
  pose proof (run_always h _ self w _ (getitem_always self i)) as H.
  split; [ apply (getitem_hydration _ _ _ _ H) | ].
  intros s Hs. rewrite Hs in H.
  replace (self_after (run h (__getitem__ i) self w)) with self in H
    by (symmetry; apply (getitem_state _ _ _ _ H)).
  destruct (getitem_sample _ _ _ _ H)
    as (hydrated & ? & ? & Hh & _ & _ & _ & Hs').
  exists hydrated. split; [ exact Hh | ]. rewrite Hs'. reflexivity.
Qed.

Lemma hydration_request_witness :
  exists s hydrated,
    outcome (run (scripted calm) (__getitem__ 1) rated_provider tt) = Ok s /\
    collect hydrate_answer
      (trace (run (scripted calm) (__getitem__ 1) rated_provider tt))
    = [Ok hydrated] /\
    ex_runt_size s = runt_size hydrated.
Proof.
  destruct (proj2 (hydration_request (scripted calm) tt rated_provider 1)
              _ eq_refl) as (hydrated & Hh & Hr).
  eexists _, hydrated. split; [ reflexivity | ]. split; [ exact Hh | exact Hr ].
Defined.

(** C9.  [__getitem__] returns the object as it found it, whether it
    returns a sample or raises, and calls nothing but the hydration, a
    caption view, the random draw and the tokenizer; so after any number
    of accesses the object is the same and [__len__] has not changed. *)
Theorem getitem_leaves_state {W} (h : handler W) (w : W) (self : t) (i : Z) :
  self_after (run h (__getitem__ i) self w) = self /\
  Forall (fun e => is_sample_call e = true)
         (trace (run h (__getitem__ i) self w)) /\
  (forall (indices : list Z) (w1 w2 : W),
     result_of (exec h (session (map op_getitem indices) self) w1) = self /\
     outcome (run h __len__
                (result_of (exec h (session (map op_getitem indices) self) w1))
                w2)
     = Ok (Z.of_nat (List.length (image_train_items self)))).
Proof.
  pose proof (run_always h _ self w _ (getitem_always self i)) as H.
  split; [ apply (getitem_state _ _ _ _ H) | ].
  split; [ apply (getitem_sample_calls _ _ _ _ H) | ].
  intros indices w1 w2.
  assert (Hcount : count_shuffles (map op_getitem indices) = 0).
  { clear. induction indices as [|j indices IH]; [ reflexivity | exact IH ]. }
  pose proof (exec_always h _ _ w1
                (session_always (map op_getitem indices) self)) as Hs.
  destruct Hs as (Hs & _ & Hc). specialize (Hc Hcount).
  assert (Hself : result_of (exec h (session (map op_getitem indices) self) w1)
                  = self).
  { unfold result_of. rewrite Hs, Hcount. unfold latest.
    rewrite (sample_trace_no_answer _ Hc).
    rewrite Z.add_0_r, set_seed_same, set_items_same. reflexivity. }
  split; [ exact Hself | ]. rewrite Hself. reflexivity.
Qed.

(** ** The steps of a session *)

Lemma schedule_call_no_ordering e :
  schedule_call e = true -> returned_ordering e = None.
Proof.
  intros H. unfold returned_ordering.
  rewrite (schedule_call_no_answer e H). reflexivity.
Qed.

Lemma sample_call_no_ordering e :
  is_sample_call e = true -> returned_ordering e = None.
Proof.
  intros H. unfold returned_ordering.
  rewrite (sample_call_no_answer e H). reflexivity.
Qed.

Lemma latest_cons e tr current :
  latest (e :: tr) current
  = latest tr (match returned_ordering e with
               | Some items => items
               | None => current
               end).
Proof.
  unfold latest. cbn [last_returned].
  destruct (last_returned tr); [ reflexivity | ].
  unfold returned_ordering. destruct (bucket_answer e) as [[items|x]|];
    reflexivity.
Qed.

Lemma steps_use_app batch tr1 : forall current tr2,
  steps_use batch current tr1 ->
  steps_use batch (latest tr1 current) tr2 ->
  steps_use batch current (tr1 ++ tr2).
Proof.
  induction tr1 as [|e tr1 IH]; intros current tr2 H1 H2.
  - exact H2.
  - cbn [app steps_use] in *. destruct H1 as (He & H1).
    split; [ exact He | ]. apply IH; [ exact H1 | ].
    rewrite latest_cons in H2. exact H2.
Qed.

(** A trace without an answer of the bucketing collaborator. *)
Lemma steps_use_quiet batch current tr :
  Forall (floor_step_line batch current) tr ->
  Forall (fun e => returned_ordering e = None) tr ->
  steps_use batch current tr.
Proof.
  induction 1 as [|e tr He _ IH]; intros Hq; [ exact I | ].
  inversion Hq as [|e' tr' Hn Hq']; subst.
  cbn [steps_use]. rewrite Hn. split; [ exact He | apply IH; exact Hq' ].
Qed.

Lemma schedule_trace_steps self tr :
  0 < batch_size self < 2 ^ 53 ->
  Z.of_nat (List.length (image_train_items self)) <= 2 ^ 53 ->
  schedule_trace self tr ->
  steps_use (batch_size self) (image_train_items self) tr.
Proof.
  intros Hb Hn (Hc & Hl & _). apply steps_use_quiet.
  - eapply Forall_impl; [ | exact Hl ].
    intros e He. apply line_of_floor_step; assumption.
  - eapply Forall_impl; [ | exact Hc ]. apply schedule_call_no_ordering.
Qed.

Lemma sample_trace_steps batch current tr :
  Forall (fun e => is_sample_call e = true) tr ->
  steps_use batch current tr.
Proof.
  intros Hc. apply steps_use_quiet.
  - eapply Forall_impl; [ | exact Hc ].
    intros e He text ok Hw. rewrite (sample_call_no_write e He) in Hw.
    discriminate.
  - eapply Forall_impl; [ | exact Hc ]. apply sample_call_no_ordering.
Qed.

Lemma shuffle_steps self epoch_n max_epochs tr rs :
  shuffle_post self epoch_n max_epochs tr rs ->
  0 < batch_size self < 2 ^ 53 ->
  Forall (fun items => Z.of_nat (List.length items) <= 2 ^ 53)
         (collect returned_ordering tr) ->
  steps_use (batch_size self) (image_train_items self) tr.
Proof.
  unfold shuffle_post. intros H Hb Hsmall.
  destruct (dropout_fraction self epoch_n max_epochs) as [fraction|x].
  - destruct H as (answer & rest & -> & H).
    cbn [steps_use]. split; [ intros text ok; cbn; discriminate | ].
    destruct answer as [items|x].
    + cbn [returned_ordering bucket_answer].
      cbn [collect returned_ordering bucket_answer] in Hsmall.
      inversion Hsmall as [|items' l Hn _]; subst.
      destruct H as (_ & H). destruct (write_schedule self).
      * destruct H as (Ht & _).
        apply (schedule_trace_steps
                 (set_image_train_items items (set_seed (seed self + 1) self)));
          assumption.
      * destruct H as (-> & _). exact I.
    + destruct H as (-> & _). exact I.
  - destruct H as (-> & _). exact I.
Qed.

Lemma operation_steps self o :
  always (perform_operation o self) (fun tr rs =>
    0 < batch_size self < 2 ^ 53 ->
    Forall (fun items => Z.of_nat (List.length items) <= 2 ^ 53)
           (collect returned_ordering tr) ->
    steps_use (batch_size self) (image_train_items self) tr).
Proof.
  destruct o as [epoch_n max_epochs| |i]; cbn [perform_operation].
  - eapply always_weaken; [ | apply shuffle_always ].
    intros tr rs H. apply (shuffle_steps _ _ _ _ _ H).
  - cbn. intros _ _. exact I.
  - unfold bind. eapply always_bind; [ apply getitem_always | ].
    cbn beta. intros tr [r s] Hpost.
    pose proof (getitem_sample_calls _ _ _ _ Hpost) as Hc.
    destruct r as [ex|x]; cbn; rewrite app_nil_r; intros _ _;
      apply sample_trace_steps; exact Hc.
Qed.

Lemma session_steps ops : forall self,
  always (session ops self) (fun tr _ =>
    0 < batch_size self < 2 ^ 53 ->
    Forall (fun items => Z.of_nat (List.length items) <= 2 ^ 53)
           (collect returned_ordering tr) ->
    steps_use (batch_size self) (image_train_items self) tr).
Proof.
  induction ops as [|o ops IH]; intros self.
  - cbn. intros _ _. exact I.
  - cbn [session]. eapply always_bind.
    { apply (always_and _ _ _ (operation_always self o)
                              (operation_steps self o)). }
    cbn beta. intros t1 [r1 s1] ((Hs & _) & Hsteps). cbn [snd] in Hs.
    eapply always_weaken; [ | apply IH ]. cbn beta.
    intros t2 self' Hsteps2 Hb Hsmall. cbn [snd] in Hsteps2.
    rewrite collect_app in Hsmall. apply Forall_app in Hsmall as (Hs1 & Hs2).
    apply steps_use_app; [ apply Hsteps; assumption | ].
    assert (Hbs : batch_size s1 = batch_size self) by (subst s1; reflexivity).
    assert (Hit : image_train_items s1 = latest t1 (image_train_items self))
      by (subst s1; reflexivity).
    rewrite <- Hbs, <- Hit. apply Hsteps2; [ rewrite Hbs; exact Hb | exact Hs2 ].
Qed.

(** The schedule of a constructor that returned. *)
Lemma init_steps a tr self :
  init_post a tr (Ok self) ->
  0 < DataLoaderMultiAspect.batch_size (arg_data_loader a) < 2 ^ 53 ->
  Forall (fun items => Z.of_nat (List.length items) <= 2 ^ 53)
         (collect returned_ordering tr) ->
  steps_use (DataLoaderMultiAspect.batch_size (arg_data_loader a)) [] tr.
Proof.
  unfold init_post. destruct (arg_tokenizer a) as [tok|];
    [ | intros (_ & [=]) ].
  intros (answer & rest & -> & H) Hb Hsmall.
  destruct answer as [items|x]; [ | destruct H as (_ & [=]) ].
  cbn zeta in H.
  change (batch_size (new_instance a tok items))
    with (DataLoaderMultiAspect.batch_size (arg_data_loader a)) in H.
  change (write_schedule (new_instance a tok items))
    with (arg_write_schedule a) in H.
  destruct (PyFloat.truediv_int_int _ _) as [ratio|x];
    [ | destruct H as (_ & [=]) ].
  destruct H as (logged & rest' & -> & H).
  destruct logged as [[]|x]; [ | destruct H as (_ & [=]) ].
  cbn [collect returned_ordering bucket_answer] in Hsmall.
  inversion Hsmall as [|items' l Hn _]; subst.
  cbn [steps_use returned_ordering bucket_answer].
  split; [ intros text ok; cbn; discriminate | ].
  split; [ intros text ok; cbn; discriminate | ].
  destruct (arg_write_schedule a).
  - destruct H as (Ht & _).
    apply (schedule_trace_steps (new_instance a tok items)); assumption.
  - destruct H as (-> & _). exact I.
Qed.

(** C10.  The batch size of a constructed object is the [batch_size] of
    its data loader, and no operation changes it.  The estimate the
    constructor logs is the number of images divided by it.  For a batch
    size between 1 and [2^53] and orderings of at most [2^53] items,
    every line handed to a schedule file, at construction and in every
    later operation, is the line of an item of the ordering in force,
    with the floor of its index over that batch size as the step. *)
Theorem batch_size_from_loader {W} (h : handler W) (w w' : W)
  (a : init_args) (self : t) (ops : list operation) :
  result_of (exec h (__init__ a) w) = Ok self ->
  0 < DataLoaderMultiAspect.batch_size (arg_data_loader a) < 2 ^ 53 ->
  Forall (fun items => Z.of_nat (List.length items) <= 2 ^ 53)
         (collect returned_ordering
            (trace_of (exec h (__init__ a) w)
             ++ trace_of (exec h (session ops self) w'))) ->
  batch_size self = DataLoaderMultiAspect.batch_size (arg_data_loader a) /\
  batch_size (result_of (exec h (session ops self) w'))
  = DataLoaderMultiAspect.batch_size (arg_data_loader a) /\
  (exists ratio,
     PyFloat.truediv_int_int
       (Z.of_nat (List.length (image_train_items self)))
       (DataLoaderMultiAspect.batch_size (arg_data_loader a)) = Ok ratio /\
     collect info_logged (trace_of (exec h (__init__ a) w))
     = [" ** Trainer Set: " +++ format_0f ratio
        +++ ", num_images: "
        +++ str_int (Z.of_nat (List.length (image_train_items self)))
        +++ ", batch_size: "
        +++ str_int (DataLoaderMultiAspect.batch_size (arg_data_loader a))])
  /\
  steps_use (DataLoaderMultiAspect.batch_size (arg_data_loader a)) []
    (trace_of (exec h (__init__ a) w)
     ++ trace_of (exec h (session ops self) w')).
Proof.
  intros Hinit Hb Hsmall.
  pose proof (exec_always h _ _ w (init_always a)) as Hi.
  unfold result_of, trace_of in *. rewrite Hinit in Hi.
  destruct (init_ok _ _ _ Hi)
    as (tok & items & ratio & _ & Hself & Hlast & _ & Hratio & Hinfo & _).
  assert (Hbs : batch_size self
                = DataLoaderMultiAspect.batch_size (arg_data_loader a))
    by (rewrite Hself; reflexivity).
  assert (Hitems : image_train_items self = items)
    by (rewrite Hself; reflexivity).
  pose proof (exec_always h _ _ w' (session_always ops self)) as Hs.
  destruct Hs as (Hs & _).
  rewrite collect_app in Hsmall. apply Forall_app in Hsmall as (Hs1 & Hs2).
  split; [ exact Hbs | ]. split; [ rewrite Hs; exact Hbs | ]. split.
  { exists ratio. rewrite Hitems. split; [ exact Hratio | exact Hinfo ]. }
  apply steps_use_app; [ apply (init_steps _ _ _ Hi Hb Hs1) | ].
  unfold latest at 1. rewrite Hlast, <- Hitems, <- Hbs.
  apply (exec_always h _ _ w' (session_steps ops self));
    [ rewrite Hbs; exact Hb | exact Hs2 ].
Qed.

Lemma batch_size_from_loader_witness :
  batch_size
    (result_of
       (exec (scripted full_disk)
          (session [op_shuffle 0 10; op_getitem 1] rated_provider) tt))
  = 2.
Proof.
  refine (proj1 (proj2
            (batch_size_from_loader (scripted full_disk) tt tt rated_args
               rated_provider [op_shuffle 0 10; op_getitem 1] _ _ _))).
  - reflexivity.
  - split; reflexivity.
  - replace (collect returned_ordering _)
      with [[cat; dog; cat]; [cat; dog; cat]] by (vm_compute; reflexivity).
    repeat (apply Forall_cons; [ cbn; lia | ]). apply Forall_nil.
Defined.

(** C8, as the code has it.  With the schedule on, a [shuffle] whose
    request was answered with [items] has replaced the ordering by
    [items].  If every write either went through or failed with an
    [Exception], and every other call returned, the [shuffle] returns and
    every failed write is followed by an error in the log.  For a batch
    size between 1 and [2^53] and at most [2^53] items, every text handed
    to the file is the line of an item whose step is the floor of its
    index over the batch size.  The step is padded with zeros to at least
    five characters and reads back as the step; it has exactly five
    characters below 100000. *)
Theorem schedule_write_is_best_effort {W} (h : handler W) (w : W) (self : t)
  (epoch_n max_epochs : Z) (items : list ImageTrainItem) :
  write_schedule self = true ->
  0 < batch_size self < 2 ^ 53 ->
  Z.of_nat (List.length items) <= 2 ^ 53 ->
  last_returned (trace (run h (shuffle epoch_n max_epochs) self w))
  = Some items ->
  image_train_items (self_after (run h (shuffle epoch_n max_epochs) self w))
  = items /\
  (forallb benign (trace (run h (shuffle epoch_n max_epochs) self w)) = true ->
   outcome (run h (shuffle epoch_n max_epochs) self w) = Ok tt /\
   failures_logged (trace (run h (shuffle epoch_n max_epochs) self w)) = true)
  /\
  Forall (floor_step_line (batch_size self) items)
         (trace (run h (shuffle epoch_n max_epochs) self w)) /\
  (forall step, 0 <= step ->
     int_of_str (format_05 step) = Some step /\
     (5 <= String.length (format_05 step))%nat /\
     (step < 100000 -> String.length (format_05 step) = 5%nat)).
Proof.
  intros Hw Hb Hn Hlast.
  pose proof (run_always h _ self w _ (shuffle_always self epoch_n max_epochs))
    as H.
  destruct (shuffle_schedule _ _ _ _ _ _ H Hw Hlast)
    as (fraction & rest & Htr & Hs & Ht & Hok).
  cbn [fst snd] in Hs, Hok. rewrite Htr, Hs.
  split; [ reflexivity | ]. split; [ | split ].
  - cbn [forallb]. intros [_ Hbenign]%andb_prop.
    split; [ exact (Hok Hbenign) | ].
    destruct Ht as (_ & _ & Hf). exact (Hf Hbenign).
  - constructor; [ intros text ok; cbn; discriminate | ].
    destruct Ht as (_ & Hl & _). eapply Forall_impl; [ | exact Hl ].
    intros e He.
    apply (line_of_floor_step
             (set_image_train_items items (set_seed (seed self + 1) self)));
      assumption.
  - intros step Hstep. split; [ apply int_of_format_05; exact Hstep | ].
    split.
    + rewrite format_05_length by exact Hstep. lia.
    + intros Hlt. apply format_05_five. lia.
Qed.

Lemma schedule_write_is_best_effort_witness :
  outcome (run (scripted full_disk) (shuffle 0 10) rated_provider tt) = Ok tt
  /\
  failures_logged
    (trace (run (scripted full_disk) (shuffle 0 10) rated_provider tt)) = true.
Proof.
  refine (proj1 (proj2
            (schedule_write_is_best_effort (scripted full_disk) tt
               rated_provider 0 10 [cat; dog; cat] _ _ _ _)) _);
    try reflexivity.
  - split; reflexivity.
  - discriminate.
Defined.

(** The step of item 100000 at batch size 1 is written with six
    digits. *)
Lemma step_100000_has_six_digits :
  line_text 1 (repeat cat (Z.to_nat 100001)) 100000
  = Ok ("step:100000, wh:[512, 512], r:0, path:/data/cat.jpg" +++ newline)
  /\ format_05 100000 = "100000".
Proof. split; vm_compute; reflexivity. Qed.

(** ** The runs of the epoch transition *)

Lemma entry_runs f i self :
  0 <= i < Z.of_nat (List.length (image_train_items self)) ->
  always (write_schedule_entry f i self) (fun tr rs =>
    snd rs = self /\ entry_run f self i tr (fst rs)).
Proof.
  intros Hi. destruct (list_getitem_range _ _ Hi) as (item & Hitem & _).
  unfold write_schedule_entry, try_except_Exception.
  unfold bind, ret, raise, get, put, lift, perform; cbn.
  destruct (schedule_line self i) as [line|x] eqn:Hline; cbn.
  - intros [n|x]; cbn.
    + split; [ reflexivity | ]. apply entry_written. exact Hline.
    + destruct (is_Exception x) eqn:Hx; cbn.
      * rewrite Hitem; cbn. intros logged; cbn.
        split; [ reflexivity | ].
        apply (entry_write_failed f self i line x item logged); assumption.
      * split; [ reflexivity | ]. apply entry_interrupted; assumption.
  - rewrite (schedule_line_error _ _ _ Hline). cbn. rewrite Hitem; cbn.
    intros logged; cbn. split; [ reflexivity | ].
    apply (entry_no_line f self i x item logged); assumption.
Qed.

Lemma for_each_runs {A} (body : A -> M t unit)
  (E : A -> list event -> result unit -> Prop) (xs : list A) self :
  (forall x, In x xs ->
     always (body x self) (fun tr rs => snd rs = self /\ E x tr (fst rs))) ->
  always (for_each xs body self) (fun tr rs =>
    snd rs = self /\ loop_runs E xs tr (fst rs)).
Proof.
  induction xs as [|x xs IH]; intros Hxs.
  - cbn. split; [ reflexivity | constructor ].
  - cbn [for_each]. unfold bind at 1.
    eapply always_bind; [ apply Hxs; left; reflexivity | ].
    cbn beta. intros t1 [r1 s1] (Hs & He). cbn [fst snd] in *. subst s1.
    destruct r1 as [[]|e].
    + eapply always_weaken; [ | apply IH; intros; apply Hxs; right; assumption ].
      cbn beta. intros t2 rs (Hs2 & Hl).
      split; [ assumption | ]. apply loop_next; assumption.
    + cbn. rewrite app_nil_r. split; [ reflexivity | ].
      apply loop_raise. exact He.
Qed.

Lemma write_batch_schedule_runs epoch_n self :
  always (__write_batch_schedule epoch_n self) (fun tr rs =>
    snd rs = self /\ schedule_run self epoch_n tr (fst rs)).
Proof.
  unfold __write_batch_schedule, with_open.
  unfold bind at 1 2. unfold get at 1, perform. cbn.
  intros [f|x]; cbn.
  - eapply always_bind.
    { apply (for_each_runs _ (entry_run f self)).
      intros i Hin. apply entry_runs. apply in_range. exact Hin. }
    cbn beta. intros t1 [r1 s1] (Hs & Hl). cbn [fst snd] in *. subst s1.
    intros closed.
    pose proof (schedule_closed self epoch_n f t1 r1 closed Hl) as Hrun.
    destruct closed as [[]|x]; cbn; (split; [ reflexivity | exact Hrun ]).
  - split; [ reflexivity | ]. apply schedule_not_opened.
Qed.

Lemma shuffle_runs self epoch_n max_epochs :
  always (shuffle epoch_n max_epochs self) (fun tr rs =>
    shuffle_run self epoch_n max_epochs tr (fst rs) (snd rs)).
Proof.
  unfold shuffle.
  unfold bind, ret, raise, get, put, lift, perform; cbn.
  change (dropout_fraction (set_seed (seed self + 1) self) epoch_n max_epochs)
    with (dropout_fraction self epoch_n max_epochs).
  destruct (dropout_fraction self epoch_n max_epochs) as [fraction|x] eqn:Hf;
    cbn; [ | apply shuffle_no_fraction; exact Hf ].
  intros [items|x]; cbn.
  - destruct (write_schedule self) eqn:Hw.
    + eapply always_weaken; [ | apply write_batch_schedule_runs ].
      cbn beta. intros tr rs (Hs & Hrun). rewrite Hs.
      apply (shuffle_scheduled self epoch_n max_epochs fraction items);
        assumption.
    + cbn. apply shuffle_plain; assumption.
  - apply shuffle_no_ordering. exact Hf.
Qed.

(** ** What the runs of the schedule loop have in common *)

Lemma entry_targets f self i tr r :
  entry_run f self i tr r ->
  Forall (fun e => write_target e = Some f \/ kind_of e = k_error) tr.
Proof.
  intros H; destruct H;
    repeat first [ apply Forall_nil | apply Forall_cons ]; cbn; auto.
Qed.

Lemma loop_targets f self xs tr r :
  loop_runs (entry_run f self) xs tr r ->
  Forall (fun e => write_target e = Some f \/ kind_of e = k_error) tr.
Proof.
  induction 1 as [ | x xs t1 t2 r He _ IH | x xs t1 e He ].
  - constructor.
  - apply Forall_app. split; [ apply (entry_targets _ _ _ _ _ He) | exact IH ].
  - apply (entry_targets _ _ _ _ _ He).
Qed.

Lemma entry_returns_benign f self i tr :
  entry_run f self i tr (Ok tt) -> forallb benign tr = true.
Proof.
  intros H. inversion H; subst; cbn; try reflexivity.
  match goal with Hx : is_Exception _ = true |- _ => rewrite Hx end.
  reflexivity.
Qed.

Lemma loop_returns_benign f self xs tr :
  loop_runs (entry_run f self) xs tr (Ok tt) -> forallb benign tr = true.
Proof.
  intros H. remember (Ok tt) as r eqn:Hr.
  induction H as [ | x xs t1 t2 r He _ IH | x xs t1 e He ].
  - reflexivity.
  - rewrite forallb_app, (entry_returns_benign _ _ _ _ He), (IH Hr).
    reflexivity.
  - discriminate.
Qed.

Lemma entry_all_answered f self i tr r :
  entry_run f self i tr r ->
  forallb answered_ok tr = true ->
  r = Ok tt /\
  collect written_text tr
  = schedule_lines (batch_size self) (image_train_items self) [i] /\
  collect error_logged tr
  = schedule_errors (batch_size self) (image_train_items self) [i].
Proof.
  intros H; destruct H as [line n Hl | line x item [[]|y] Hl Hx Hi
                          | line x Hl Hx | x item [[]|y] Hl Hi ];
    unfold schedule_lines, schedule_errors; unfold schedule_line in Hl;
    cbn [forallb answered_ok is_ok andb flat_map]; try discriminate; intros _;
    rewrite Hl; try rewrite Hi; repeat split.
Qed.

Lemma schedule_lines_cons batch items i xs :
  schedule_lines batch items (i :: xs)
  = schedule_lines batch items [i] ++ schedule_lines batch items xs.
Proof. unfold schedule_lines. cbn. rewrite app_nil_r. reflexivity. Qed.

Lemma schedule_errors_cons batch items i xs :
  schedule_errors batch items (i :: xs)
  = schedule_errors batch items [i] ++ schedule_errors batch items xs.
Proof. unfold schedule_errors. cbn. rewrite app_nil_r. reflexivity. Qed.

Lemma loop_all_answered f self xs tr r :
  loop_runs (entry_run f self) xs tr r ->
  forallb answered_ok tr = true ->
  r = Ok tt /\
  collect written_text tr
  = schedule_lines (batch_size self) (image_train_items self) xs /\
  collect error_logged tr
  = schedule_errors (batch_size self) (image_train_items self) xs.
Proof.
  induction 1 as [ | x xs t1 t2 r He _ IH | x xs t1 e He ].
  - intros _. repeat split.
  - rewrite forallb_app. intros [H1 H2]%andb_prop.
    destruct (entry_all_answered _ _ _ _ _ He H1) as (_ & Hw1 & He1).
    destruct (IH H2) as (Hr & Hw2 & He2).
    rewrite schedule_lines_cons, schedule_errors_cons, !collect_app.
    rewrite Hw1, Hw2, He1, He2. auto.
  - intros Hok. destruct (entry_all_answered _ _ _ _ _ He Hok) as ([=] & _).
Qed.

(** For a batch size between 1 and [2^53] every item has its line. *)
Lemma schedule_lines_all batch items :
  0 < batch < 2 ^ 53 -> Z.of_nat (List.length items) <= 2 ^ 53 ->
  forall xs,
    (forall i, In i xs -> 0 <= i < Z.of_nat (List.length items)) ->
    Forall2 (fun i line =>
               exists item, list_getitem items i = Ok item /\
                            line = entry_line (i / batch) item)
            xs (schedule_lines batch items xs) /\
    schedule_errors batch items xs = [].
Proof.
  intros Hb Hn. induction xs as [|i xs IH]; intros Hxs.
  - split; [ constructor | reflexivity ].
  - rewrite schedule_lines_cons, schedule_errors_cons.
    destruct (line_text_in_range batch items i Hb
                (Hxs i (or_introl eq_refl)) Hn) as (item & Hitem & Hline).
    destruct (IH (fun j Hj => Hxs j (or_intror Hj))) as (IH1 & IH2).
    unfold schedule_lines at 1, schedule_errors at 1. cbn [flat_map].
    rewrite Hline, IH2. cbn [app]. split; [ | reflexivity ].
    constructor; [ | exact IH1 ]. exists item. auto.
Qed.

Lemma entry_errors_named f self i tr r :
  entry_run f self i tr r ->
  Forall (fun msg =>
            exists item, list_getitem (image_train_items self) i = Ok item /\
                         msg = schedule_error (pathname item))
         (collect error_logged tr).
Proof.
  intros H; destruct H; cbn;
    repeat first [ apply Forall_nil | apply Forall_cons ]; eauto.
Qed.

Lemma loop_errors_named f self xs tr r :
  loop_runs (entry_run f self) xs tr r ->
  Forall (fun msg =>
            exists i item, In i xs /\
              list_getitem (image_train_items self) i = Ok item /\
              msg = schedule_error (pathname item))
         (collect error_logged tr).
Proof.
  induction 1 as [ | x xs t1 t2 r He _ IH | x xs t1 e He ].
  - constructor.
  - rewrite collect_app. apply Forall_app. split.
    + eapply Forall_impl; [ | apply (entry_errors_named _ _ _ _ _ He) ].
      intros msg (item & Hi & Hm). exists x, item. cbn. auto.
    + eapply Forall_impl; [ | exact IH ].
      intros msg (i & item & Hin & Hi & Hm). exists i, item. cbn. auto.
  - eapply Forall_impl; [ | apply (entry_errors_named _ _ _ _ _ He) ].
    intros msg (item & Hi & Hm). exists x, item. cbn. auto.
Qed.

(** ** Further properties of the class *)




Lemma getitem_tokenizer self i tr rs :
  getitem_post self i tr rs ->
  Forall (fun q =>
            tk_tokenizer q = tokenizer self /\
            tk_truncation q = true /\
            tk_padding q = "max_length" /\
            tk_max_length q = model_max_length (tokenizer self))
         (collect tokenize_request tr).
Proof.
  unfold getitem_post, caption_call, tokenize_call. intros (_ & H).
  destruct (shuffle_tags self); open_post; subst; cbn;
    repeat first [ apply Forall_nil | apply Forall_cons ]; repeat split.
Qed.

(** X2.  Every tokenizer call of [__getitem__], for the caption or for
    the blank, is made on the tokenizer of the object with truncation on,
    padding ["max_length"] and the tokenizer's own [model_max_length] as
    the length; on a constructed object that is its [max_token_length]. *)
Theorem tokenizer_arguments {W} (h : handler W) (w w' : W) (a : init_args)
  (self : t) (i : Z) :
  result_of (exec h (__init__ a) w) = Ok self ->
  Forall (fun q =>
            Some (tk_tokenizer q) = arg_tokenizer a /\
            tk_truncation q = true /\
            tk_padding q = "max_length" /\
            tk_max_length q = max_token_length self)
         (collect tokenize_request (trace (run h (__getitem__ i) self w'))).
Proof.
  intros Hinit.
  pose proof (exec_always h _ _ w (init_always a)) as Hi.
  unfold result_of in *. rewrite Hinit in Hi.
  destruct (init_ok _ _ _ Hi) as (tok & items & ratio & Htok & Hself & _).
  pose proof (getitem_tokenizer _ _ _ _
                (run_always h _ self w' _ (getitem_always self i))) as H.
  eapply Forall_impl; [ | exact H ].
  intros q (Hq & Ht & Hp & Hm). rewrite Hq, Hm, Htok, Hself.
  repeat split; assumption.
Qed.

Lemma tokenizer_arguments_witness :
  Forall (fun q =>
            Some (tk_tokenizer q) = arg_tokenizer rated_args /\
            tk_truncation q = true /\
            tk_padding q = "max_length" /\
            tk_max_length q = max_token_length rated_provider)
         (collect tokenize_request
            (trace (run (scripted calm) (__getitem__ 2) rated_provider tt))).
Proof.
  apply (tokenizer_arguments (scripted calm) tt tt rated_args rated_provider 2).
  reflexivity.
Defined.

Lemma list_getitem_negative {A} (l : list A) (i : Z) :
  - Z.of_nat (List.length l) <= i < 0 ->
  list_getitem l i = list_getitem l (i + Z.of_nat (List.length l)).
Proof.
  intros Hi. unfold list_getitem.
  replace (i <? 0) with true by (symmetry; apply Z.ltb_lt; lia).
  replace (i + Z.of_nat (List.length l) <? 0) with false
    by (symmetry; apply Z.ltb_ge; lia).
  reflexivity.
Qed.

Lemma list_getitem_outside {A} (l : list A) (i : Z) :
  i < - Z.of_nat (List.length l) \/ Z.of_nat (List.length l) <= i ->
  list_getitem l i = Err IndexError.
Proof.
  intros Hi. unfold list_getitem.
  destruct (Z.ltb_spec i 0).
  - replace (0 <=? i + Z.of_nat (List.length l)) with false
      by (symmetry; apply Z.leb_gt; lia).
    reflexivity.
  - replace (i <? Z.of_nat (List.length l)) with false
      by (symmetry; apply Z.ltb_ge; lia).
    rewrite andb_false_r. reflexivity.
Qed.

Lemma getitem_by_item i j self :
  list_getitem (image_train_items self) i
  = list_getitem (image_train_items self) j ->
  __getitem__ i self = __getitem__ j self.
Proof.
  intros Heq. unfold __getitem__.
  unfold bind at 1 2. unfold get at 1, lift at 1. cbn [prog_bind fst snd].
  rewrite Heq. reflexivity.
Qed.

Lemma getitem_without_item i self x :
  list_getitem (image_train_items self) i = Err x ->
  __getitem__ i self = Ret (Err x, self).
Proof.
  intros Heq. unfold __getitem__.
  unfold bind at 1 2. unfold get at 1, lift at 1. cbn [prog_bind fst snd].
  rewrite Heq. reflexivity.
Qed.

(** X3.  The index of [__getitem__] is a Python list index.  Outside
    [-n, n) for [n] items the call raises [IndexError] before it calls
    anything and leaves the object as it is; a negative index in range
    counts from the end. *)
Theorem getitem_index {W} (h : handler W) (w : W) (self : t) (i : Z) :
  (i < - Z.of_nat (List.length (image_train_items self)) \/
   Z.of_nat (List.length (image_train_items self)) <= i ->
   run h (__getitem__ i) self w
   = {| outcome := Err IndexError; self_after := self;
        world_after := w; trace := [] |}) /\
  (- Z.of_nat (List.length (image_train_items self)) <= i < 0 ->
   run h (__getitem__ i) self w
   = run h (__getitem__ (i + Z.of_nat (List.length (image_train_items self))))
       self w).
Proof.
  split.
  - intros Hi. apply list_getitem_outside in Hi.
    unfold run. rewrite (getitem_without_item i self IndexError Hi).
    reflexivity.
  - intros Hi. unfold run.
    rewrite (getitem_by_item i
               (i + Z.of_nat (List.length (image_train_items self))) self
               (list_getitem_negative _ _ Hi)).
    reflexivity.
Qed.

Lemma getitem_index_witness :
  run (scripted calm) (__getitem__ (-1)) rated_provider tt
  = run (scripted calm) (__getitem__ 2) rated_provider tt.
Proof.
  apply (proj2 (getitem_index (scripted calm) tt rated_provider (-1))).
  cbn. lia.
Defined.

(** ** Failures of the epoch transition *)

Lemma entry_calls f self i tr r :
  entry_run f self i tr r -> Forall (fun e => schedule_call e = true) tr.
Proof.
  intros H; destruct H;
    repeat first [ apply Forall_nil | apply Forall_cons ]; reflexivity.
Qed.

Lemma loop_calls f self xs tr r :
  loop_runs (entry_run f self) xs tr r ->
  Forall (fun e => schedule_call e = true) tr.
Proof.
  induction 1 as [ | x xs t1 t2 r He _ IH | x xs t1 e He ].
  - constructor.
  - apply Forall_app. split; [ apply (entry_calls _ _ _ _ _ He) | exact IH ].
  - apply (entry_calls _ _ _ _ _ He).
Qed.

Lemma schedule_run_calls self epoch_n tr r :
  schedule_run self epoch_n tr r ->
  Forall (fun e => schedule_call e = true) tr.
Proof.
  intros H; destruct H as [x | f middle r closed Hl].
  - repeat constructor.
  - constructor; [ reflexivity | ]. apply Forall_app. split.
    + apply (loop_calls _ _ _ _ _ Hl).
    + repeat constructor.
Qed.

Lemma schedule_run_no_answer self epoch_n tr r :
  schedule_run self epoch_n tr r -> last_returned tr = None.
Proof.
  intros H. apply last_returned_none.
  eapply Forall_impl; [ | apply (schedule_run_calls _ _ _ _ H) ].
  apply schedule_call_no_answer.
Qed.

(** A [shuffle] whose request was answered. *)
Lemma shuffle_run_answered self epoch_n max_epochs tr r s items :
  shuffle_run self epoch_n max_epochs tr r s ->
  last_returned tr = Some items ->
  s = set_image_train_items items (set_seed (seed self + 1) self) /\
  exists fraction rest,
    dropout_fraction self epoch_n max_epochs = Ok fraction /\
    tr = Ev (get_shuffled_image_buckets (data_loader self) fraction) (Ok items)
           :: rest /\
    if write_schedule self
    then schedule_run s (epoch_n + 1) rest r
    else rest = [] /\ r = Ok tt.
Proof.
  intros H Hl.
  destruct H as [x Hf | fraction x Hf | fraction items' Hf Hw
                | fraction items' rest r Hf Hw Hrun ];
    try discriminate Hl.
  - cbn in Hl. injection Hl as ->. split; [ reflexivity | ].
    exists fraction, []. rewrite Hw. auto.
  - cbn [last_returned] in Hl.
    rewrite (schedule_run_no_answer _ _ _ _ Hrun) in Hl. cbn in Hl.
    injection Hl as ->. split; [ reflexivity | ].
    exists fraction, rest. rewrite Hw. auto.
Qed.

(** A [shuffle] whose request was not answered. *)
Lemma shuffle_run_unanswered self epoch_n max_epochs tr r s :
  shuffle_run self epoch_n max_epochs tr r s ->
  last_returned tr = None ->
  s = set_seed (seed self + 1) self /\
  (exists x, r = Err x) /\
  (List.length tr <= 1)%nat /\
  Forall (fun e => kind_of e = k_buckets) tr.
Proof.
  intros H Hl.
  destruct H as [x Hf | fraction x Hf | fraction items' Hf Hw
                | fraction items' rest r Hf Hw Hrun ].
  - repeat split; eauto.
  - repeat split; cbn; eauto.
  - discriminate Hl.
  - cbn [last_returned] in Hl.
    rewrite (schedule_run_no_answer _ _ _ _ Hrun) in Hl. discriminate Hl.
Qed.

(** X4.  A [shuffle] that gets no ordering, because the fraction could
    not be computed or because the bucketing collaborator raised, raises
    too: it keeps the ordering it had, has already advanced the seed, and
    has called nothing but the collaborator, at most once. *)
Theorem failed_request_keeps_ordering {W} (h : handler W) (w : W) (self : t)
  (epoch_n max_epochs : Z) :
  last_returned (trace (run h (shuffle epoch_n max_epochs) self w)) = None ->
  is_ok (outcome (run h (shuffle epoch_n max_epochs) self w)) = false /\
  image_train_items (self_after (run h (shuffle epoch_n max_epochs) self w))
  = image_train_items self /\
  seed (self_after (run h (shuffle epoch_n max_epochs) self w))
  = seed self + 1 /\
  (List.length (trace (run h (shuffle epoch_n max_epochs) self w)) <= 1)%nat /\
  Forall (fun e => kind_of e = k_buckets)
         (trace (run h (shuffle epoch_n max_epochs) self w)).
Proof.
  intros Hl.
  pose proof (run_always h _ self w _ (shuffle_runs self epoch_n max_epochs))
    as H. cbn [fst snd] in H.
  destruct (shuffle_run_unanswered _ _ _ _ _ _ H Hl)
    as (Hs & (x & Hr) & Hlen & Hk).
  rewrite Hs, Hr. repeat split; assumption.
Qed.

Lemma failed_request_keeps_ordering_witness :
  image_train_items
    (self_after (run (scripted no_buckets) (shuffle 1 4) rated_provider tt))
  = [cat; dog; cat].
Proof.
  apply (failed_request_keeps_ordering (scripted no_buckets) tt rated_provider
           1 4).
  reflexivity.
Defined.

Lemma zero_epochs_fraction self epoch_n :
  rated_dropout_fraction self epoch_n 0
  = match PyFloat.of_int epoch_n with
    | Ok _ => Err ZeroDivisionError
    | Err x => Err x
    end.
Proof.
  unfold rated_dropout_fraction, PyFloat.mul_int_float, PyFloat.sub_int_float,
    PyFloat.truediv_float_int.
  destruct (PyFloat.of_int epoch_n) as [fe|x]; [ | reflexivity ].
  cbn [result_bind]. rewrite of_int_zero. reflexivity.
Qed.

(** X5.  On a rated data set [shuffle(epoch_n, 0)] divides by zero: it
    raises, [ZeroDivisionError] when [epoch_n] converts to a float,
    without asking the bucketing collaborator, and the seed is advanced
    all the same. *)
Theorem rated_shuffle_zero_epochs {W} (h : handler W) (w : W) (self : t)
  (epoch_n : Z) :
  rated_dataset self = true ->
  trace (run h (shuffle epoch_n 0) self w) = [] /\
  is_ok (outcome (run h (shuffle epoch_n 0) self w)) = false /\
  (forall fe, PyFloat.of_int epoch_n = Ok fe ->
     outcome (run h (shuffle epoch_n 0) self w) = Err ZeroDivisionError) /\
  self_after (run h (shuffle epoch_n 0) self w)
  = set_seed (seed self + 1) self.
Proof.
  intros Hr.
  pose proof (run_always h _ self w _ (shuffle_always self epoch_n 0)) as H.
  unfold shuffle_post, dropout_fraction in H.
  rewrite Hr, zero_epochs_fraction in H.
  destruct (PyFloat.of_int epoch_n) as [fe|x]; destruct H as (Ht & Hrs);
    pose proof (f_equal fst Hrs) as Ho; pose proof (f_equal snd Hrs) as Hs;
    cbn [fst snd] in Ho, Hs; rewrite Ht, Ho, Hs; repeat split.
  discriminate.
Qed.

Lemma rated_shuffle_zero_epochs_witness :
  outcome (run (scripted calm) (shuffle 3 0) rated_provider tt)
  = Err ZeroDivisionError.
Proof.
  refine (proj1 (proj2 (proj2
            (rated_shuffle_zero_epochs (scripted calm) tt rated_provider 3 _)))
            (S754_finite false 6755399441055744 (-51)) _); reflexivity.
Defined.

(** X6.  With the schedule on, a [shuffle] whose request was answered
    opens one file, named after the next epoch in the log folder, for
    writing in UTF-8.  If the file does not open, the exception is
    raised.  Once open, the file is closed by the last call of the run,
    whatever happened before; between the two every call is a write to
    this file or an error for the log; and an exception of the close is
    raised. *)
Theorem schedule_file_protocol {W} (h : handler W) (w : W) (self : t)
  (epoch_n max_epochs : Z) (items : list ImageTrainItem) :
  write_schedule self = true ->
  last_returned (trace (run h (shuffle epoch_n max_epochs) self w))
  = Some items ->
  exists fraction opened rest,
    trace (run h (shuffle epoch_n max_epochs) self w)
    = Ev (get_shuffled_image_buckets (data_loader self) fraction) (Ok items)
        :: Ev (open_file (str_optional (log_folder self) +++ "/ep"
                          +++ str_int (epoch_n + 1) +++ "_batch_schedule.txt")
                 "w" "utf-8") opened
        :: rest /\
    match opened with
    | Err x =>
        rest = [] /\
        outcome (run h (shuffle epoch_n max_epochs) self w) = Err x
    | Ok f =>
        exists middle closed,
          rest = middle ++ [Ev (file_close f) closed] /\
          Forall (fun e => write_target e = Some f \/ kind_of e = k_error)
                 middle /\
          (forall x, closed = Err x ->
             outcome (run h (shuffle epoch_n max_epochs) self w) = Err x)
    end.
Proof.
  intros Hw Hl.
  pose proof (run_always h _ self w _ (shuffle_runs self epoch_n max_epochs))
    as H. cbn [fst snd] in H.
  destruct (shuffle_run_answered _ _ _ _ _ _ _ H Hl)
    as (Hs & fraction & rest & Hf & Htr & Hrun).
  rewrite Hw, Hs in Hrun. rewrite Htr.
  destruct Hrun as [x | f middle r closed Hloop].
  - exists fraction, (Err x), []. split; [ reflexivity | ].
    split; reflexivity.
  - exists fraction, (Ok f), (middle ++ [Ev (file_close f) closed]).
    split; [ reflexivity | ].
    exists middle, closed. split; [ reflexivity | ].
    split; [ apply (loop_targets _ _ _ _ _ Hloop) | ].
    intros x ->. reflexivity.
Qed.

Lemma schedule_file_protocol_witness :
  collect open_request
    (trace (run (scripted interrupted) (shuffle 6 10) rated_provider tt))
  = [{| open_name := "logs/ep7_batch_schedule.txt";
        open_mode := "w";
        open_encoding := "utf-8" |}] /\
  collect close_target
    (trace (run (scripted interrupted) (shuffle 6 10) rated_provider tt))
  = [{| fileno := 3 |}].
Proof.
  destruct (schedule_file_protocol (scripted interrupted) tt rated_provider
              6 10 [cat; dog; cat] eq_refl eq_refl)
    as (fraction & opened & rest & Htr & _).
  split; reflexivity.
Defined.

(** X7.  With the schedule on, a [shuffle] all of whose calls returned
    returns, and what it wrote is the schedule of the new ordering: the
    lines of its items that can be computed, in the order of the items,
    with one error in the log for each item that has no line.  For a
    batch size between 1 and [2^53] every item has its line, with the
    floor of its index over the batch size as the step, and no error is
    logged. *)
Theorem schedule_complete_when_calls_return {W} (h : handler W) (w : W)
  (self : t) (epoch_n max_epochs : Z) (items : list ImageTrainItem) :
  write_schedule self = true ->
  last_returned (trace (run h (shuffle epoch_n max_epochs) self w))
  = Some items ->
  forallb answered_ok (trace (run h (shuffle epoch_n max_epochs) self w))
  = true ->
  outcome (run h (shuffle epoch_n max_epochs) self w) = Ok tt /\
  collect written_text (trace (run h (shuffle epoch_n max_epochs) self w))
  = schedule_lines (batch_size self) items (range (List.length items)) /\
  collect error_logged (trace (run h (shuffle epoch_n max_epochs) self w))
  = schedule_errors (batch_size self) items (range (List.length items)) /\
  (0 < batch_size self < 2 ^ 53 ->
   Z.of_nat (List.length items) <= 2 ^ 53 ->
   Forall2 (fun i line =>
              exists item, list_getitem items i = Ok item /\
                           line = entry_line (i / batch_size self) item)
           (range (List.length items))
           (collect written_text
              (trace (run h (shuffle epoch_n max_epochs) self w))) /\
   collect error_logged (trace (run h (shuffle epoch_n max_epochs) self w))
   = []).
Proof.
  intros Hw Hl Hok.
  pose proof (run_always h _ self w _ (shuffle_runs self epoch_n max_epochs))
    as H. cbn [fst snd] in H.
  destruct (shuffle_run_answered _ _ _ _ _ _ _ H Hl)
    as (Hs & fraction & rest & Hf & Htr & Hrun).
  rewrite Hw, Hs in Hrun. rewrite Htr in *. clear Htr H.
  cbn [forallb answered_ok is_ok andb] in Hok.
  cbn [collect written_text write_attempt error_logged].
  assert (Hall : outcome (run h (shuffle epoch_n max_epochs) self w) = Ok tt /\
                 collect written_text rest
                 = schedule_lines (batch_size self) items
                     (range (List.length items)) /\
                 collect error_logged rest
                 = schedule_errors (batch_size self) items
                     (range (List.length items))).
  { destruct Hrun as [x | f middle r closed Hloop]; [ discriminate Hok | ].
    cbn [forallb answered_ok is_ok andb] in Hok.
    rewrite forallb_app in Hok. apply andb_prop in Hok as [Hmid Hclose].
    destruct (loop_all_answered _ _ _ _ _ Hloop Hmid) as (-> & Hwr & Her).
    destruct closed as [[]|x]; [ | discriminate Hclose ].
    cbn [collect written_text write_attempt error_logged].
    rewrite !collect_app, Hwr, Her. cbn. rewrite !app_nil_r.
    repeat split. }
  destruct Hall as (Ho & Hwr & Her).
  split; [ exact Ho | ]. split; [ exact Hwr | ]. split; [ exact Her | ].
  intros Hb Hn. rewrite Hwr, Her.
  apply (schedule_lines_all _ _ Hb Hn). intros i. apply in_range.
Qed.

Lemma schedule_complete_when_calls_return_witness :
  collect written_text
    (trace (run (scripted calm) (shuffle 0 10) rated_provider tt))
  = ["step:00000, wh:[512, 512], r:0, path:/data/cat.jpg" +++ newline;
     "step:00000, wh:[576, 448], r:1, path:/data/dog.jpg" +++ newline;
     "step:00001, wh:[512, 512], r:0, path:/data/cat.jpg" +++ newline].
Proof.
  refine (proj1 (proj2
            (schedule_complete_when_calls_return (scripted calm) tt
               rated_provider 0 10 [cat; dog; cat] _ _ _)));
    reflexivity.
Defined.

Lemma schedule_returns_benign self epoch_n tr :
  schedule_run self epoch_n tr (Ok tt) -> forallb benign tr = true.
Proof.
  intros H. inversion H as [x | f middle r closed Hloop Htr Hr]; subst.
  destruct closed as [[]|x]; [ | discriminate ]. subst r.
  cbn [forallb benign is_write answered_ok is_ok andb].
  rewrite forallb_app, (loop_returns_benign _ _ _ _ Hloop). reflexivity.
Qed.

Lemma shuffle_run_returned self epoch_n max_epochs tr s :
  shuffle_run self epoch_n max_epochs tr (Ok tt) s ->
  forallb benign tr = true /\ last_returned tr = Some (image_train_items s).
Proof.
  intros H.
  inversion H as [x Hf | fraction x Hf | fraction items Hf Hw Htr Hr Hs
                 | fraction items rest r Hf Hw Hrun Htr Hr Hs ]; subst.
  - split; reflexivity.
  - pose proof (schedule_returns_benign _ _ _ Hrun) as Hb.
    cbn [forallb benign is_write answered_ok is_ok andb last_returned].
    rewrite Hb, (schedule_run_no_answer _ _ _ _ Hrun). split; reflexivity.
Qed.

(** X8.  A [shuffle] that returns has replaced the ordering by the
    sequence the bucketing collaborator returned, and none of its calls
    raised, apart from writes that failed with an [Exception]: nothing
    else is swallowed. *)
Theorem shuffle_returns_only_if_benign {W} (h : handler W) (w : W) (self : t)
  (epoch_n max_epochs : Z) :
  outcome (run h (shuffle epoch_n max_epochs) self w) = Ok tt ->
  forallb benign (trace (run h (shuffle epoch_n max_epochs) self w)) = true /\
  last_returned (trace (run h (shuffle epoch_n max_epochs) self w))
  = Some (image_train_items
            (self_after (run h (shuffle epoch_n max_epochs) self w))).
Proof.
  intros Ho.
  pose proof (run_always h _ self w _ (shuffle_runs self epoch_n max_epochs))
    as H. cbn [fst snd] in H. rewrite Ho in H.
  apply (shuffle_run_returned _ _ _ _ _ H).
Qed.

Lemma shuffle_returns_only_if_benign_witness :
  forallb benign
    (trace (run (scripted full_disk) (shuffle 0 10) rated_provider tt)) = true.
Proof.
  apply (shuffle_returns_only_if_benign (scripted full_disk) tt rated_provider
           0 10).
  reflexivity.
Defined.

(** X9.  The seed of a shuffled caption is the seed of construction
    plus the number of [shuffle] calls so far: on an object constructed
    with [shuffle_tags], after any sequence of operations, an access
    whose item hydrates asks for the shuffled view of its caption with
    that seed. *)
Theorem caption_seed_after_session {W} (h : handler W) (w w' w'' : W)
  (a : init_args) (self : t) (ops : list operation) (i : Z)
  (hydrated : ImageTrainItem) :
  result_of (exec h (__init__ a) w) = Ok self ->
  arg_shuffle_tags a = true ->
  collect hydrate_answer
    (trace (run h (__getitem__ i)
              (result_of (exec h (session ops self) w')) w''))
  = [Ok hydrated] ->
  collect caption_request
    (trace (run h (__getitem__ i)
              (result_of (exec h (session ops self) w')) w''))
  = [shuffled_view (caption hydrated) (arg_seed a + count_shuffles ops)].
Proof.
  intros Hinit Htags Hh.
  pose proof (exec_always h _ _ w (init_always a)) as Hi.
  unfold result_of in *. rewrite Hinit in Hi.
  destruct (init_ok _ _ _ Hi) as (tok & items & ratio & _ & Hself & _).
  pose proof (exec_always h _ _ w' (session_always ops self)) as Hs.
  destruct Hs as (Hs & _).
  rewrite (getitem_caption_request _ _ _ _ _
             (run_always h _ _ w'' _ (getitem_always _ i)) Hh).
  rewrite Hs, Hself. cbn. rewrite Htags. reflexivity.
Qed.

Lemma caption_seed_after_session_witness :
  collect caption_request
    (trace (run (scripted calm) (__getitem__ 1)
              (result_of
                 (exec (scripted calm)
                    (session [op_shuffle 0 4; op_getitem 0; op_shuffle 1 4]
                       rated_provider) tt))
              tt))
  = [shuffled_view (caption dog) (555 + 2)].
Proof.
  apply (caption_seed_after_session (scripted calm) tt tt tt rated_args
           rated_provider [op_shuffle 0 4; op_getitem 0; op_shuffle 1 4] 1
           (loaded dog)); reflexivity.
Defined.

(** X10.  The constructor cannot succeed without a tokenizer or over a
    data loader whose batch size is zero.  Without a tokenizer it raises
    [AttributeError] before it calls anything.  With batch size zero it
    raises after its request to the bucketing collaborator,
    [ZeroDivisionError] when the request was answered, and nothing is
    logged and no file is opened. *)
Theorem constructor_failures {W} (h : handler W) (w : W) (a : init_args) :
  (arg_tokenizer a = None ->
   exec h (__init__ a) w = (Err AttributeError, w, [])) /\
  (DataLoaderMultiAspect.batch_size (arg_data_loader a) = 0 ->
   is_ok (result_of (exec h (__init__ a) w)) = false /\
   Forall (fun e => kind_of e = k_buckets) (trace_of (exec h (__init__ a) w)) /\
   (forall items,
      last_returned (trace_of (exec h (__init__ a) w)) = Some items ->
      result_of (exec h (__init__ a) w) = Err ZeroDivisionError)).
Proof.
  split.
  - intros Htok. unfold __init__. rewrite Htok. reflexivity.
  - intros Hb.
    pose proof (exec_always h _ _ w (init_always a)) as H.
    unfold result_of, trace_of, init_post in *.
    destruct (arg_tokenizer a) as [tok|].
    + destruct H as (answer & rest & Htr & H). rewrite Htr.
      destruct answer as [items|x].
      * cbn zeta in H.
        change (batch_size (new_instance a tok items))
          with (DataLoaderMultiAspect.batch_size (arg_data_loader a)) in H.
        rewrite Hb in H. unfold PyFloat.truediv_int_int in H.
        cbn [Z.eqb] in H. destruct H as (-> & ->).
        repeat split. repeat constructor.
      * destruct H as (-> & ->). repeat split; [ repeat constructor | ].
        intros items [=].
    + destruct H as (-> & ->). repeat split; [ constructor | ].
      intros items [=].
Qed.

Lemma constructor_failures_witness :
  result_of (exec (scripted calm) (__init__ zero_batch_args) tt)
  = Err ZeroDivisionError.
Proof.
  apply (proj2 (proj2 (proj2 (constructor_failures (scripted calm) tt
                                zero_batch_args) eq_refl)) [cat; dog; cat]).
  reflexivity.
Defined.

(** X11.  Every error a [shuffle] logs is about an item of the new
    ordering: its message is the fixed text followed by the path name of
    that item. *)
Theorem logged_errors_name_items {W} (h : handler W) (w : W) (self : t)
  (epoch_n max_epochs : Z) :
  Forall (fun msg =>
            exists i item,
              list_getitem
                (image_train_items
                   (self_after (run h (shuffle epoch_n max_epochs) self w))) i
              = Ok item /\
              msg = " * Error writing to batch schedule for file path: "
                    +++ pathname item)
         (collect error_logged
            (trace (run h (shuffle epoch_n max_epochs) self w))).
Proof.
  pose proof (run_always h _ self w _ (shuffle_runs self epoch_n max_epochs))
    as H. cbn [fst snd] in H.
  destruct H as [x Hf | fraction x Hf | fraction items Hf Hw
                | fraction items rest r Hf Hw Hrun ];
    try (cbn; constructor).
  cbn [collect error_logged].
  destruct Hrun as [x | f middle r closed Hloop]; [ cbn; constructor | ].
  cbn [collect error_logged]. rewrite collect_app. cbn. rewrite app_nil_r.
  eapply Forall_impl; [ | apply (loop_errors_named _ _ _ _ _ Hloop) ].
  intros msg (i & item & _ & Hi & Hm). exists i, item. split; assumption.
Qed.

(** X12.  With the schedule off, [shuffle] calls the bucketing
    collaborator and nothing else: no file is opened and nothing is
    logged, and it returns exactly when the collaborator answered. *)
Theorem plain_shuffle_calls_once {W} (h : handler W) (w : W) (self : t)
  (epoch_n max_epochs : Z) :
  write_schedule self = false ->
  Forall (fun e => kind_of e = k_buckets)
         (trace (run h (shuffle epoch_n max_epochs) self w)) /\
  (List.length (trace (run h (shuffle epoch_n max_epochs) self w)) <= 1)%nat /\
  is_ok (outcome (run h (shuffle epoch_n max_epochs) self w))
  = forallb answered_ok (trace (run h (shuffle epoch_n max_epochs) self w))
    && negb (Nat.eqb
               (List.length
                  (trace (run h (shuffle epoch_n max_epochs) self w))) 0).
Proof.
  intros Hw.
  pose proof (run_always h _ self w _ (shuffle_runs self epoch_n max_epochs))
    as H. cbn [fst snd] in H.
  destruct H as [x Hf | fraction x Hf | fraction items Hf Hw'
                | fraction items rest r Hf Hw' Hrun ];
    try congruence; cbn; repeat split; repeat constructor.
Qed.

Lemma plain_shuffle_calls_once_witness :
  (List.length
     (trace (run (scripted calm) (shuffle 0 10)
               (new_instance (default_args pairs_loader) clip [cat]) tt))
   <= 1)%nat.
Proof.
  apply (plain_shuffle_calls_once (scripted calm) tt
           (new_instance (default_args pairs_loader) clip [cat]) 0 10).
  reflexivity.
Defined.

(** ** The schedule of the first epoch *)

Lemma init_report_runs self :
  always (init_report self) (fun tr rs =>
    snd rs = self /\
    match PyFloat.truediv_int_int
            (Z.of_nat (List.length (image_train_items self)))
            (batch_size self) with
    | Err x => tr = [] /\ fst rs = Err x
    | Ok ratio =>
        exists logged rest,
          tr = Ev (logging_info
                     (trainer_set_message ratio
                        (Z.of_nat (List.length (image_train_items self)))
                        (batch_size self)))
                  logged :: rest /\
          match logged with
          | Err x => rest = [] /\ fst rs = Err x
          | Ok _ =>
              if write_schedule self
              then schedule_run self 0 rest (fst rs)
              else rest = [] /\ fst rs = Ok tt
          end
    end).
Proof.
  unfold init_report.
  unfold bind, ret, raise, get, put, lift, perform; cbn.
  destruct (PyFloat.truediv_int_int _ _) as [ratio|x]; cbn; [ | auto ].
  intros [[]|x]; cbn.
  - destruct (write_schedule self).
    + eapply always_weaken; [ | apply write_batch_schedule_runs ].
      cbn beta. intros tr rs (Hs & Hrun).
      split; [ assumption | ]. eexists _, _. split; [ reflexivity | ].
      cbn. exact Hrun.
    + cbn. split; [ reflexivity | ]. eexists _, _. split; [ reflexivity | ].
      cbn. auto.
  - split; [ reflexivity | ]. eexists _, _. split; [ reflexivity | ]. cbn. auto.
Qed.

(** The runs of a constructor that writes its schedule and returns. *)
Lemma init_schedule_runs a :
  always (__init__ a) (fun tr r =>
    forall self, r = Ok self -> write_schedule self = true ->
    exists bucket logged rest,
      tr = bucket :: logged :: rest /\
      last_returned [bucket] = Some (image_train_items self) /\
      kind_of logged = k_info /\ answered_ok logged = true /\
      schedule_run self 0 rest (Ok tt)).
Proof.
  unfold __init__.
  destruct (arg_tokenizer a) as [tok|]; cbn [always]; [ | discriminate ].
  intros [items|x]; cbn [always]; [ | discriminate ].
  eapply always_bind; [ apply init_report_runs | ].
  cbn beta. intros tr [r s] [Hs Hpost]. cbn [fst snd] in *. subst s.
  destruct r as [[]|y]; cbn [always]; [ | discriminate ].
  rewrite app_nil_r. intros self [= <-] Hw.
  destruct (PyFloat.truediv_int_int _ _) as [ratio|x];
    [ | destruct Hpost as (_ & [=]) ].
  destruct Hpost as (logged & rest & -> & Hpost).
  destruct logged as [[]|x]; [ | destruct Hpost as (_ & [=]) ].
  rewrite Hw in Hpost.
  eexists _, _, rest. split; [ reflexivity | ].
  repeat split. exact Hpost.
Qed.

Lemma loop_no_file f self xs tr r :
  loop_runs (entry_run f self) xs tr r ->
  collect open_request tr = [] /\ collect close_target tr = [].
Proof.
  intros H. pose proof (loop_targets _ _ _ _ _ H) as Ht.
  split; apply (collect_none _ (fun e =>
                  write_target e = Some f \/ kind_of e = k_error));
    try exact Ht;
    intros [X c a] [Hc|Hc]; destruct c; try discriminate Hc; reflexivity.
Qed.

(** X13.  A constructor that writes its schedule and returns has
    written the schedule of epoch 0, for the ordering it starts with: it
    opened the file of epoch 0 in the log folder, once, for writing in
    UTF-8, and it closed it.  If all its calls returned, the texts
    written are the lines of the items, in their order. *)
Theorem constructor_schedule {W} (h : handler W) (w : W) (a : init_args)
  (self : t) :
  result_of (exec h (__init__ a) w) = Ok self ->
  arg_write_schedule a = true ->
  collect open_request (trace_of (exec h (__init__ a) w))
  = [{| open_name := str_optional (arg_log_folder a)
                     +++ "/ep0_batch_schedule.txt";
        open_mode := "w";
        open_encoding := "utf-8" |}] /\
  List.length (collect close_target (trace_of (exec h (__init__ a) w)))
  = 1%nat /\
  forallb benign (trace_of (exec h (__init__ a) w)) = true /\
  (forallb answered_ok (trace_of (exec h (__init__ a) w)) = true ->
   collect written_text (trace_of (exec h (__init__ a) w))
   = schedule_lines
       (DataLoaderMultiAspect.batch_size (arg_data_loader a))
       (image_train_items self)
       (range (List.length (image_train_items self)))).
Proof.
  intros Hinit Hw.
  pose proof (exec_always h _ _ w (init_always a)) as Hi.
  pose proof (exec_always h _ _ w (init_schedule_runs a)) as Hrun.
  unfold result_of, trace_of in *. rewrite Hinit in Hi.
  destruct (init_ok _ _ _ Hi) as (tok & items & ratio & _ & Hself & _).
  assert (Hws : write_schedule self = true) by (rewrite Hself; exact Hw).
  destruct (Hrun self Hinit Hws)
    as (bucket & logged & rest & Htr & Hb & Hk & Hok & Hsched).
  rewrite Htr. clear Htr Hrun Hi.
  assert (Hbucket : kind_of bucket = k_buckets /\ answered_ok bucket = true).
  { destruct bucket as [X c [v|x]]; destruct c; cbn in Hb |- *;
      try discriminate; split; reflexivity. }
  destruct Hbucket as (Hkb & Hob).
  assert (Hfolder : log_folder self = arg_log_folder a)
    by (rewrite Hself; reflexivity).
  assert (Hbatch : batch_size self
                   = DataLoaderMultiAspect.batch_size (arg_data_loader a))
    by (rewrite Hself; reflexivity).
  assert (Hhead : forall A (f : event -> option A),
            (forall e, kind_of e = k_buckets \/ kind_of e = k_info ->
                       f e = None) ->
            collect f (bucket :: logged :: rest) = collect f rest).
  { intros A f Hf. cbn [collect].
    rewrite (Hf bucket (or_introl Hkb)), (Hf logged (or_intror Hk)).
    reflexivity. }
  assert (Hbenign : benign bucket = true /\ benign logged = true).
  { destruct bucket as [X c r]; destruct c; try discriminate Hkb.
    destruct logged as [Y c' r']; destruct c'; try discriminate Hk.
    cbn in Hob, Hok |- *. split; assumption. }
  pose proof (schedule_returns_benign _ _ _ Hsched) as Hsb.
  inversion Hsched as [x | f middle r closed Hloop Hrest Hr]; subst rest.
  destruct closed as [[]|x]; [ | discriminate Hr ]. subst r.
  destruct (loop_no_file _ _ _ _ _ Hloop) as (Hno & Hnc).
  split; [ | split; [ | split ] ].
  - rewrite Hhead
      by (intros [X c r] [Hc|Hc]; destruct c; try discriminate Hc; reflexivity).
    cbn [collect open_request]. rewrite collect_app, Hno.
    unfold schedule_path. rewrite Hfolder. reflexivity.
  - rewrite Hhead
      by (intros [X c r] [Hc|Hc]; destruct c; try discriminate Hc; reflexivity).
    cbn [collect close_target]. rewrite collect_app, Hnc. reflexivity.
  - cbn [forallb]. destruct Hbenign as (-> & ->). exact Hsb.
  - rewrite Hhead
      by (intros [X c r] [Hc|Hc]; destruct c; try discriminate Hc; reflexivity).
    cbn [forallb answered_ok is_ok andb]. rewrite Hob, Hok. cbn [andb].
    rewrite forallb_app. intros [Hmid _]%andb_prop.
    destruct (loop_all_answered _ _ _ _ _ Hloop Hmid) as (_ & Hwr & _).
    cbn [collect written_text write_attempt].
    rewrite collect_app, Hwr, Hbatch. cbn. rewrite app_nil_r. reflexivity.
Qed.

Lemma constructor_schedule_witness :
  collect open_request
    (trace_of (exec (scripted calm) (__init__ rated_args) tt))
  = [{| open_name := "logs/ep0_batch_schedule.txt";
        open_mode := "w";
        open_encoding := "utf-8" |}].
Proof.
  refine (proj1 (constructor_schedule (scripted calm) tt rated_args
                   rated_provider _ _)); reflexivity.
Defined.

(** ** Interrupted writes *)

Lemma after_interrupt_app t1 t2 :
  after_interrupt (t1 ++ t2)
  = match after_interrupt t1 with
    | Some (x, rest) => Some (x, rest ++ t2)
    | None => after_interrupt t2
    end.
Proof.
  induction t1 as [|e t1 IH]; cbn [app after_interrupt]; [ reflexivity | ].
  destruct (interrupt e); [ reflexivity | exact IH ].
Qed.

Lemma entry_interrupt f self i tr r :
  entry_run f self i tr r ->
  match after_interrupt tr with
  | Some (x, rest) => rest = [] /\ r = Err x
  | None => True
  end.
Proof.
  intros H; destruct H as [line n Hl | line x item logged Hl Hx Hi
                          | line x Hl Hx | x item logged Hl Hi ];
    cbn; rewrite ?Hx; cbn; auto.
Qed.

Lemma entry_returned_whole f self i tr :
  entry_run f self i tr (Ok tt) -> after_interrupt tr = None.
Proof.
  intros H. pose proof (entry_interrupt _ _ _ _ _ H) as Hi.
  destruct (after_interrupt tr) as [[x rest]|]; [ | reflexivity ].
  destruct Hi as (_ & [=]).
Qed.

Lemma loop_interrupt f self xs tr r :
  loop_runs (entry_run f self) xs tr r ->
  match after_interrupt tr with
  | Some (x, rest) => rest = [] /\ r = Err x
  | None => True
  end.
Proof.
  induction 1 as [ | x xs t1 t2 r He _ IH | x xs t1 e He ].
  - exact I.
  - rewrite after_interrupt_app, (entry_returned_whole _ _ _ _ He). exact IH.
  - apply (entry_interrupt _ _ _ _ _ He).
Qed.

Lemma schedule_interrupt self epoch_n tr r :
  schedule_run self epoch_n tr r ->
  forall x rest, after_interrupt tr = Some (x, rest) ->
  exists f closed,
    rest = [Ev (file_close f) closed] /\
    r = match closed with Ok _ => Err x | Err y => Err y end.
Proof.
  intros H; destruct H as [y | f middle r closed Hloop]; intros x rest.
  - cbn. discriminate.
  - cbn [after_interrupt interrupt is_write]. rewrite after_interrupt_app.
    pose proof (loop_interrupt _ _ _ _ _ Hloop) as Hi.
    destruct (after_interrupt middle) as [[x' rest']|].
    + destruct Hi as (-> & ->). intros [= <- <-].
      exists f, closed. split; reflexivity.
    + cbn. discriminate.
Qed.

(** X14.  A write that fails with an exception outside [Exception], a
    [KeyboardInterrupt], ends the schedule: the only call after it closes
    the file, no further line is written, nothing is logged, and the
    [shuffle] raises that exception, or the one of the close. *)
Theorem interrupt_stops_schedule {W} (h : handler W) (w : W) (self : t)
  (epoch_n max_epochs : Z) (x : exn) (rest : list event) :
  after_interrupt (trace (run h (shuffle epoch_n max_epochs) self w))
  = Some (x, rest) ->
  exists f closed,
    rest = [Ev (file_close f) closed] /\
    outcome (run h (shuffle epoch_n max_epochs) self w)
    = match closed with Ok _ => Err x | Err y => Err y end.
Proof.
  pose proof (run_always h _ self w _ (shuffle_runs self epoch_n max_epochs))
    as H. cbn [fst snd] in H.
  destruct H as [y Hf | fraction y Hf | fraction items Hf Hw
                | fraction items tr r Hf Hw Hrun ];
    try (cbn; discriminate).
  cbn [after_interrupt interrupt is_write].
  apply (schedule_interrupt _ _ _ _ Hrun).
Qed.

Lemma interrupt_stops_schedule_witness :
  exists f closed,
    [Ev (file_close {| fileno := 3 |}) (Ok tt)] = [Ev (file_close f) closed] /\
    outcome (run (scripted interrupted) (shuffle 0 10) rated_provider tt)
    = match closed with Ok _ => Err KeyboardInterrupt | Err y => Err y end.
Proof.
  apply (interrupt_stops_schedule (scripted interrupted) tt rated_provider
           0 10 KeyboardInterrupt [Ev (file_close {| fileno := 3 |}) (Ok tt)]).
  reflexivity.
Defined.

